(** * PlannerPro: the storage managers and the completion statistics

    A shallow embedding of the persistence layer of PlannerPro
    ([DatabaseStorageManager], [StorageManager]) and of the completion
    statistics of [StatisticsManager], with the properties the
    specification states about them.

    Conventions of the embedding.
    - A JavaScript object is a finite map from property names to JSON
      values; a missing property reads as [None] (JavaScript's undefined).
    - A text held by [localStorage] is represented by what [JSON.parse]
      makes of it: [Stored a] is the text [JSON.stringify a], [Corrupt s]
      is a text [s] that [JSON.parse] rejects.  The collections have the
      shape the program writes (arrays of records, an object of settings,
      an array of queued operations).
      Writing to [localStorage] succeeds: the quota is not reached.
    - Numbers are integers (identifiers, millisecond timestamps).
    - The time zone of the host and its [Date.parse] are parameters of
      the functions that read dates ([JSDate.Host]).
    - An asynchronous method is a state transformer that ends normally or
      by throwing; a rejected promise is a throw at the point where it is
      awaited.  Every method runs to its end without interleaving.
    - The network and the clock are oracles: the k-th [fetch] and the k-th
      reading of the clock have a fixed outcome. *)

From Stdlib Require Import Ascii ZArith Lia.
From stdpp Require Import gmap strings list fin_maps pretty.

Set Warnings "-register-all".
Local Open Scope Z_scope.

(** ** JSON values and the JavaScript operators used on them *)

Inductive json : Type :=
  | JNull
  | JBool (b : bool)
  | JNum (n : Z)
  | JStr (s : string)
  | JArr (l : list json)
  | JObj (m : gmap string json).

(** A record (task, expense, statistic): a JavaScript object. *)
Abbreviation obj := (gmap string json).

(** [if (v)], [v ? a : b], [v || d] on a value that may be undefined. *)
Definition truthy (v : option json) : bool :=
  match v with
  | None | Some JNull => false
  | Some (JBool b) => b
  | Some (JNum n) => negb (n =? 0)
  | Some (JStr s) => negb (String.eqb s "")
  | Some (JArr _) | Some (JObj _) => true
  end.

(** [a === b].  Primitives compare by value; two arrays or objects are
    equal only when they are the same reference, which a value read back
    from a store never is. *)
Definition strict_eq (a b : option json) : bool :=
  match a, b with
  | None, None => true
  | Some JNull, Some JNull => true
  | Some (JBool x), Some (JBool y) => Bool.eqb x y
  | Some (JNum x), Some (JNum y) => x =? y
  | Some (JStr x), Some (JStr y) => String.eqb x y
  | _, _ => false
  end.

(** [String(v)]; inside an array null prints as the empty text. *)
Fixpoint json_to_string (top : bool) (j : json) : string :=
  match j with
  | JNull => if top then "null" else ""
  | JBool true => "true"
  | JBool false => "false"
  | JNum n => pretty n
  | JStr s => s
  | JArr l =>
      (fix join (l : list json) : string :=
         match l with
         | [] => ""
         | [x] => json_to_string false x
         | x :: l' => json_to_string false x +:+ "," +:+ join l'
         end) l
  | JObj _ => "[object Object]"
  end.

(** Template-literal interpolation of an identifier, [`${id}`]. *)
Definition to_string (v : option json) : string :=
  match v with
  | None => "undefined"
  | Some j => json_to_string true j
  end.

(** [tasks.findIndex(p)]: [None] stands for -1. *)
Fixpoint findIndex {A} (p : A -> bool) (l : list A) : option nat :=
  match l with
  | [] => None
  | x :: l' => if p x then Some 0%nat else S <$> findIndex p l'
  end.

(** [tasks.find(p)]. *)
Fixpoint find {A} (p : A -> bool) (l : list A) : option A :=
  match l with
  | [] => None
  | x :: l' => if p x then Some x else find p l'
  end.

(** The content of one [localStorage] key: nothing, the text of a value
    of the shape the program writes under that key (given as the value),
    or a text that [JSON.parse] refuses. *)
Inductive slot (A : Type) : Type :=
  | Absent
  | Stored (a : A)
  | Corrupt (s : string).
Arguments Absent {A}.
Arguments Stored {A} a.
Arguments Corrupt {A} s.

(** [stored ? ... : ...] on the result of [getItem]: null and the empty
    text are falsy. *)
Definition slot_truthy {A} (s : slot A) : bool :=
  match s with
  | Absent => false
  | Stored _ => true
  | Corrupt t => negb (String.eqb t "")
  end.

Inductive error : Type :=
  | FetchError
  | ApiRequestFailed (status : Z)
  | BodyNotJSON
  | SyntaxError
  | TypeError
  | RequestError (name : string)
  | InvalidDataFormat.

Inductive completion (A : Type) : Type :=
  | Normal (a : A)
  | Thrown (e : error).
Arguments Normal {A} a.
Arguments Thrown {A} e.

(** [stored ? JSON.parse(stored) : dflt]. *)
Definition parse_or {A} (stored : slot A) (dflt : A) : completion A :=
  if slot_truthy stored then
    match stored with
    | Stored a => Normal a
    | _ => Thrown SyntaxError
    end
  else Normal dflt.

(** The names [Object.prototype] gives every plain object: [o[name]]
    finds its member when [o] has no property of its own by that name. *)
Definition object_prototype_names : list string :=
  ["constructor"; "__defineGetter__"; "__defineSetter__"; "hasOwnProperty";
   "__lookupGetter__"; "__lookupSetter__"; "isPrototypeOf"; "propertyIsEnumerable";
   "toString"; "valueOf"; "__proto__"; "toLocaleString"].

Definition inherited (key : string) : bool :=
  existsb (String.eqb key) object_prototype_names.

(** What [o[key]] reads on an object parsed from JSON: a JSON value, or
    the member of [Object.prototype] of that name (a function, or for
    [__proto__] the prototype itself). *)
Inductive js_value : Type :=
  | Data (j : json)
  | PrototypeMember (name : string).

(** The own properties of [o] after [o[key] = value].  Assigning to
    [__proto__] on an object with no own property of that name goes to
    the setter of [Object.prototype] and adds no property. *)
Definition assign (o : obj) (key : string) (value : json) : obj :=
  if String.eqb key "__proto__" && bool_decide (o !! key = None) then o
  else <[key := value]> o.

(** [o[key] !== undefined ? o[key] : dflt]. *)
Definition member_or (o : obj) (key : string) (dflt : json) : js_value :=
  match o !! key with
  | Some v => Data v
  | None => if inherited key then PrototypeMember key else Data dflt
  end.

(** [v.k] on a value received from outside: reading a property of null
    throws, a primitive or an array has none of the properties read here. *)
Definition prop (v : json) (k : string) : completion (option json) :=
  match v with
  | JNull => Thrown TypeError
  | JObj m => Normal (m !! k)
  | _ => Normal None
  end.

(** ** Dates: [Date.now], [toISOString], [new Date(v)], the host's time zone *)

Module JSDate.

Definition ms_per_day : Z := 86400000.

Record civil := { year : Z; month : Z; day : Z }.

Definition is_leap (y : Z) : bool :=
  ((y mod 4 =? 0) && negb (y mod 100 =? 0)) || (y mod 400 =? 0).

Definition days_in_month (y m : Z) : Z :=
  if m =? 2 then (if is_leap y then 29 else 28)
  else if (m =? 4) || (m =? 6) || (m =? 9) || (m =? 11) then 30
  else 31.

Definition next_day (c : civil) : civil :=
  if day c <? days_in_month (year c) (month c)
  then {| year := year c; month := month c; day := day c + 1 |}
  else if month c <? 12
  then {| year := year c; month := month c + 1; day := 1 |}
  else {| year := year c + 1; month := 1; day := 1 |}.

Definition epoch : civil := {| year := 1970; month := 1; day := 1 |}.

(** The UTC calendar date [n] days after 1970-01-01. *)
Definition civil_of_days (n : nat) : civil := Nat.iter n next_day epoch.

(** Days from 1970-01-01 to a calendar date; a day of the month outside
    the month rolls over, as [setDate], [setMonth] and [setFullYear] do. *)
Definition days_from_civil (y m d : Z) : Z :=
  let y' := y + (m - 1) / 12 in
  let m' := (m - 1) mod 12 + 1 in
  let y0 := if m' <=? 2 then y' - 1 else y' in
  let era := y0 / 400 in
  let yoe := y0 - era * 400 in
  let mp := if m' >? 2 then m' - 3 else m' + 9 in
  let doy := (153 * mp + 2) / 5 in
  let doe := yoe * 365 + yoe / 4 - yoe / 100 + doy in
  era * 146097 + doe - 719468 + (d - 1).

Definition digit (d : Z) : Ascii.ascii := Ascii.ascii_of_nat (48 + Z.to_nat d).

(** [n] written with exactly [k] decimal digits, zero padded. *)
Fixpoint pad (k : nat) (n : Z) : string :=
  match k with
  | O => ""
  | S k' => pad k' (n / 10) +:+ String (digit (n mod 10)) ""
  end.

Definition iso_date (c : civil) : string :=
  pad 4 (year c) +:+ "-" +:+ pad 2 (month c) +:+ "-" +:+ pad 2 (day c).

Definition utc_date (t : Z) : civil := civil_of_days (Z.to_nat (t / ms_per_day)).

Definition iso_time (t : Z) : string :=
  let ms := t mod ms_per_day in
  pad 2 (ms / 3600000) +:+ ":" +:+ pad 2 (ms / 60000 mod 60) +:+ ":" +:+
  pad 2 (ms / 1000 mod 60) +:+ "." +:+ pad 3 (ms mod 1000).

(** [new Date(t).toISOString()], for an instant from 1970 to 9999. *)
Definition toISOString (t : Z) : string :=
  iso_date (utc_date t) +:+ "T" +:+ iso_time t +:+ "Z".

(** [s.split('T')[0]]. *)
Fixpoint split_T_head (s : string) : string :=
  match s with
  | EmptyString => EmptyString
  | String c s' => if Ascii.eqb c "T"%char then EmptyString else String c (split_T_head s')
  end.

(** [a < b] on two strings: by code units, a proper prefix is smaller. *)
Fixpoint string_lt (a b : string) : bool :=
  match a, b with
  | _, EmptyString => false
  | EmptyString, String _ _ => true
  | String x a', String y b' =>
      if (Ascii.nat_of_ascii x <? Ascii.nat_of_ascii y)%nat then true
      else if (Ascii.nat_of_ascii y <? Ascii.nat_of_ascii x)%nat then false
      else string_lt a' b'
  end.

Definition digit_val (c : Ascii.ascii) : option Z :=
  let n := Z.of_nat (Ascii.nat_of_ascii c) in
  if (48 <=? n) && (n <=? 57) then Some (n - 48) else None.

(** The number written by a run of decimal digits. *)
Fixpoint digits_from (acc : Z) (s : string) : option Z :=
  match s with
  | EmptyString => Some acc
  | String c s' =>
      match digit_val c with
      | Some d => digits_from (acc * 10 + d) s'
      | None => None
      end
  end.

Definition number_at (s : string) (start len : nat) : option Z :=
  let part := String.substring start len s in
  if (String.length part =? len)%nat then digits_from 0 part else None.

Definition char_at (s : string) (i : nat) (c : Ascii.ascii) : bool :=
  match String.get i s with
  | Some c' => Ascii.eqb c c'
  | None => false
  end.

Definition prev_day (c : civil) : civil :=
  if 1 <? day c
  then {| year := year c; month := month c; day := day c - 1 |}
  else if 1 <? month c
  then {| year := year c; month := month c - 1;
          day := days_in_month (year c) (month c - 1) |}
  else {| year := year c - 1; month := 12; day := 31 |}.

(** The calendar date of day number [n], before 1970 as well. *)
Definition civil_of_day (n : Z) : civil :=
  if 0 <=? n then civil_of_days (Z.to_nat n)
  else Nat.iter (Z.to_nat (- n)) prev_day epoch.

(** What the host gives the Date object.  [LocalTZA t true] is the offset
    of local time from UTC, in milliseconds, at the instant [t], and
    [LocalTZA t false] the offset by which the local time [t] is read back
    as an instant.  [Date_parse] is [Date.parse], with [None] for NaN: the
    language fixes it on the Date Time String Format and leaves every
    other text to the host. *)
Record Host := {
  LocalTZA : Z -> bool -> Z;
  Date_parse : string -> option Z
}.

Definition LocalTime (h : Host) (t : Z) : Z := t + LocalTZA h t true.

Definition UTC (h : Host) (t : Z) : Z := t - LocalTZA h t false.

Definition max_time : Z := 8640000000000000.

(** [TimeClip]: a time value is at most 8.64e15 ms from the epoch. *)
Definition TimeClip (t : Z) : option Z :=
  if Z.abs t <=? max_time then Some t else None.

(** *** The Date Time String Format *)

(** The day number of [-MM-DD], [-MM] or nothing behind the year [y]; a
    day up to 31 past the end of its month rolls over. *)
Definition parse_month_day (y : Z) (s : string) : option Z :=
  if (String.length s =? 0)%nat then Some (days_from_civil y 1 1)
  else
    m ← number_at s 1 2;
    if negb (char_at s 0 "-"%char && (1 <=? m) && (m <=? 12)) then None
    else if (String.length s =? 3)%nat then Some (days_from_civil y m 1)
    else
      d ← number_at s 4 2;
      if (String.length s =? 6)%nat && char_at s 3 "-"%char && (1 <=? d) && (d <=? 31)
      then Some (days_from_civil y m d)
      else None.

Definition tail_from (n : nat) (s : string) : string :=
  String.substring n (String.length s - n) s.

(** The day number of YYYY, YYYY-MM or YYYY-MM-DD, the year also written
    with a sign and six digits. *)
Definition parse_date (s : string) : option Z :=
  if char_at s 0 "+"%char then
    y ← number_at s 1 6; parse_month_day y (tail_from 7 s)
  else if char_at s 0 "-"%char then
    y ← number_at s 1 6;
    if y =? 0 then None else parse_month_day (- y) (tail_from 7 s)
  else
    y ← number_at s 0 4; parse_month_day y (tail_from 4 s).

(** The milliseconds of HH:mm, HH:mm:ss or HH:mm:ss.sss. *)
Definition parse_time (s : string) : option Z :=
  hh ← number_at s 0 2;
  mi ← number_at s 3 2;
  if negb (char_at s 2 ":"%char) then None
  else
    rest ← (if (String.length s =? 5)%nat then Some (0, 0)
            else if (String.length s =? 8)%nat && char_at s 5 ":"%char then
              ss ← number_at s 6 2; Some (ss, 0)
            else if (String.length s =? 12)%nat && char_at s 5 ":"%char
                    && char_at s 8 "."%char then
              ss ← number_at s 6 2; ms ← number_at s 9 3; Some (ss, ms)
            else None);
    if ((hh <=? 23) && (mi <=? 59) && (rest.1 <=? 59))
       || ((hh =? 24) && (mi =? 0) && (rest.1 =? 0) && (rest.2 =? 0))
    then Some (hh * 3600000 + mi * 60000 + rest.1 * 1000 + rest.2)
    else None.

(** The offset written behind the time: none ([Some None], local time),
    Z, or +HH:mm / -HH:mm. *)
Definition parse_zone (s : string) : option (option Z) :=
  if (String.length s =? 0)%nat then Some None
  else if String.eqb s "Z" then Some (Some 0)
  else
    hh ← number_at s 1 2;
    mi ← number_at s 4 2;
    if (String.length s =? 6)%nat && char_at s 3 ":"%char && (hh <=? 23) && (mi <=? 59)
    then
      if char_at s 0 "+"%char then Some (Some ((hh * 60 + mi) * 60000))
      else if char_at s 0 "-"%char then Some (Some (- ((hh * 60 + mi) * 60000)))
      else None
    else None.

(** The time text up to the offset, and the offset text. *)
Fixpoint split_zone (s : string) : string * string :=
  match s with
  | EmptyString => (EmptyString, EmptyString)
  | String c s' =>
      if Ascii.eqb c "Z"%char || Ascii.eqb c "+"%char || Ascii.eqb c "-"%char
      then (EmptyString, s)
      else let (time, zone) := split_zone s' in (String c time, zone)
  end.

(** [Date.parse] on the Date Time String Format, for a host with the
    offsets [tza]: a date alone is read in UTC, a date and time without
    offset in local time.  Every other text gets NaN here. *)
Definition parse_date_time_string (tza : Z -> bool -> Z) (s : string) : option Z :=
  let date := split_T_head s in
  days ← parse_date date;
  if (String.length date =? String.length s)%nat then TimeClip (days * ms_per_day)
  else
    let (time, zone) := split_zone (tail_from (S (String.length date)) s) in
    t ← parse_time time;
    z ← parse_zone zone;
    let local := days * ms_per_day + t in
    match z with
    | Some offset => TimeClip (local - offset)
    | None => TimeClip (local - tza local false)
    end.

(** A host with the offsets [tza] that leaves the texts outside the Date
    Time String Format unread. *)
Definition standard_host (tza : Z -> bool -> Z) : Host :=
  {| LocalTZA := tza; Date_parse := parse_date_time_string tza |}.

End JSDate.

(** ** DatabaseStorageManager: remote API with a localStorage fallback *)

Module DatabaseStorageManager.

(** The [options] argument of [makeApiRequest]; [{}] is [no_options]. *)
Record RequestInit := {
  method : option string;
  headers : option (gmap string string);
  body : option json
}.

Definition no_options : RequestInit :=
  {| method := None; headers := None; body := None |}.

(** An entry of [this.pendingOperations]. *)
Record PendingOp := {
  endpoint : string;
  options : RequestInit;
  timestamp : Z
}.

(** What a [fetch] does: it rejects, or it answers with a status and a
    body that is JSON ([Some]) or not ([None]). *)
Inductive fetch_outcome : Type :=
  | NetworkFailure
  | HttpResponse (status : Z) (payload : option json).

Definition response_ok (status : Z) : bool := (200 <=? status) && (status <=? 299).

(** A call the remote API has received: [fetch(apiBase + url, init)]. *)
Record Request := { url : string; init : RequestInit }.

Record LocalStorage := {
  TASKS : slot (list obj);
  SETTINGS : slot obj;
  STATISTICS : slot (list obj);
  EXPENSES : slot (list obj);
  PENDING_OPS : slot (list PendingOp)
}.

Record World := {
  isOnline : bool;
  pendingOperations : list PendingOp;
  localStorage : LocalStorage;
  network : nat -> fetch_outcome;
  requests : list Request;
  clock : nat -> Z;
  ticks : nat
}.

Definition M (A : Type) : Type := World -> completion A * World.

#[global] Instance M_ret : MRet M := fun A a w => (Normal a, w).

#[global] Instance M_bind : MBind M := fun A B f m w =>
  match m w with
  | (Normal a, w') => f a w'
  | (Thrown e, w') => (Thrown e, w')
  end.

#[global] Instance M_fmap : FMap M := fun A B f m w =>
  match m w with
  | (Normal a, w') => (Normal (f a), w')
  | (Thrown e, w') => (Thrown e, w')
  end.

Definition throw {A} (e : error) : M A := fun w => (Thrown e, w).

Definition lift {A} (c : completion A) : M A := fun w => (c, w).

(** [try { m } catch (error) { h error }]: the effects of [m] up to the
    throw stay. *)
Definition try_catch {A} (m : M A) (h : error -> M A) : M A := fun w =>
  match m w with
  | (Normal a, w') => (Normal a, w')
  | (Thrown e, w') => h e w'
  end.

Definition gets {A} (f : World -> A) : M A := fun w => (Normal (f w), w).

Definition modify (f : World -> World) : M unit := fun w => (Normal tt, f w).

Definition with_isOnline (b : bool) (w : World) : World :=
  {| isOnline := b; pendingOperations := pendingOperations w;
     localStorage := localStorage w; network := network w;
     requests := requests w; clock := clock w; ticks := ticks w |}.

Definition with_pendingOperations (q : list PendingOp) (w : World) : World :=
  {| isOnline := isOnline w; pendingOperations := q;
     localStorage := localStorage w; network := network w;
     requests := requests w; clock := clock w; ticks := ticks w |}.

Definition with_localStorage (ls : LocalStorage) (w : World) : World :=
  {| isOnline := isOnline w; pendingOperations := pendingOperations w;
     localStorage := ls; network := network w;
     requests := requests w; clock := clock w; ticks := ticks w |}.

Definition with_requests (rs : list Request) (w : World) : World :=
  {| isOnline := isOnline w; pendingOperations := pendingOperations w;
     localStorage := localStorage w; network := network w;
     requests := rs; clock := clock w; ticks := ticks w |}.

Definition with_ticks (n : nat) (w : World) : World :=
  {| isOnline := isOnline w; pendingOperations := pendingOperations w;
     localStorage := localStorage w; network := network w;
     requests := requests w; clock := clock w; ticks := n |}.

Definition set_TASKS (v : slot (list obj)) (ls : LocalStorage) : LocalStorage :=
  {| TASKS := v; SETTINGS := SETTINGS ls; STATISTICS := STATISTICS ls;
     EXPENSES := EXPENSES ls; PENDING_OPS := PENDING_OPS ls |}.

Definition set_SETTINGS (v : slot obj) (ls : LocalStorage) : LocalStorage :=
  {| TASKS := TASKS ls; SETTINGS := v; STATISTICS := STATISTICS ls;
     EXPENSES := EXPENSES ls; PENDING_OPS := PENDING_OPS ls |}.

Definition set_STATISTICS (v : slot (list obj)) (ls : LocalStorage) : LocalStorage :=
  {| TASKS := TASKS ls; SETTINGS := SETTINGS ls; STATISTICS := v;
     EXPENSES := EXPENSES ls; PENDING_OPS := PENDING_OPS ls |}.

Definition set_EXPENSES (v : slot (list obj)) (ls : LocalStorage) : LocalStorage :=
  {| TASKS := TASKS ls; SETTINGS := SETTINGS ls; STATISTICS := STATISTICS ls;
     EXPENSES := v; PENDING_OPS := PENDING_OPS ls |}.

Definition set_PENDING_OPS (v : slot (list PendingOp)) (ls : LocalStorage) : LocalStorage :=
  {| TASKS := TASKS ls; SETTINGS := SETTINGS ls; STATISTICS := STATISTICS ls;
     EXPENSES := EXPENSES ls; PENDING_OPS := v |}.

(** [localStorage.getItem(key)] and [localStorage.setItem(key, text)],
    which is taken to succeed. *)
Definition getItem {A} (key : LocalStorage -> slot A) : M (slot A) :=
  gets (fun w => key (localStorage w)).

Definition setItem {A} (set : slot A -> LocalStorage -> LocalStorage) (v : slot A) : M unit :=
  modify (fun w => with_localStorage (set v (localStorage w)) w).

(** [Date.now()]: one reading of the clock. *)
Definition Date_now : M Z := fun w =>
  (Normal (clock w (ticks w)), with_ticks (S (ticks w)) w).

(** [new Date().toISOString()]. *)
Definition new_Date_toISOString : M string :=
  t ← Date_now; mret (JSDate.toISOString t).

(** [await fetch(apiBase + endpoint, {headers, ...options})], then the
    status check and [await response.json()]. *)
Definition fetch_json (endpoint : string) (options : RequestInit) : M json := fun w =>
  let outcome := network w (length (requests w)) in
  let w' := with_requests (requests w ++ [{| url := endpoint; init := options |}]) w in
  match outcome with
  | NetworkFailure => (Thrown FetchError, w')
  | HttpResponse status payload =>
      if response_ok status then
        match payload with
        | Some j => (Normal j, w')
        | None => (Thrown BodyNotJSON, w')
        end
      else (Thrown (ApiRequestFailed status), w')
  end.

(** [options.method !== 'GET']. *)
Definition method_not_GET (options : RequestInit) : bool :=
  negb (bool_decide (method options = Some "GET")).

Definition addPendingOperation (endpoint : string) (options : RequestInit) : M unit :=
  now ← Date_now;
  modify (fun w => with_pendingOperations
    (pendingOperations w ++ [{| endpoint := endpoint; options := options; timestamp := now |}]) w);;
  queue ← gets pendingOperations;
  setItem set_PENDING_OPS (Stored queue).

Definition makeApiRequest (endpoint : string) (options : RequestInit) : M json :=
  try_catch (fetch_json endpoint options)
    (fun error =>
       online ← gets isOnline;
       (if online && method_not_GET options
        then addPendingOperation endpoint options
        else mret tt);;
       throw error).

(** The [for (const operation of this.pendingOperations)] loop of
    [syncPendingOperations], from index [i]: the iterator reads the array
    as it is at each step, so an entry pushed during the loop is visited.
    A failure of [makeApiRequest] is logged and the loop goes on. *)
Fixpoint replay (fuel : nat) (i : nat) (w : World) : option World :=
  match fuel with
  | O => None
  | S fuel' =>
      match pendingOperations w !! i with
      | None => Some w
      | Some operation =>
          let '(_, w') := makeApiRequest (endpoint operation) (options operation) w in
          replay fuel' (S i) w'
      end
  end.

(** The queue [syncPendingOperations] works on: the stored one when the
    slot holds a text, the one in memory otherwise. *)
Definition loaded_queue (w : World) : completion (list PendingOp) :=
  parse_or (PENDING_OPS (localStorage w)) (pendingOperations w).

(** [syncPendingOperations()]; [None] when [fuel] iterations of the loop
    do not end it. *)
Definition syncPendingOperations (fuel : nat) (w : World) : option World :=
  match loaded_queue w with
  | Thrown _ => Some w
  | Normal queue =>
      let w1 := with_pendingOperations queue w in
      if (length queue =? 0)%nat then Some w1
      else
        match replay fuel 0 w1 with
        | None => None
        | Some w2 =>
            Some (with_localStorage (set_PENDING_OPS Absent (localStorage w2))
                    (with_pendingOperations [] w2))
        end
  end.

(** The handlers of the [online] and [offline] events. *)
Definition on_online (fuel : nat) (w : World) : option World :=
  syncPendingOperations fuel (with_isOnline true w).

Definition on_offline (w : World) : World := with_isOnline false w.

(** *** The localStorage fallback *)

Definition getTasksFromLocalStorage : M (list obj) :=
  try_catch (stored ← getItem TASKS; lift (parse_or stored []))
            (fun _ => mret []).

Definition same_id (id : option json) (t : obj) : bool := strict_eq (t !! "id") id.

Definition saveTaskToLocalStorage (task : obj) : M obj :=
  tasks ← getTasksFromLocalStorage;
  if truthy (task !! "id") then
    match findIndex (same_id (task !! "id")) tasks with
    | Some index =>
        now ← new_Date_toISOString;
        setItem set_TASKS (Stored (<[index := <["updatedAt" := JStr now]> task]> tasks));;
        mret task
    | None =>
        now ← new_Date_toISOString;
        setItem set_TASKS (Stored (tasks ++ [<["updatedAt" := JStr now]> task]));;
        mret task
    end
  else
    stamp ← Date_now;
    created ← new_Date_toISOString;
    updated ← new_Date_toISOString;
    let newTask := <["updatedAt" := JStr updated]>
                     (<["createdAt" := JStr created]>
                        (<["id" := JStr ("temp_" +:+ pretty stamp)]> task)) in
    setItem set_TASKS (Stored (tasks ++ [newTask]));;
    mret newTask.

Definition deleteTaskFromLocalStorage (id : option json) : M unit :=
  tasks ← getTasksFromLocalStorage;
  setItem set_TASKS (Stored (List.filter (fun t => negb (same_id id t)) tasks)).

Definition getSettingsFromLocalStorage : M obj :=
  try_catch (stored ← getItem SETTINGS; lift (parse_or stored ∅))
            (fun _ => mret ∅).

Definition setSettingInLocalStorage (key : string) (value : json) : M unit :=
  settings ← getSettingsFromLocalStorage;
  setItem set_SETTINGS (Stored (assign settings key value)).

Definition getSettingFromLocalStorage (key : string) (defaultValue : json) : M js_value :=
  settings ← getSettingsFromLocalStorage;
  mret (member_or settings key defaultValue).

Definition getStatisticsFromLocalStorage : M (list obj) :=
  try_catch (stored ← getItem STATISTICS; lift (parse_or stored []))
            (fun _ => mret []).

Definition statistic_json (date type data : json) : obj :=
  <["date" := date]> (<["type" := type]> (<["data" := data]> ∅)).

Definition saveStatisticToLocalStorage (date type data : json) : M unit :=
  stats ← getStatisticsFromLocalStorage;
  now ← new_Date_toISOString;
  setItem set_STATISTICS
    (Stored (stats ++ [<["createdAt" := JStr now]> (statistic_json date type data)])).

(** The export document, and the argument of [importData]; a field that
    is missing (or falsy) is [None]. *)
Record Document := {
  version : option string;
  exportDate : option string;
  tasks : option (list obj);
  settings : option obj;
  statistics : option (list obj)
}.

Definition exportDataFromLocalStorage : M Document :=
  date ← new_Date_toISOString;
  ts ← getTasksFromLocalStorage;
  ss ← getSettingsFromLocalStorage;
  st ← getStatisticsFromLocalStorage;
  mret {| version := Some "1.0"; exportDate := Some date;
          tasks := Some ts; settings := Some ss; statistics := Some st |}.

Definition importDataToLocalStorage (data : Document) : M unit :=
  match tasks data with
  | Some ts => setItem set_TASKS (Stored ts)
  | None => mret tt
  end;;
  match settings data with
  | Some ss => setItem set_SETTINGS (Stored ss)
  | None => mret tt
  end;;
  match statistics data with
  | Some st => setItem set_STATISTICS (Stored st)
  | None => mret tt
  end.

(** [Object.values(this.localStorageKeys).forEach(key => removeItem(key))]. *)
Definition clearLocalStorageData : M unit :=
  modify (fun w => with_localStorage
    {| TASKS := Absent; SETTINGS := Absent; STATISTICS := Absent;
       EXPENSES := Absent; PENDING_OPS := Absent |} w).

Definition getExpensesFromLocalStorage : M (list obj) :=
  try_catch (stored ← getItem EXPENSES; lift (parse_or stored []))
            (fun _ => mret []).

Definition saveExpenseToLocalStorage (expense : obj) : M obj :=
  expenses ← getExpensesFromLocalStorage;
  if truthy (expense !! "id") then
    match findIndex (same_id (expense !! "id")) expenses with
    | Some index =>
        now ← new_Date_toISOString;
        setItem set_EXPENSES (Stored (<[index := <["updatedAt" := JStr now]> expense]> expenses));;
        mret expense
    | None =>
        now ← new_Date_toISOString;
        setItem set_EXPENSES (Stored (expenses ++ [<["updatedAt" := JStr now]> expense]));;
        mret expense
    end
  else
    stamp ← Date_now;
    created ← new_Date_toISOString;
    updated ← new_Date_toISOString;
    let newExpense := <["updatedAt" := JStr updated]>
                        (<["createdAt" := JStr created]>
                           (<["id" := JStr ("temp_" +:+ pretty stamp)]> expense)) in
    setItem set_EXPENSES (Stored (expenses ++ [newExpense]));;
    mret newExpense.

Definition deleteExpenseFromLocalStorage (id : option json) : M unit :=
  expenses ← getExpensesFromLocalStorage;
  setItem set_EXPENSES (Stored (List.filter (fun e => negb (same_id id e)) expenses)).

(** *** The facade *)

(** [v || d]. *)
Definition or_else (v : option json) (d : json) : json :=
  match v with
  | Some j => if truthy v then j else d
  | None => d
  end.

Definition records_json (l : list obj) : json := JArr (JObj <$> l).

Definition save_method (record : obj) : string :=
  if truthy (record !! "id") then "PUT" else "POST".

(** [{ method: task.id ? 'PUT' : 'POST', body: JSON.stringify(task) }]. *)
Definition save_options (task : obj) : RequestInit :=
  {| method := Some (save_method task); headers := None; body := Some (JObj task) |}.

Definition saveTask (task : obj) : M json :=
  try_catch
    (online ← gets isOnline;
     if (online : bool) then makeApiRequest "/tasks" (save_options task)
     else JObj <$> saveTaskToLocalStorage task)
    (fun _ => JObj <$> saveTaskToLocalStorage task).

Definition getAllTasks : M json :=
  try_catch
    (online ← gets isOnline;
     if (online : bool) then
       result ← makeApiRequest "/tasks" no_options;
       ts ← lift (prop result "tasks");
       mret (or_else ts (JArr []))
     else records_json <$> getTasksFromLocalStorage)
    (fun _ => records_json <$> getTasksFromLocalStorage).

Definition getTask (id : option json) : M (option json) :=
  try_catch
    (online ← gets isOnline;
     if (online : bool) then
       result ← makeApiRequest ("/tasks/" +:+ to_string id) no_options;
       lift (prop result "task")
     else
       ts ← getTasksFromLocalStorage;
       mret (JObj <$> find (same_id id) ts))
    (fun _ =>
       ts ← getTasksFromLocalStorage;
       mret (JObj <$> find (same_id id) ts)).

Definition deleteTask (id : option json) : M unit :=
  try_catch
    (online ← gets isOnline;
     if (online : bool) then
       makeApiRequest ("/tasks/" +:+ to_string id)
         {| method := Some "DELETE"; headers := None; body := None |};;
       mret tt
     else deleteTaskFromLocalStorage id)
    (fun _ => deleteTaskFromLocalStorage id).

Definition setting_json (key : string) (value : json) : json :=
  JObj (<["key" := JStr key]> (<["value" := value]> ∅)).

Definition setSetting (key : string) (value : json) : M unit :=
  try_catch
    (online ← gets isOnline;
     if (online : bool) then
       makeApiRequest "/settings"
         {| method := Some "POST"; headers := None; body := Some (setting_json key value) |};;
       mret tt
     else setSettingInLocalStorage key value)
    (fun _ => setSettingInLocalStorage key value).

Definition getSetting (key : string) (defaultValue : json) : M js_value :=
  try_catch
    (online ← gets isOnline;
     if (online : bool) then
       result ← makeApiRequest ("/settings/" +:+ key) no_options;
       v ← lift (prop result "value");
       mret (Data (default defaultValue v))
     else getSettingFromLocalStorage key defaultValue)
    (fun _ => getSettingFromLocalStorage key defaultValue).

Definition saveStatistic (date type data : json) : M unit :=
  try_catch
    (online ← gets isOnline;
     if (online : bool) then
       makeApiRequest "/statistics"
         {| method := Some "POST"; headers := None;
            body := Some (JObj (statistic_json date type data)) |};;
       mret tt
     else saveStatisticToLocalStorage date type data)
    (fun _ => saveStatisticToLocalStorage date type data).

Definition getStatistics : M json :=
  try_catch
    (online ← gets isOnline;
     if (online : bool) then
       result ← makeApiRequest "/statistics" no_options;
       st ← lift (prop result "statistics");
       mret (or_else st (JArr []))
     else records_json <$> getStatisticsFromLocalStorage)
    (fun _ => records_json <$> getStatisticsFromLocalStorage).

(** What [exportData] returns: the answer of the remote API as it came,
    or the document built from localStorage. *)
Inductive exported : Type :=
  | RemoteExport (result : json)
  | LocalExport (document : Document).

Definition exportData : M exported :=
  try_catch
    (online ← gets isOnline;
     if (online : bool) then RemoteExport <$> makeApiRequest "/export" no_options
     else LocalExport <$> exportDataFromLocalStorage)
    (fun _ => LocalExport <$> exportDataFromLocalStorage).

Definition opt_field {A} (k : string) (f : A -> json) (v : option A) (m : obj) : obj :=
  match v with
  | Some a => <[k := f a]> m
  | None => m
  end.

Definition document_json (d : Document) : json :=
  JObj (opt_field "version" JStr (version d)
         (opt_field "exportDate" JStr (exportDate d)
           (opt_field "tasks" records_json (tasks d)
             (opt_field "settings" JObj (settings d)
               (opt_field "statistics" records_json (statistics d) ∅))))).

Definition importData (data : Document) : M unit :=
  try_catch
    (online ← gets isOnline;
     if (online : bool) then
       makeApiRequest "/import"
         {| method := Some "POST"; headers := None; body := Some (document_json data) |};;
       mret tt
     else importDataToLocalStorage data)
    (fun _ => importDataToLocalStorage data).

Definition clearAll : M unit :=
  try_catch
    (online ← gets isOnline;
     (if (online : bool) then
        makeApiRequest "/clear" {| method := Some "POST"; headers := None; body := None |};;
        mret tt
      else mret tt);;
     clearLocalStorageData)
    (fun _ => clearLocalStorageData).

Definition json_headers : gmap string string := {[ "Content-Type" := "application/json" ]}.

Definition expense_endpoint (expense : obj) : string :=
  if truthy (expense !! "id") then "/expenses/" +:+ to_string (expense !! "id")
  else "/expenses".

Definition expense_options (expense : obj) : RequestInit :=
  {| method := Some (save_method expense); headers := Some json_headers;
     body := Some (JObj expense) |}.

Definition saveExpense (expense : obj) : M (option json) :=
  try_catch
    (online ← gets isOnline;
     if (online : bool) then
       result ← makeApiRequest (expense_endpoint expense) (expense_options expense);
       lift (prop result "expense")
     else
       savedExpense ← saveExpenseToLocalStorage expense;
       addPendingOperation (expense_endpoint expense) (expense_options expense);;
       mret (Some (JObj savedExpense)))
    (fun _ => (fun e => Some (JObj e)) <$> saveExpenseToLocalStorage expense).

Definition deleteExpense (id : option json) : M unit :=
  try_catch
    (online ← gets isOnline;
     (if (online : bool) then
        makeApiRequest ("/expenses/" +:+ to_string id)
          {| method := Some "DELETE"; headers := None; body := None |};;
        mret tt
      else
        addPendingOperation ("/expenses/" +:+ to_string id)
          {| method := Some "DELETE"; headers := None; body := None |});;
     deleteExpenseFromLocalStorage id)
    (fun _ => deleteExpenseFromLocalStorage id).

(** [saveAll()]: a manual flush of the queue. *)
Definition saveAll (fuel : nat) (w : World) : option World :=
  syncPendingOperations fuel w.

Definition health_options : RequestInit :=
  {| method := Some "GET"; headers := Some json_headers; body := None |}.

(** [checkDatabaseConnection()]: [response.ok] of GET /health, false when
    the [fetch] rejects (or times out). *)
Definition checkDatabaseConnection : M bool := fun w =>
  let outcome := network w (length (requests w)) in
  let w' := with_requests (requests w ++ [{| url := "/health"; init := health_options |}]) w in
  match outcome with
  | NetworkFailure => (Normal false, w')
  | HttpResponse status _ => (Normal (response_ok status), w')
  end.

(** [init()]: the queue is drained when the health check succeeds. *)
Definition init' (fuel : nat) (w : World) : option World :=
  match checkDatabaseConnection w with
  | (Normal true, w1) => syncPendingOperations fuel w1
  | (_, w1) => Some w1
  end.

End DatabaseStorageManager.

(** ** StorageManager: IndexedDB with a localStorage fallback *)

Module StorageManager.

(** An IndexedDB request fires [onsuccess] with a result or [onerror]. *)
Inductive IDBRequest (A : Type) : Type :=
  | RequestSuccess (result : A)
  | RequestFailure (name : string).
Arguments RequestSuccess {A} result.
Arguments RequestFailure {A} name.

(** The opened database: the object stores created by [initIndexedDB]
    (tasks keyed by id, settings by key, statistics by date), each as the
    list of its records in the order of their keys; when [broken] holds a
    name every request on it fails with that error. *)
Record IDBDatabase := {
  store_tasks : list obj;
  store_settings : list obj;
  store_statistics : list obj;
  broken : option string
}.

Record LocalStorage := {
  TASKS : slot (list obj);
  SETTINGS : string -> slot json;
  STATISTICS : slot (list obj)
}.

Record World := {
  isIndexedDBAvailable : bool;
  db : option IDBDatabase;
  localStorage : LocalStorage;
  clock : nat -> Z;
  ticks : nat
}.

Definition M (A : Type) : Type := World -> completion A * World.

#[global] Instance M_ret : MRet M := fun A a w => (Normal a, w).

#[global] Instance M_bind : MBind M := fun A B f m w =>
  match m w with
  | (Normal a, w') => f a w'
  | (Thrown e, w') => (Thrown e, w')
  end.

#[global] Instance M_fmap : FMap M := fun A B f m w =>
  match m w with
  | (Normal a, w') => (Normal (f a), w')
  | (Thrown e, w') => (Thrown e, w')
  end.

Definition throw {A} (e : error) : M A := fun w => (Thrown e, w).

Definition lift {A} (c : completion A) : M A := fun w => (c, w).

Definition try_catch {A} (m : M A) (h : error -> M A) : M A := fun w =>
  match m w with
  | (Normal a, w') => (Normal a, w')
  | (Thrown e, w') => h e w'
  end.

Definition gets {A} (f : World -> A) : M A := fun w => (Normal (f w), w).

Definition modify (f : World -> World) : M unit := fun w => (Normal tt, f w).

(** What a [return] statement of an async method hands back: a value, or
    a promise that is not awaited there. *)
Inductive returned (A : Type) : Type :=
  | Value (a : A)
  | Promise (settles : completion A * option IDBDatabase).
Arguments Value {A} a.
Arguments Promise {A} settles.

Definition with_db (d : option IDBDatabase) (w : World) : World :=
  {| isIndexedDBAvailable := isIndexedDBAvailable w; db := d;
     localStorage := localStorage w; clock := clock w; ticks := ticks w |}.

Definition with_localStorage (ls : LocalStorage) (w : World) : World :=
  {| isIndexedDBAvailable := isIndexedDBAvailable w; db := db w;
     localStorage := ls; clock := clock w; ticks := ticks w |}.

Definition with_ticks (n : nat) (w : World) : World :=
  {| isIndexedDBAvailable := isIndexedDBAvailable w; db := db w;
     localStorage := localStorage w; clock := clock w; ticks := n |}.

(** The result of an async method: a returned value resolves it; a
    returned promise settles it, outside any [try] of the method body. *)
Definition async {A} (m : M (returned A)) : M A := fun w =>
  match m w with
  | (Normal (Value a), w') => (Normal a, w')
  | (Normal (Promise (c, d)), w') => (c, with_db d w')
  | (Thrown e, w') => (Thrown e, w')
  end.

(** [new Promise((resolve, reject) => { request.onsuccess = () =>
    resolve(f(request.result)); request.onerror = () =>
    reject(request.error) })]. *)
Definition new_Promise {A B} (request : IDBRequest A * IDBDatabase) (f : A -> B)
  : returned B :=
  match request with
  | (RequestSuccess a, d) => Promise (Normal (f a), Some d)
  | (RequestFailure name, d) => Promise (Thrown (RequestError name), Some d)
  end.

Definition has_key (keyPath : string) (key : option json) (r : obj) : bool :=
  strict_eq (r !! keyPath) key.

(** A key IndexedDB accepts: a number, a text, or an array of keys. *)
Fixpoint valid_key_value (j : json) : bool :=
  match j with
  | JNum _ | JStr _ => true
  | JArr l =>
      (fix all (l : list json) : bool :=
         match l with
         | [] => true
         | x :: l' => valid_key_value x && all l'
         end) l
  | _ => false
  end.

Definition valid_key (key : option json) : bool :=
  match key with
  | Some j => valid_key_value j
  | None => false
  end.

(** The order of IndexedDB on keys: a number is before a text, a text
    before an array; numbers by value, texts by code units, arrays item
    by item and then by length. *)
Fixpoint key_compare (a b : json) {struct a} : comparison :=
  match a, b with
  | JNum x, JNum y => x ?= y
  | JStr x, JStr y =>
      if JSDate.string_lt x y then Lt else if JSDate.string_lt y x then Gt else Eq
  | JArr l, JArr l' =>
      (fix items (l l' : list json) {struct l} : comparison :=
         match l, l' with
         | [], [] => Eq
         | [], _ :: _ => Lt
         | _ :: _, [] => Gt
         | x :: r, y :: r' =>
             match key_compare x y with
             | Eq => items r r'
             | c => c
             end
         end) l l'
  | JNum _, _ => Lt
  | _, JNum _ => Gt
  | JStr _, _ => Lt
  | _, JStr _ => Gt
  | _, _ => Eq
  end.

(** The record is stored under [key] in a store with the given key path. *)
Definition keyed (keyPath : string) (key : option json) (r : obj) : bool :=
  match r !! keyPath, key with
  | Some a, Some b =>
      match key_compare a b with
      | Eq => true
      | _ => false
      end
  | _, _ => false
  end.

Definition with_store_tasks (l : list obj) (d : IDBDatabase) : IDBDatabase :=
  {| store_tasks := l; store_settings := store_settings d;
     store_statistics := store_statistics d; broken := broken d |}.

Definition with_store_settings (l : list obj) (d : IDBDatabase) : IDBDatabase :=
  {| store_tasks := store_tasks d; store_settings := l;
     store_statistics := store_statistics d; broken := broken d |}.

Definition with_store_statistics (l : list obj) (d : IDBDatabase) : IDBDatabase :=
  {| store_tasks := store_tasks d; store_settings := store_settings d;
     store_statistics := l; broken := broken d |}.

(** The fallback's [findIndex] on the key, then [tasks[i] = record] or
    [tasks.push(record)]. *)
Definition put (keyPath : string) (record : obj) (l : list obj) : list obj :=
  match findIndex (has_key keyPath (record !! keyPath)) l with
  | Some i => <[i := record]> l
  | None => l ++ [record]
  end.

(** What [r] and [record] compare as by their keys. *)
Definition compare_records (keyPath : string) (record r : obj) : comparison :=
  match record !! keyPath, r !! keyPath with
  | Some a, Some b => key_compare a b
  | _, _ => Gt
  end.

(** [store.put(record)] on a store with the given key path: the record
    takes the place of the one with its key, or its place in the order of
    the keys. *)
Fixpoint store_put (keyPath : string) (record : obj) (l : list obj) : list obj :=
  match l with
  | [] => [record]
  | r :: l' =>
      match compare_records keyPath record r with
      | Lt => record :: r :: l'
      | Eq => record :: l'
      | Gt => r :: store_put keyPath record l'
      end
  end.

(** The outcome of a request on a store: the error of a broken database,
    DataError for a key that is none ([store.put] and [store.delete]
    throw it inside the executor of the promise, which rejects the
    promise as [onerror] does), or the result and the store after it. *)
Definition request {A} (d : IDBDatabase) (key_ok : bool) (result : A) (d' : IDBDatabase)
  : IDBRequest A * IDBDatabase :=
  match broken d with
  | Some name => (RequestFailure name, d)
  | None => if key_ok then (RequestSuccess result, d') else (RequestFailure "DataError", d)
  end.

Definition tasks_getAll (d : IDBDatabase) : IDBRequest (list obj) * IDBDatabase :=
  request d true (store_tasks d) d.

Definition tasks_get (d : IDBDatabase) (id : option json) : IDBRequest (option obj) * IDBDatabase :=
  request d (valid_key id) (find (keyed "id" id) (store_tasks d)) d.

Definition tasks_put (d : IDBDatabase) (task : obj) : IDBRequest unit * IDBDatabase :=
  request d (valid_key (task !! "id")) tt
    (with_store_tasks (store_put "id" task (store_tasks d)) d).

Definition tasks_delete (d : IDBDatabase) (id : option json) : IDBRequest unit * IDBDatabase :=
  request d (valid_key id) tt
    (with_store_tasks (List.filter (fun t => negb (keyed "id" id t)) (store_tasks d)) d).

Definition settings_get (d : IDBDatabase) (key : string) : IDBRequest (option obj) * IDBDatabase :=
  request d true (find (keyed "key" (Some (JStr key))) (store_settings d)) d.

Definition settings_put (d : IDBDatabase) (record : obj) : IDBRequest unit * IDBDatabase :=
  request d (valid_key (record !! "key")) tt
    (with_store_settings (store_put "key" record (store_settings d)) d).

Definition statistics_getAll (d : IDBDatabase) : IDBRequest (list obj) * IDBDatabase :=
  request d true (store_statistics d) d.

Definition statistics_put (d : IDBDatabase) (record : obj) : IDBRequest unit * IDBDatabase :=
  request d (valid_key (record !! "date")) tt
    (with_store_statistics (store_put "date" record (store_statistics d)) d).

(** [this.isIndexedDBAvailable && this.db]. *)
Definition indexed (w : World) : option IDBDatabase :=
  if isIndexedDBAvailable w then db w else None.

Definition set_TASKS (v : slot (list obj)) (ls : LocalStorage) : LocalStorage :=
  {| TASKS := v; SETTINGS := SETTINGS ls; STATISTICS := STATISTICS ls |}.

Definition set_SETTING (key : string) (v : slot json) (ls : LocalStorage) : LocalStorage :=
  {| TASKS := TASKS ls;
     SETTINGS := fun k => if String.eqb k key then v else SETTINGS ls k;
     STATISTICS := STATISTICS ls |}.

Definition set_STATISTICS (v : slot (list obj)) (ls : LocalStorage) : LocalStorage :=
  {| TASKS := TASKS ls; SETTINGS := SETTINGS ls; STATISTICS := v |}.

Definition getItem {A} (key : LocalStorage -> slot A) : M (slot A) :=
  gets (fun w => key (localStorage w)).

Definition setItem (set : LocalStorage -> LocalStorage) : M unit :=
  modify (fun w => with_localStorage (set (localStorage w)) w).

Definition new_Date_toISOString : M string := fun w =>
  (Normal (JSDate.toISOString (clock w (ticks w))), with_ticks (S (ticks w)) w).

Definition getAllTasks : M (list obj) :=
  async (try_catch
    (d ← gets indexed;
     match d with
     | Some d => mret (new_Promise (tasks_getAll d) (fun result => result))
     | None =>
         stored ← getItem TASKS;
         Value <$> lift (parse_or stored [])
     end)
    (fun _ => mret (Value []))).

Definition getTask (id : option json) : M (option json) :=
  async (try_catch
    (d ← gets indexed;
     match d with
     | Some d => mret (new_Promise (tasks_get d id) (fmap JObj))
     | None =>
         ts ← getAllTasks;
         mret (Value (JObj <$> find (has_key "id" id) ts))
     end)
    (fun _ => mret (Value (Some JNull)))).

Definition saveTask (task : obj) : M obj :=
  async (try_catch
    (d ← gets indexed;
     match d with
     | Some d => mret (new_Promise (tasks_put d task) (fun _ => task))
     | None =>
         ts ← getAllTasks;
         setItem (set_TASKS (Stored (put "id" task ts)));;
         mret (Value task)
     end)
    (fun error => throw error)).

Definition deleteTask (id : option json) : M bool :=
  async (try_catch
    (d ← gets indexed;
     match d with
     | Some d => mret (new_Promise (tasks_delete d id) (fun _ => true))
     | None =>
         ts ← getAllTasks;
         setItem (set_TASKS (Stored (List.filter (fun t => negb (has_key "id" id t)) ts)));;
         mret (Value true)
     end)
    (fun error => throw error)).

Definition setting_record (key : string) (value : json) (now : string) : obj :=
  <["key" := JStr key]> (<["value" := value]> (<["updatedAt" := JStr now]> ∅)).

Definition setSetting (key : string) (value : json) : M json :=
  async (try_catch
    (d ← gets indexed;
     match d with
     | Some d =>
         now ← new_Date_toISOString;
         mret (new_Promise (settings_put d (setting_record key value now)) (fun _ => value))
     | None =>
         setItem (set_SETTING key (Stored value));;
         mret (Value value)
     end)
    (fun error => throw error)).

(** [result ? result.value : defaultValue]. *)
Definition setting_value (result : option obj) (defaultValue : json) : option json :=
  match result with
  | Some r => r !! "value"
  | None => Some defaultValue
  end.

Definition getSetting (key : string) (defaultValue : json) : M (option json) :=
  async (try_catch
    (d ← gets indexed;
     match d with
     | Some d => mret (new_Promise (settings_get d key)
                         (fun result => setting_value result defaultValue))
     | None =>
         setting ← getItem (fun ls => SETTINGS ls key);
         (fun v => Value (Some v)) <$> lift (parse_or setting defaultValue)
     end)
    (fun _ => mret (Value (Some defaultValue)))).

Definition getStatistics : M (list obj) :=
  async (try_catch
    (d ← gets indexed;
     match d with
     | Some d => mret (new_Promise (statistics_getAll d) (fun result => result))
     | None =>
         stats ← getItem STATISTICS;
         Value <$> lift (parse_or stats [])
     end)
    (fun _ => mret (Value []))).

Definition statistic_record (date type data : json) (now : string) : obj :=
  <["date" := date]> (<["type" := type]> (<["data" := data]> (<["timestamp" := JStr now]> ∅))).

Definition same_statistic (date type : json) (s : obj) : bool :=
  strict_eq (s !! "date") (Some date) && strict_eq (s !! "type") (Some type).

Definition saveStatistic (date type data : json) : M obj :=
  async (try_catch
    (now ← new_Date_toISOString;
     let stat := statistic_record date type data now in
     d ← gets indexed;
     match d with
     | Some d => mret (new_Promise (statistics_put d stat) (fun _ => stat))
     | None =>
         stats ← getStatistics;
         setItem (set_STATISTICS (Stored
           match findIndex (same_statistic date type) stats with
           | Some i => <[i := stat]> stats
           | None => stats ++ [stat]
           end));;
         mret (Value stat)
     end)
    (fun error => throw error)).

End StorageManager.

(** ** StatisticsManager: the completion statistics *)

Module StatisticsManager.

Record StatisticsManager := {
  tasks : list obj;
  currentPeriod : string
}.

Record CompletionStats := {
  completed : Z;
  pending : Z;
  overdue : Z;
  total : Z
}.

(** [new Date(v).getTime()]; [None] is NaN (the Invalid Date).  A text
    goes to [Date.parse], an array or object as the text it converts to,
    any other value as a number. *)
Definition new_Date (h : JSDate.Host) (v : option json) : option Z :=
  match v with
  | None => None
  | Some JNull => Some 0
  | Some (JBool b) => Some (if b then 1 else 0)
  | Some (JNum n) => JSDate.TimeClip n
  | Some (JStr s) => JSDate.Date_parse h s
  | Some ((JArr _) as j) | Some ((JObj _) as j) =>
      JSDate.Date_parse h (json_to_string true j)
  end.

(** The local time [t] with its calendar date moved to the same day of
    another month or year, as [setMonth] and [setFullYear] do it: a day
    the month lacks rolls into the next one. *)
Definition moved (months years : Z) (t : Z) : Z :=
  let c := JSDate.civil_of_day (t / JSDate.ms_per_day) in
  JSDate.days_from_civil (JSDate.year c + years) (JSDate.month c + months) (JSDate.day c)
    * JSDate.ms_per_day + t mod JSDate.ms_per_day.

(** [startDate] of [getTasksForPeriod], from the instant [now] read by
    [new Date()]: [setDate(getDate() - 7)], [setMonth(getMonth() - 1)]
    and [setFullYear(getFullYear() - 1)] change the date of the local
    time and read the result back as an instant; [None] is the Invalid
    Date. *)
Definition startDate (h : JSDate.Host) (period : string) (now : Z) : option Z :=
  let t := JSDate.LocalTime h now in
  if String.eqb period "week" then
    JSDate.TimeClip (JSDate.UTC h (t - 7 * JSDate.ms_per_day))
  else if String.eqb period "month" then JSDate.TimeClip (JSDate.UTC h (moved (-1) 0 t))
  else if String.eqb period "year" then JSDate.TimeClip (JSDate.UTC h (moved 0 (-1) t))
  else Some 0.

(** [taskDate >= startDate]: false when either date is invalid. *)
Definition created_since (h : JSDate.Host) (start : option Z) (task : obj) : bool :=
  match start, new_Date h (task !! "createdAt") with
  | Some startDate, Some taskDate => startDate <=? taskDate
  | _, _ => false
  end.

Definition getTasksForPeriod (h : JSDate.Host) (sm : StatisticsManager) (now : Z)
  : list obj :=
  List.filter (created_since h (startDate h (currentPeriod sm) now)) (tasks sm).

(** [v < today] where [today] is a date text (never a numeric literal):
    two texts compare by code units, an array or object by its text, and
    any other value would compare as a number with NaN. *)
Definition before (v : option json) (today : string) : bool :=
  match v with
  | Some (JStr s) => JSDate.string_lt s today
  | Some ((JArr _) as j) | Some ((JObj _) as j) =>
      JSDate.string_lt (json_to_string true j) today
  | _ => false
  end.

Definition count (stats : CompletionStats) (today : string) (task : obj) : CompletionStats :=
  if strict_eq (task !! "status") (Some (JStr "completed")) then
    {| completed := completed stats + 1; pending := pending stats;
       overdue := overdue stats; total := total stats |}
  else if truthy (task !! "dueDate") && before (task !! "dueDate") today then
    {| completed := completed stats; pending := pending stats;
       overdue := overdue stats + 1; total := total stats |}
  else
    {| completed := completed stats; pending := pending stats + 1;
       overdue := overdue stats; total := total stats |}.

(** [getCompletionStats()]; [now] is the instant read by
    [getTasksForPeriod], [now'] the one read for [today]. *)
Definition getCompletionStats (h : JSDate.Host) (sm : StatisticsManager) (now now' : Z)
  : CompletionStats :=
  let periodTasks := getTasksForPeriod h sm now in
  let stats := {| completed := 0; pending := 0; overdue := 0;
                  total := Z.of_nat (length periodTasks) |} in
  let today := JSDate.split_T_head (JSDate.toISOString now') in
  fold_left (fun stats task => count stats today task) periodTasks stats.

(** The counters of one priority in [getPriorityData]. *)
Record PriorityCount := { active : Z; completed_count : Z }.

Record PriorityData := {
  high : PriorityCount;
  medium : PriorityCount;
  low : PriorityCount
}.

Definition no_priorities : PriorityData :=
  {| high := {| active := 0; completed_count := 0 |};
     medium := {| active := 0; completed_count := 0 |};
     low := {| active := 0; completed_count := 0 |} |}.

(** What [priorities[priority]] finds: one of the three counters, a member
    inherited from [Object.prototype], or nothing (undefined). *)
Inductive found : Type := High | Medium | Low | Inherited | Nothing.

Definition lookup_priority (key : string) : found :=
  if String.eqb key "high" then High
  else if String.eqb key "medium" then Medium
  else if String.eqb key "low" then Low
  else if inherited key then Inherited
  else Nothing.

(** [task.priority || 'medium'], as a property key. *)
Definition priority_key (task : obj) : string :=
  match task !! "priority" with
  | Some j => if truthy (Some j) then json_to_string true j else "medium"
  | None => "medium"
  end.

Definition bump (is_completed : bool) (c : PriorityCount) : PriorityCount :=
  if is_completed
  then {| active := active c; completed_count := completed_count c + 1 |}
  else {| active := active c + 1; completed_count := completed_count c |}.

(** One step of the [forEach] of [getPriorityData]; reading a counter of
    undefined throws. *)
Definition count_priority (p : PriorityData) (task : obj) : completion PriorityData :=
  let is_completed := strict_eq (task !! "status") (Some (JStr "completed")) in
  match lookup_priority (priority_key task) with
  | High => Normal {| high := bump is_completed (high p); medium := medium p; low := low p |}
  | Medium => Normal {| high := high p; medium := bump is_completed (medium p); low := low p |}
  | Low => Normal {| high := high p; medium := medium p; low := bump is_completed (low p) |}
  | Inherited => Normal p
  | Nothing => Thrown TypeError
  end.

Fixpoint count_priorities (p : PriorityData) (l : list obj) : completion PriorityData :=
  match l with
  | [] => Normal p
  | task :: l' =>
      match count_priority p task with
      | Normal p' => count_priorities p' l'
      | Thrown e => Thrown e
      end
  end.

(** [getPriorityData()]: the counters, or all zeros when counting threw. *)
Definition getPriorityData (h : JSDate.Host) (sm : StatisticsManager) (now : Z)
  : PriorityData :=
  match count_priorities no_priorities (getTasksForPeriod h sm now) with
  | Normal p => p
  | Thrown _ => no_priorities
  end.

End StatisticsManager.

(** ** Observations used to state the properties *)

Section Observations.
Import DatabaseStorageManager.

(** The result and the final state of running a method. *)
Definition eval {A} (m : M A) (w : World) : completion A := fst (m w).
Definition exec {A} (m : M A) (w : World) : World := snd (m w).

(** The records a collection slot holds, as the readers see them. *)
Definition records (s : slot (list obj)) : list obj :=
  match s with
  | Stored l => l
  | _ => []
  end.

Definition stored_tasks (w : World) : list obj := records (TASKS (localStorage w)).

Definition stored_settings (w : World) : obj :=
  match SETTINGS (localStorage w) with
  | Stored m => m
  | _ => ∅
  end.

(** The [fetch] answered with a success status and a JSON body. *)
Definition succeeds (o : fetch_outcome) : bool :=
  match o with
  | HttpResponse status (Some _) => response_ok status
  | _ => false
  end.

(** The outcome the next [fetch] will have. *)
Definition next_fetch (w : World) : fetch_outcome := network w (length (requests w)).

(** From the [n]-th coming [fetch] on, every [fetch] succeeds. *)
Definition settles_after (w : World) (n : nat) : Prop :=
  forall k, (length (requests w) + n <= k)%nat -> succeeds (network w k) = true.

(** The request that replays a queued operation. *)
Definition op_request (op : PendingOp) : Request :=
  {| url := endpoint op; init := options op |}.

(** A queued operation that reads: [fetch] issues a GET when the options
    name no method. *)
Definition is_read (op : PendingOp) : bool :=
  match method (options op) with
  | None => true
  | Some m => String.eqb m "GET"
  end.

Definition stored_statistics (w : World) : list obj := records (STATISTICS (localStorage w)).

(** The record collections of localStorage, the queue slot apart. *)
Definition collections (w : World) :=
  (TASKS (localStorage w), SETTINGS (localStorage w),
   STATISTICS (localStorage w), EXPENSES (localStorage w)).

(** The state once [fetch] has been called with an endpoint and options. *)
Definition sent (e : string) (o : RequestInit) (w : World) : World :=
  with_requests (requests w ++ [{| url := e; init := o |}]) w.

(** The remote API takes the next call: the manager is online and the
    [fetch] succeeds. *)
Definition remote_takes (w : World) : bool := isOnline w && succeeds (next_fetch w).

(** The first entry of the queue whose replay fails, were the entries
    replayed one after the other. *)
Definition first_failure (w : World) (queue : list PendingOp) (i : nat) : Prop :=
  (i < length queue)%nat
  /\ succeeds (network w (length (requests w) + i)) = false
  /\ forall j, (j < i)%nat -> succeeds (network w (length (requests w) + j)) = true.

(** A drain that stops at the first failing entry: the entries up to it
    are the only ones requested, and it stays stored with the entries
    behind it. *)
Definition halts_on_failure (fuel : nat) (w : World) : Prop :=
  forall queue i,
    loaded_queue w = Normal queue ->
    first_failure w queue i ->
    exists w',
      syncPendingOperations fuel w = Some w'
      /\ requests w' = requests w ++ (op_request <$> take (S i) queue)
      /\ PENDING_OPS (localStorage w') = Stored (drop i queue).

(** The record [saveTaskToLocalStorage] writes for [task]. *)
Definition written_record (task : obj) (w : World) : obj :=
  if truthy (task !! "id") then
    <["updatedAt" := JStr (JSDate.toISOString (clock w (ticks w)))]> task
  else
    <["updatedAt" := JStr (JSDate.toISOString (clock w (S (S (ticks w)))))]>
      (<["createdAt" := JStr (JSDate.toISOString (clock w (S (ticks w))))]>
         (<["id" := JStr ("temp_" +:+ pretty (clock w (ticks w)))]> task)).

(** The collection once [record] is saved for [task] over [l]. *)
Definition saved_over (task record : obj) (l : list obj) : list obj :=
  if truthy (task !! "id") then
    match findIndex (same_id (task !! "id")) l with
    | Some i => <[i := record]> l
    | None => l ++ [record]
    end
  else l ++ [record].

(** A calendar date the UTC calendar has, from 1970 on. *)
Definition valid (c : JSDate.civil) : Prop :=
  1 <= JSDate.month c <= 12
  /\ 1 <= JSDate.day c <= JSDate.days_in_month (JSDate.year c) (JSDate.month c)
  /\ 1970 <= JSDate.year c.

(** The text has no letter T. *)
Fixpoint no_T (s : string) : bool :=
  match s with
  | EmptyString => true
  | String c s' => negb (Ascii.eqb c "T"%char) && no_T s'
  end.

(** The instant seven calendar days before [now], at the same local
    time of day, in the time zone of the host. *)
Definition week_start (h : JSDate.Host) (now : Z) : Z :=
  JSDate.UTC h (JSDate.LocalTime h now - 7 * JSDate.ms_per_day).

(** A task of the week scenario: its status, its due date as the date
    text of the instant [due], and a creation date the host reads as an
    instant not before the start of the week that ends at [now]. *)
Definition seeded (h : JSDate.Host) (now : Z) (status : string) (due : Z) (task : obj)
  : Prop :=
  task !! "status" = Some (JStr status)
  /\ task !! "dueDate" = Some (JStr (JSDate.iso_date (JSDate.utc_date due)))
  /\ exists created,
       StatisticsManager.new_Date h (task !! "createdAt") = Some created
       /\ week_start h now <= created.

Definition stored_expenses (w : World) : list obj := records (EXPENSES (localStorage w)).

(** The values the stored records, tasks and expenses, have in a field. *)
Definition field_values (field : string) (w : World) : list json :=
  omap (fun r : obj => r !! field) (stored_tasks w ++ stored_expenses w).

(** The store after the document exported from [w] is imported into the
    cleared store. *)
Definition round_trip (w : World) : World :=
  let exported := exportDataFromLocalStorage w in
  match fst exported with
  | Normal doc => exec (importDataToLocalStorage doc) (exec clearLocalStorageData (snd exported))
  | Thrown _ => snd exported
  end.

(** The round trip gives back the same set of titles, categories and
    amounts. *)
Definition round_trip_reproduces (w : World) : Prop :=
  forall field, field ∈ ["title"; "category"; "amount"] ->
    forall v, v ∈ field_values field (round_trip w) <-> v ∈ field_values field w.

(** A manager constructed anew on the localStorage of [w]: the
    constructor takes [isOnline] from the browser, makes
    [pendingOperations] the empty array and reads no slot. *)
Definition restarted (online : bool) (w : World) : World :=
  with_isOnline online (with_pendingOperations [] w).

(** No two records of the collection have ids that [===] finds equal. *)
Definition distinct_ids (l : list obj) : Prop :=
  forall i j x y,
    l !! i = Some x -> l !! j = Some y ->
    strict_eq (x !! "id") (y !! "id") = true -> i = j.

(** The operation names a method other than GET, or none. *)
Definition not_GET (op : PendingOp) : Prop := method (options op) <> Some "GET".

(** *** Sample states *)

Definition sample_clock (k : nat) : Z := Z.of_nat k + 1700000000000.

Definition empty_storage : LocalStorage :=
  {| TASKS := Absent; SETTINGS := Absent; STATISTICS := Absent;
     EXPENSES := Absent; PENDING_OPS := Absent |}.

(** A manager whose queue slot holds [q], before any call. *)
Definition sample_world (net : nat -> fetch_outcome) (online : bool) (q : slot (list PendingOp))
  : World :=
  {| isOnline := online; pendingOperations := [];
     localStorage := set_PENDING_OPS q empty_storage;
     network := net; requests := []; clock := sample_clock; ticks := 0 |}.

Definition opA : PendingOp :=
  {| endpoint := "/tasks";
     options := {| method := Some "POST"; headers := None;
                   body := Some (JObj {[ "title" := JStr "A" ]}) |};
     timestamp := 1 |}.

Definition opB : PendingOp :=
  {| endpoint := "/tasks/7";
     options := {| method := Some "DELETE"; headers := None; body := None |};
     timestamp := 2 |}.

(** The first [fetch] is answered 500, the later ones 200. *)
Definition net_fail_first (k : nat) : fetch_outcome :=
  match k with
  | O => HttpResponse 500 None
  | S _ => HttpResponse 200 (Some (JObj ∅))
  end.

Definition net_down (k : nat) : fetch_outcome := NetworkFailure.

Definition sample_task : obj :=
  {[ "title" := JStr "Write report"; "category" := JStr "work" ]}.

Definition sample_expense : obj :=
  {[ "id" := JNum 3; "title" := JStr "Lunch"; "category" := JStr "food";
     "amount" := JNum 12 ]}.

(** An offline manager that holds one task and one expense. *)
Definition sample_store : World :=
  with_localStorage
    (set_EXPENSES (Stored [sample_expense])
       (set_TASKS (Stored [<["id" := JNum 7]> sample_task]) empty_storage))
    (sample_world net_down false Absent).

End Observations.

(** A [StorageManager] on the localStorage fallback, and one on an
    IndexedDB database whose requests fail. *)
Definition sample_local_manager : StorageManager.World :=
  {| StorageManager.isIndexedDBAvailable := false; StorageManager.db := None;
     StorageManager.localStorage :=
       {| StorageManager.TASKS := Stored [ {[ "id" := JNum 7; "title" := JStr "Call" ]} ];
          StorageManager.SETTINGS := fun _ => Absent; StorageManager.STATISTICS := Absent |};
     StorageManager.clock := sample_clock; StorageManager.ticks := 0 |}.

Definition broken_database : StorageManager.IDBDatabase :=
  {| StorageManager.store_tasks := []; StorageManager.store_settings := []; StorageManager.store_statistics := [];
     StorageManager.broken := Some "UnknownError" |}.




Definition sample_indexed_manager : StorageManager.World :=
  {| StorageManager.isIndexedDBAvailable := true; StorageManager.db := Some broken_database;
     StorageManager.localStorage :=
       {| StorageManager.TASKS := Absent; StorageManager.SETTINGS := fun _ => Absent; StorageManager.STATISTICS := Absent |};
     StorageManager.clock := sample_clock; StorageManager.ticks := 0 |}.

(** A host in UTC, and one on a clock that moved forward by an hour at
    2024-03-10T07:00Z, from five to four hours behind UTC; a local time
    the move skipped is read with the earlier offset. *)
Definition utc_host : JSDate.Host := JSDate.standard_host (fun _ _ => 0).

Definition spring_forward (t : Z) (isUTC : bool) : Z :=
  let switch := 1710054000000 in
  if isUTC then (if t <? switch then -18000000 else -14400000)
  else if t + 14400000 <? switch then -18000000 else -14400000.

Definition eastern_host : JSDate.Host := JSDate.standard_host spring_forward.

(** The three tasks of the week scenario on 2023-11-14. *)
Definition week_now : Z := 1700000000000.

Definition task_today : obj :=
  {[ "status" := JStr "pending"; "dueDate" := JStr "2023-11-14";
     "createdAt" := JStr "2023-11-13T09:00:00.000Z" ]}.

Definition task_yesterday : obj :=
  {[ "status" := JStr "pending"; "dueDate" := JStr "2023-11-13";
     "createdAt" := JStr "2023-11-10T09:00:00.000Z" ]}.

Definition task_next_week : obj :=
  {[ "status" := JStr "completed"; "dueDate" := JStr "2023-11-21";
     "createdAt" := JStr "2023-11-12T18:30:00.000Z" ]}.

(** ** Observations on sequences of calls *)

Section CallSequences.
Import DatabaseStorageManager.

(** The state after queueing a list of operations, one after the other. *)
Fixpoint enqueue_all (ops : list (string * RequestInit)) (w : World) : World :=
  match ops with
  | [] => w
  | (e, o) :: ops' => enqueue_all ops' (exec (addPendingOperation e o) w)
  end.

Definition as_request (eo : string * RequestInit) : Request :=
  {| url := eo.1; init := eo.2 |}.

(** The queue as its slot of localStorage holds it. *)
Definition stored_queue (w : World) : list PendingOp :=
  match PENDING_OPS (localStorage w) with
  | Stored q => q
  | _ => []
  end.

(** No operation of the queue, in memory or stored, names the method GET. *)
Definition no_GET_queued (w : World) : Prop :=
  Forall not_GET (pendingOperations w) /\ Forall not_GET (stored_queue w).

(** A call of the facade, or an event. *)
Inductive call : Type :=
  | SaveTask (task : obj)
  | GetAllTasks
  | GetTask (id : option json)
  | DeleteTask (id : option json)
  | SetSetting (key : string) (value : json)
  | GetSetting (key : string) (defaultValue : json)
  | SaveStatistic (date type data : json)
  | GetStatistics
  | ExportData
  | ImportData (data : Document)
  | ClearAll
  | SaveExpense (expense : obj)
  | DeleteExpense (id : option json)
  | SaveAll
  | Init
  | GoOnline
  | GoOffline.

(** The state after a call; [None] when the drain it starts needs more
    than [fuel] steps. *)
Definition run_call (fuel : nat) (c : call) (w : World) : option World :=
  match c with
  | SaveTask task => Some (exec (saveTask task) w)
  | GetAllTasks => Some (exec getAllTasks w)
  | GetTask id => Some (exec (getTask id) w)
  | DeleteTask id => Some (exec (deleteTask id) w)
  | SetSetting key value => Some (exec (setSetting key value) w)
  | GetSetting key defaultValue => Some (exec (getSetting key defaultValue) w)
  | SaveStatistic date type data => Some (exec (saveStatistic date type data) w)
  | GetStatistics => Some (exec getStatistics w)
  | ExportData => Some (exec exportData w)
  | ImportData data => Some (exec (importData data) w)
  | ClearAll => Some (exec clearAll w)
  | SaveExpense expense => Some (exec (saveExpense expense) w)
  | DeleteExpense id => Some (exec (deleteExpense id) w)
  | SaveAll => saveAll fuel w
  | Init => init' fuel w
  | GoOnline => on_online fuel w
  | GoOffline => Some (on_offline w)
  end.

Fixpoint run_calls (fuel : nat) (cs : list call) (w : World) : option World :=
  match cs with
  | [] => Some w
  | c :: cs' =>
      match run_call fuel c w with
      | Some w' => run_calls fuel cs' w'
      | None => None
      end
  end.

(** A call of the facade that goes through [makeApiRequest] (the events
    and the flushes of the queue are the other calls). *)
Definition facade_call (c : call) : bool :=
  match c with
  | SaveAll | Init | GoOnline | GoOffline => false
  | _ => true
  end.

(** The computation keeps the queue free of GET operations. *)
Definition preserves {A} (m : M A) : Prop :=
  forall w, no_GET_queued w -> no_GET_queued (snd (m w)).

(** The computation calls [fetch] nowhere and keeps the connectivity flag. *)
Definition silent {A} (m : M A) : Prop :=
  forall w, requests (snd (m w)) = requests w /\ isOnline (snd (m w)) = isOnline w.

(** The computation calls [fetch] exactly once when it starts online, and
    not at all when it starts offline. *)
Definition one_fetch_when_online {A} (m : M A) : Prop :=
  forall w,
    length (requests (snd (m w))) =
    (length (requests w) + (if isOnline w then 1 else 0))%nat
    /\ isOnline (snd (m w)) = isOnline w.

(** The computation calls [fetch] exactly once. *)
Definition fetches_once {A} (m : M A) : Prop :=
  forall w,
    length (requests (snd (m w))) = S (length (requests w))
    /\ isOnline (snd (m w)) = isOnline w.

(** The computation returns normally in every state. *)
Definition never_throws {A} (m : M A) : Prop := forall w, exists a, fst (m w) = Normal a.

(** The health check found the remote API. *)
Definition healthy (o : fetch_outcome) : bool :=
  match o with
  | HttpResponse status _ => response_ok status
  | NetworkFailure => false
  end.

(** [{ method: 'DELETE' }]. *)
Definition delete_options : RequestInit :=
  {| method := Some "DELETE"; headers := None; body := None |}.

(** A remote API that answers every call, and a clock that stands still. *)
Definition net_up (k : nat) : fetch_outcome := HttpResponse 200 (Some (JObj ∅)).

Definition frozen_clock (k : nat) : Z := 1700000000000.

End CallSequences.

(** The value a stored setting of [StorageManager] reads as. *)
Definition setting_or (s : slot json) (dflt : json) : json :=
  match s with
  | Stored v => v
  | _ => dflt
  end.

(** A [StorageManager] on the localStorage fallback whose slots hold text
    that is not JSON. *)
Definition corrupt_local_manager : StorageManager.World :=
  {| StorageManager.isIndexedDBAvailable := false; StorageManager.db := None;
     StorageManager.localStorage :=
       {| StorageManager.TASKS := Corrupt "[{oops";
          StorageManager.SETTINGS := fun _ => Corrupt "{";
          StorageManager.STATISTICS := Absent |};
     StorageManager.clock := sample_clock; StorageManager.ticks := 0 |}.

(** ** Observations on the priority distribution *)

Section PriorityObservations.
Import StatisticsManager.

(** The counter a task goes to is one of the three. *)
Definition known_priority (task : obj) : bool :=
  match lookup_priority (priority_key task) with
  | High | Medium | Low => true
  | _ => false
  end.

Definition counted (p : PriorityData) : Z :=
  active (high p) + completed_count (high p) + active (medium p)
  + completed_count (medium p) + active (low p) + completed_count (low p).

Definition counted_completed (p : PriorityData) : Z :=
  completed_count (high p) + completed_count (medium p) + completed_count (low p).

Definition is_completed (task : obj) : bool :=
  strict_eq (task !! "status") (Some (JStr "completed")).

End PriorityObservations.

(** * Properties *)

Import DatabaseStorageManager.

(** ** The pending-operation queue and the facade of DatabaseStorageManager *)

Ltac run :=
  cbv [eval exec mbind mret fmap M_bind M_ret M_fmap try_catch gets modify lift throw
       setItem getItem Date_now new_Date_toISOString].

Lemma getTasksFromLocalStorage_run w :
  getTasksFromLocalStorage w = (Normal (stored_tasks w), w).
Proof.
  unfold getTasksFromLocalStorage, stored_tasks, parse_or. run.
  destruct (TASKS (localStorage w)) as [|l|s]; simpl; try reflexivity.
  destruct (String.eqb s ""); reflexivity.
Qed.

Lemma addPendingOperation_run e o w :
  addPendingOperation e o w =
  (Normal tt,
   let q := pendingOperations w ++ [{| endpoint := e; options := o; timestamp := clock w (ticks w) |}] in
   with_localStorage (set_PENDING_OPS (Stored q) (localStorage w))
     (with_pendingOperations q (with_ticks (S (ticks w)) w))).
Proof. reflexivity. Qed.

Lemma fetch_json_run e o w :
  exists r, fetch_json e o w = (r, with_requests (requests w ++ [{| url := e; init := o |}]) w)
    /\ (succeeds (next_fetch w) = true <-> exists j, r = Normal j).
Proof.
  unfold fetch_json, succeeds, next_fetch.
  destruct (network w (length (requests w))) as [|st [j|]]; simpl.
  - eexists; split; [reflexivity|]. split; [discriminate|]. intros [j H]; discriminate.
  - destruct (response_ok st); eexists; (split; [reflexivity|]); split; eauto; try discriminate.
    intros [j' H]; discriminate.
  - destruct (response_ok st); eexists; (split; [reflexivity|]); split; try discriminate;
    intros [j' H]; discriminate.
Qed.

Lemma makeApiRequest_ok e o w :
  succeeds (next_fetch w) = true ->
  exists j, makeApiRequest e o w = (Normal j, sent e o w).
Proof.
  intros H. destruct (fetch_json_run e o w) as (r & Hr & Hs).
  destruct (proj1 Hs H) as [j Hj]. subst r. exists j. unfold makeApiRequest. run. rewrite Hr. reflexivity.
Qed.

Lemma makeApiRequest_fail e o w :
  succeeds (next_fetch w) = false ->
  exists err, makeApiRequest e o w =
    (Thrown err,
     if isOnline w && method_not_GET o
     then exec (addPendingOperation e o) (sent e o w)
     else sent e o w).
Proof.
  intros H. destruct (fetch_json_run e o w) as (r & Hr & Hs).
  destruct r as [j|err].
  - rewrite (proj2 Hs) in H; [discriminate|eauto].
  - exists err. unfold makeApiRequest. run. rewrite Hr. simpl.
    destruct (isOnline w && method_not_GET o); reflexivity.
Qed.

(** What a call of [makeApiRequest] leaves behind, whatever its outcome. *)
Lemma makeApiRequest_effect e o w :
  let w' := snd (makeApiRequest e o w) in
  requests w' = requests w ++ [{| url := e; init := o |}]
  /\ network w' = network w
  /\ isOnline w' = isOnline w
  /\ (exists extra, pendingOperations w' = pendingOperations w ++ extra
        /\ (succeeds (next_fetch w) = true -> extra = [])
        /\ (length extra <= 1)%nat).
Proof.
  destruct (succeeds (next_fetch w)) eqn:Hs.
  - destruct (makeApiRequest_ok e o w Hs) as [j ->]. simpl.
    repeat split; auto. exists []. rewrite app_nil_r. auto.
  - destruct (makeApiRequest_fail e o w Hs) as [err ->]. simpl.
    destruct (isOnline w && method_not_GET o); simpl.
    + repeat split; auto. eexists; split; [reflexivity|]. split; [discriminate|simpl; lia].
    + repeat split; auto. exists []. rewrite app_nil_r. split; [reflexivity|]. split; [auto|simpl; lia].
Qed.

Lemma replay_requests fuel : forall i w w',
  replay fuel i w = Some w' ->
  exists extra,
    requests w' = requests w ++ (op_request <$> drop i (pendingOperations w)) ++ extra.
Proof.
  induction fuel as [|fuel IH]; intros i w w' H; simpl in H; [discriminate|].
  destruct (pendingOperations w !! i) as [op|] eqn:Hop.
  - destruct (makeApiRequest (endpoint op) (options op) w) as [r w1] eqn:Hm.
    pose proof (makeApiRequest_effect (endpoint op) (options op) w) as Heff.
    rewrite Hm in Heff. simpl in Heff.
    destruct Heff as (Hreq & _ & _ & extra & Hq & _ & _).
    apply IH in H as [extra' H]. rewrite H, Hreq, Hq.
    rewrite (drop_S _ _ _ Hop).
    assert (Hi : (S i <= length (pendingOperations w))%nat)
      by (apply lookup_lt_Some in Hop; lia).
    rewrite drop_app_le by exact Hi.
    exists ((op_request <$> extra) ++ extra').
    rewrite fmap_cons, fmap_app. unfold op_request at 2.
    rewrite <- !app_assoc. reflexivity.
  - inversion H; subst. exists []. rewrite drop_ge by (apply lookup_ge_None in Hop; lia).
    simpl. rewrite app_nil_r. reflexivity.
Qed.

Lemma settles_after_step e o w n :
  succeeds (next_fetch w) = true ->
  settles_after w n -> settles_after (snd (makeApiRequest e o w)) n.
Proof.
  intros Hs H k Hk.
  destruct (makeApiRequest_effect e o w) as (Hreq & Hnet & _).
  rewrite Hnet. apply H. rewrite Hreq, length_app in Hk. simpl in Hk. lia.
Qed.

Lemma settles_after_fail e o w n :
  succeeds (next_fetch w) = false ->
  settles_after w n ->
  exists m, n = S m /\ settles_after (snd (makeApiRequest e o w)) m.
Proof.
  intros Hs H. destruct n as [|m].
  - specialize (H (length (requests w))). unfold next_fetch in Hs.
    rewrite H in Hs by lia. discriminate.
  - exists m. split; [reflexivity|]. intros k Hk.
    destruct (makeApiRequest_effect e o w) as (Hreq & Hnet & _).
    rewrite Hnet. apply H. rewrite Hreq, length_app in Hk. simpl in Hk. lia.
Qed.

Lemma replay_terminates fuel : forall i w n,
  settles_after w n ->
  (length (pendingOperations w) - i + n < fuel)%nat ->
  exists w', replay fuel i w = Some w'.
Proof.
  induction fuel as [|fuel IH]; intros i w n Hn Hf; [lia|]. simpl.
  destruct (pendingOperations w !! i) as [op|] eqn:Hop; [|eauto].
  apply lookup_lt_Some in Hop.
  pose proof (makeApiRequest_effect (endpoint op) (options op) w) as Heff.
  destruct (makeApiRequest (endpoint op) (options op) w) as [r w1] eqn:Hm.
  simpl in Heff. destruct Heff as (_ & _ & _ & extra & Hq & Hok & Hlen).
  destruct (succeeds (next_fetch w)) eqn:Hs.
  - apply (IH (S i) w1 n).
    + pose proof (settles_after_step (endpoint op) (options op) w n Hs Hn) as H.
      rewrite Hm in H. exact H.
    + rewrite Hq, (Hok eq_refl), app_nil_r. lia.
  - destruct (settles_after_fail (endpoint op) (options op) w n Hs Hn) as (m & -> & H).
    rewrite Hm in H. apply (IH (S i) w1 m H).
    rewrite Hq, length_app. lia.
Qed.

Lemma makeApiRequest_collections e o w :
  collections (snd (makeApiRequest e o w)) = collections w.
Proof.
  destruct (succeeds (next_fetch w)) eqn:Hs.
  - destruct (makeApiRequest_ok e o w Hs) as [j ->]. reflexivity.
  - destruct (makeApiRequest_fail e o w Hs) as [err ->]. simpl.
    destruct (isOnline w && method_not_GET o); reflexivity.
Qed.

Lemma replay_collections fuel : forall i w w',
  replay fuel i w = Some w' -> collections w' = collections w.
Proof.
  induction fuel as [|fuel IH]; intros i w w' H; simpl in H; [discriminate|].
  destruct (pendingOperations w !! i) as [op|]; [|congruence].
  pose proof (makeApiRequest_collections (endpoint op) (options op) w) as Hc.
  destruct (makeApiRequest (endpoint op) (options op) w) as [r w1].
  apply IH in H. simpl in Hc. congruence.
Qed.

(** The whole drain, when the failures are bounded. *)
Lemma syncPendingOperations_run (w : World) (n : nat) (queue : list PendingOp) :
  loaded_queue w = Normal queue ->
  queue <> [] ->
  settles_after w n ->
  exists w' extra,
    syncPendingOperations (S (length queue + n)) w = Some w'
    /\ requests w' = requests w ++ (op_request <$> queue) ++ extra
    /\ pendingOperations w' = []
    /\ PENDING_OPS (localStorage w') = Absent
    /\ collections w' = collections w.
Proof.
  intros Hq Hne Hn. unfold syncPendingOperations. rewrite Hq.
  destruct queue as [|op queue]; [congruence|].
  replace (length (op :: queue) =? 0)%nat with false by reflexivity.
  set (w1 := with_pendingOperations (op :: queue) w).
  destruct (replay_terminates (S (length (op :: queue) + n)) 0 w1 n) as [w2 H2].
  - exact Hn.
  - simpl. lia.
  - rewrite H2. destruct (replay_requests _ _ _ _ H2) as [extra Hx].
    apply replay_collections in H2.
    eexists; exists extra. split; [reflexivity|]. simpl.
    repeat split; try assumption.
Qed.

(** C1: [syncPendingOperations] replays the queue in insertion order and,
    when an entry fails, goes on with the entries behind it: every entry of
    the queue it loaded is requested, in order, then come the retries of
    the failed entries that were queued again; at the end of the pass the
    queue is empty in memory and its slot is removed, and the record
    collections are untouched. *)
Theorem syncPendingOperations_replays_every_entry
    (w : World) (n : nat) (queue : list PendingOp) :
  loaded_queue w = Normal queue ->
  queue <> [] ->
  settles_after w n ->
  exists w' extra,
    syncPendingOperations (S (length queue + n)) w = Some w'
    /\ requests w' = requests w ++ (op_request <$> queue) ++ extra
    /\ pendingOperations w' = []
    /\ PENDING_OPS (localStorage w') = Absent
    /\ collections w' = collections w.
Proof. exact (syncPendingOperations_run w n queue). Qed.

Lemma syncPendingOperations_replays_every_entry_witness :
  exists w' extra,
    syncPendingOperations (S (length [opA; opB] + 1))
      (sample_world net_fail_first true (Stored [opA; opB])) = Some w'
    /\ requests w' =
       requests (sample_world net_fail_first true (Stored [opA; opB]))
       ++ (op_request <$> [opA; opB]) ++ extra
    /\ pendingOperations w' = []
    /\ PENDING_OPS (localStorage w') = Absent
    /\ collections w' = collections (sample_world net_fail_first true (Stored [opA; opB])).
Proof.
  apply (syncPendingOperations_replays_every_entry
           (sample_world net_fail_first true (Stored [opA; opB])) 1 [opA; opB]).
  - reflexivity.
  - discriminate.
  - intros k Hk. destruct k as [|k]; [simpl in Hk; lia | reflexivity].
Defined.

(** The run behind the counterexample: the first entry fails, the second
    is requested all the same and succeeds, the first is queued again and
    retried; nothing stays in the queue. *)
Example syncPendingOperations_sample_run :
  syncPendingOperations 10 (sample_world net_fail_first true (Stored [opA; opB]))
  = Some (with_ticks 1
            (with_requests [op_request opA; op_request opB; op_request opA]
               (sample_world net_fail_first true Absent))).
Proof. vm_compute. reflexivity. Qed.

(** A drain while [isOnline] is false: the failed entry is not queued
    again and is lost when the queue is cleared. *)
Example syncPendingOperations_offline_run :
  syncPendingOperations 10 (sample_world net_fail_first false (Stored [opA; opB]))
  = Some (with_requests [op_request opA; op_request opB]
            (sample_world net_fail_first false Absent)).
Proof. vm_compute. reflexivity. Qed.

(** C1, as stated, fails: with a queue of two entries whose first replay
    is answered 500, the drain does not stop at the failing entry. *)
Lemma syncPendingOperations_continues_past_failure :
  ~ halts_on_failure 10 (sample_world net_fail_first true (Stored [opA; opB])).
Proof.
  intros H. destruct (H [opA; opB] 0%nat) as (w' & Hs & Hr & Hp).
  - reflexivity.
  - split; [simpl; lia|]. split; [reflexivity|]. intros j Hj; lia.
  - vm_compute in Hs. inversion Hs; subst w'. simpl in Hp. discriminate.
Qed.

(** [addPendingOperation] puts the operation behind the entries of the
    queue in memory, which keep their order, and writes that queue to its
    slot, over what the slot held. *)
Lemma addPendingOperation_appends_and_persists (w : World) (e : string) (o : RequestInit) :
  let op := {| endpoint := e; options := o; timestamp := clock w (ticks w) |} in
  let w' := exec (addPendingOperation e o) w in
  eval (addPendingOperation e o) w = Normal tt
  /\ pendingOperations w' = pendingOperations w ++ [op]
  /\ PENDING_OPS (localStorage w') = Stored (pendingOperations w')
  /\ (forall q, loaded_queue (with_pendingOperations q w') = Normal (pendingOperations w ++ [op]))
  /\ collections w' = collections w.
Proof.
  unfold eval, exec. rewrite addPendingOperation_run. simpl.
  repeat split; reflexivity.
Qed.

(** C8: an operation is queued and stored, the manager is constructed
    anew on that storage, and another operation is queued before any
    drain has loaded the slot: the slot then holds the second operation
    alone.  The operations stored before the restart, the first one
    among them, are no longer in the queue, in memory or stored, and a
    drain sends the second operation only. *)
Theorem addPendingOperation_after_restart_drops_the_stored_queue
    (w : World) (online : bool) (e e' : string) (o o' : RequestInit) :
  let op := {| endpoint := e; options := o; timestamp := clock w (ticks w) |} in
  let w1 := exec (addPendingOperation e o) w in
  let w2 := exec (addPendingOperation e' o') (restarted online w1) in
  let op' := {| endpoint := e'; options := o'; timestamp := clock w (S (ticks w)) |} in
  PENDING_OPS (localStorage w1) = Stored (pendingOperations w ++ [op])
  /\ loaded_queue (restarted online w1) = Normal (pendingOperations w ++ [op])
  /\ pendingOperations w2 = [op']
  /\ PENDING_OPS (localStorage w2) = Stored [op']
  /\ loaded_queue w2 = Normal [op']
  /\ (succeeds (next_fetch w) = true ->
      exists w3, syncPendingOperations 2 w2 = Some w3
                 /\ requests w3 = requests w ++ [op_request op']).
Proof.
  unfold exec, restarted. rewrite !addPendingOperation_run. cbn [snd]. cbv zeta.
  split; [reflexivity|]. split; [reflexivity|]. split; [reflexivity|].
  split; [reflexivity|]. split; [reflexivity|].
  intros Hs. unfold syncPendingOperations, loaded_queue. simpl.
  match goal with |- context [makeApiRequest e' o' ?v] => set (w2 := v) end.
  assert (Hs2 : succeeds (next_fetch w2) = true) by exact Hs.
  destruct (makeApiRequest_ok e' o' w2 Hs2) as [j Hj]. rewrite Hj. simpl.
  eexists. split; reflexivity.
Qed.

(** The stored operation [opA] is lost when [opB] is queued after a
    restart. *)
Example addPendingOperation_after_restart_sample :
  let w := restarted false (sample_world net_up true (Stored [opA])) in
  PENDING_OPS (localStorage (exec (addPendingOperation (endpoint opB) (options opB)) w))
  = Stored [{| endpoint := endpoint opB; options := options opB;
               timestamp := 1700000000000 |}].
Proof. vm_compute. reflexivity. Qed.

Lemma saveTaskToLocalStorage_run task w :
  saveTaskToLocalStorage task w =
  (Normal (if truthy (task !! "id") then task else written_record task w),
   with_localStorage
     (set_TASKS (Stored (saved_over task (written_record task w) (stored_tasks w)))
        (localStorage w))
     (with_ticks (if truthy (task !! "id") then S (ticks w) else S (S (S (ticks w)))) w)).
Proof.
  unfold saveTaskToLocalStorage, written_record, saved_over.
  unfold mbind at 1, M_bind at 1. rewrite getTasksFromLocalStorage_run.
  destruct (truthy (task !! "id")).
  - destruct (findIndex _ _); reflexivity.
  - reflexivity.
Qed.

Lemma findIndex_Some {A} (p : A -> bool) l i :
  findIndex p l = Some i ->
  (exists x, l !! i = Some x /\ p x = true)
  /\ forall j y, (j < i)%nat -> l !! j = Some y -> p y = false.
Proof.
  revert i. induction l as [|a l IH]; intros i H; simpl in H; [discriminate|].
  destruct (p a) eqn:Hp.
  - inversion H; subst. split; [eauto|]. intros; lia.
  - destruct (findIndex p l) as [k|] eqn:Hk; [|discriminate]. simpl in H.
    inversion H; subst. destruct (IH k eq_refl) as [Hx Hj]. split; [exact Hx|].
    intros [|j] y Hlt Hy; simpl in Hy; [congruence|]. apply (Hj j); [lia|exact Hy].
Qed.

Lemma findIndex_None {A} (p : A -> bool) l :
  findIndex p l = None -> forall x, x ∈ l -> p x = false.
Proof.
  induction l as [|a l IH]; intros H x Hx; simpl in H.
  - inversion Hx.
  - destruct (p a) eqn:Hp; [discriminate|].
    destruct (findIndex p l); [discriminate|].
    apply elem_of_cons in Hx as [->|Hx]; auto.
Qed.

Lemma saved_over_elem task record l : record ∈ saved_over task record l.
Proof.
  unfold saved_over. destruct (truthy _); [destruct (findIndex _ _) as [i|] eqn:Hi|].
  - apply findIndex_Some in Hi as [(x & Hx & _) _].
    apply list_elem_of_lookup. exists i. apply list_lookup_insert_eq.
    eapply lookup_lt_Some; eauto.
  - apply elem_of_app; right; apply list_elem_of_singleton; reflexivity.
  - apply elem_of_app; right; apply list_elem_of_singleton; reflexivity.
Qed.


(** C2: a read is queued.  When the manager is online and the [fetch] of
    [getAllTasks] fails, the call, which names no method, passes the test
    [options.method !== 'GET'] and is put on the queue and stored. *)
Theorem getAllTasks_failure_enqueues_a_read (w : World) :
  isOnline w = true ->
  succeeds (next_fetch w) = false ->
  let op := {| endpoint := "/tasks"; options := no_options; timestamp := clock w (ticks w) |} in
  let w' := exec getAllTasks w in
  pendingOperations w' = pendingOperations w ++ [op]
  /\ PENDING_OPS (localStorage w') = Stored (pendingOperations w ++ [op])
  /\ is_read op = true.
Proof.
  intros Hon Hf. unfold getAllTasks. run. rewrite Hon.
  destruct (makeApiRequest_fail "/tasks" no_options w Hf) as [err ->].
  rewrite Hon. simpl. rewrite getTasksFromLocalStorage_run. simpl. auto.
Qed.

(** C3: [saveTask] while offline writes the task to localStorage and
    leaves the queue as it was, in memory and in its slot; nothing is
    requested. *)
Theorem saveTask_offline_is_not_queued (w : World) (task : obj) :
  isOnline w = false ->
  let w' := exec (saveTask task) w in
  written_record task w ∈ stored_tasks w'
  /\ pendingOperations w' = pendingOperations w
  /\ PENDING_OPS (localStorage w') = PENDING_OPS (localStorage w)
  /\ requests w' = requests w.
Proof.
  intros Hoff. unfold saveTask. run. rewrite Hoff.
  rewrite saveTaskToLocalStorage_run. simpl.
  split; [apply saved_over_elem|auto].
Qed.

Lemma saveExpense_offline_is_queued (w : World) (expense : obj) :
  isOnline w = false ->
  exists t, 
  pendingOperations (exec (saveExpense expense) w) =
  pendingOperations w ++
    [{| endpoint := expense_endpoint expense; options := expense_options expense;
        timestamp := t |}].
Proof.
  intros Hoff. unfold saveExpense. run. rewrite Hoff.
  destruct (saveExpenseToLocalStorage expense w) as [[e|e] w1] eqn:Hs.
  - simpl. eexists. 
    assert (pendingOperations w1 = pendingOperations w) as <-.
    { revert Hs. unfold saveExpenseToLocalStorage, getExpensesFromLocalStorage. run.
      destruct (parse_or _ _); destruct (truthy _); try destruct (findIndex _ _);
        intros H; inversion H; reflexivity. }
    reflexivity.
  - exfalso. revert Hs. unfold saveExpenseToLocalStorage, getExpensesFromLocalStorage. run.
    destruct (parse_or _ _); destruct (truthy _); try destruct (findIndex _ _); discriminate.
Qed.







Lemma getSettingsFromLocalStorage_run w :
  getSettingsFromLocalStorage w = (Normal (stored_settings w), w).
Proof.
  unfold getSettingsFromLocalStorage, stored_settings, parse_or. run.
  destruct (SETTINGS (localStorage w)) as [|l|s]; simpl; try reflexivity.
  destruct (String.eqb s ""); reflexivity.
Qed.

Lemma getStatisticsFromLocalStorage_run w :
  getStatisticsFromLocalStorage w = (Normal (stored_statistics w), w).
Proof.
  unfold getStatisticsFromLocalStorage, stored_statistics, parse_or. run.
  destruct (STATISTICS (localStorage w)) as [|l|s]; simpl; try reflexivity.
  destruct (String.eqb s ""); reflexivity.
Qed.

Lemma exportDataFromLocalStorage_run w :
  exportDataFromLocalStorage w =
  (Normal {| version := Some "1.0";
             exportDate := Some (JSDate.toISOString (clock w (ticks w)));
             tasks := Some (stored_tasks w);
             settings := Some (stored_settings w);
             statistics := Some (stored_statistics w) |},
   with_ticks (S (ticks w)) w).
Proof.
  unfold exportDataFromLocalStorage. run.
  rewrite getTasksFromLocalStorage_run, getSettingsFromLocalStorage_run,
    getStatisticsFromLocalStorage_run. reflexivity.
Qed.

(** C5: the export document carries version 1.0, the export date, and the
    tasks, settings and statistics as the readers return them; importing
    it into the cleared store gives back the same tasks, settings and
    statistics, hence the same values of every field of the tasks, ids
    included.  The expenses, which are the records with an amount, and
    the stored queue are not in the document: after the clear and the
    import the store has none. *)
Theorem export_then_import_round_trip (w : World) :
  exists doc,
    eval exportDataFromLocalStorage w = Normal doc
    /\ version doc = Some "1.0"
    /\ exportDate doc = Some (JSDate.toISOString (clock w (ticks w)))
    /\ tasks doc = Some (stored_tasks w)
    /\ settings doc = Some (stored_settings w)
    /\ statistics doc = Some (stored_statistics w)
    /\ let cleared := exec clearLocalStorageData (exec exportDataFromLocalStorage w) in
       let w' := exec (importDataToLocalStorage doc) cleared in
       eval (importDataToLocalStorage doc) cleared = Normal tt
       /\ w' = round_trip w
       /\ eval getTasksFromLocalStorage w' = eval getTasksFromLocalStorage w
       /\ eval getSettingsFromLocalStorage w' = eval getSettingsFromLocalStorage w
       /\ eval getStatisticsFromLocalStorage w' = eval getStatisticsFromLocalStorage w
       /\ (forall field : string,
            (fun t : obj => t !! field) <$> stored_tasks w'
            = (fun t : obj => t !! field) <$> stored_tasks w)
       /\ EXPENSES (localStorage w') = Absent
       /\ stored_expenses w' = []
       /\ PENDING_OPS (localStorage w') = Absent
       /\ pendingOperations w' = pendingOperations w.
Proof.
  unfold round_trip, eval, exec. rewrite exportDataFromLocalStorage_run. eexists.
  split; [reflexivity|]. cbn [fst snd version exportDate tasks settings statistics].
  repeat (split; [reflexivity|]).
  rewrite !getTasksFromLocalStorage_run, !getSettingsFromLocalStorage_run,
    !getStatisticsFromLocalStorage_run.
  repeat split; reflexivity.
Qed.

(** C5, as stated, fails: a store with one expense comes back from the
    round trip without it, so the amounts are not the same. *)
Lemma export_then_import_loses_the_amounts : ~ round_trip_reproduces sample_store.
Proof.
  intros H.
  assert (Hin : "amount" ∈ ["title"; "category"; "amount"])
    by (apply elem_of_cons; right; apply elem_of_cons; right; apply elem_of_cons; left;
        reflexivity).
  destruct (H "amount" Hin (JNum 12)) as [_ Hback].
  assert (Hbefore : JNum 12 ∈ field_values "amount" sample_store).
  { replace (field_values "amount" sample_store) with [JNum 12]
      by (vm_compute; reflexivity).
    apply elem_of_cons. left. reflexivity. }
  specialize (Hback Hbefore).
  replace (field_values "amount" (round_trip sample_store)) with (@nil json) in Hback
    by (vm_compute; reflexivity).
  inversion Hback.
Qed.


Lemma deleteTaskFromLocalStorage_run id w :
  deleteTaskFromLocalStorage id w =
  (Normal tt,
   with_localStorage
     (set_TASKS (Stored (List.filter (fun t => negb (same_id id t)) (stored_tasks w)))
        (localStorage w)) w).
Proof.
  unfold deleteTaskFromLocalStorage. run. rewrite getTasksFromLocalStorage_run. reflexivity.
Qed.

Lemma deleted_absent (p : obj -> bool) (l : list obj) t :
  t ∈ List.filter (fun t => negb (p t)) l -> p t = false.
Proof.
  intros H. apply list_elem_of_In, filter_In in H as [_ H].
  destruct (p t); [discriminate|reflexivity].
Qed.

Lemma deleteTask_run id w :
  eval (deleteTask id) w = Normal tt
  /\ stored_tasks (exec (deleteTask id) w) =
     if remote_takes w then stored_tasks w
     else List.filter (fun t => negb (same_id id t)) (stored_tasks w).
Proof.
  unfold remote_takes, deleteTask. run. destruct (isOnline w) eqn:Hon; simpl.
  - destruct (succeeds (next_fetch w)) eqn:Hs.
    + destruct (makeApiRequest_ok ("/tasks/" +:+ to_string id)
        {| method := Some "DELETE"; headers := None; body := None |} w Hs) as [j ->].
      simpl. auto.
    + destruct (makeApiRequest_fail ("/tasks/" +:+ to_string id)
        {| method := Some "DELETE"; headers := None; body := None |} w Hs) as [err ->].
      rewrite Hon. simpl. rewrite deleteTaskFromLocalStorage_run. simpl. auto.
  - rewrite deleteTaskFromLocalStorage_run. simpl. auto.
Qed.

Ltac run_sm :=
  cbv [mbind mret fmap StorageManager.M_bind StorageManager.M_ret StorageManager.M_fmap
       StorageManager.async StorageManager.try_catch StorageManager.gets
       StorageManager.modify StorageManager.lift StorageManager.throw
       StorageManager.getItem StorageManager.setItem].

Lemma StorageManager_getAllTasks_local sw :
  StorageManager.indexed sw = None ->
  StorageManager.getAllTasks sw = (Normal (records (StorageManager.TASKS (StorageManager.localStorage sw))), sw).
Proof.
  intros H. unfold StorageManager.getAllTasks. run_sm. rewrite H.
  unfold parse_or. destruct (StorageManager.TASKS (StorageManager.localStorage sw)) as [|l|s]; simpl; try reflexivity.
  destruct (String.eqb s ""); reflexivity.
Qed.


Lemma string_lt_irrefl s : JSDate.string_lt s s = false.
Proof.
  induction s as [|c s IH]; simpl; [reflexivity|].
  rewrite Nat.ltb_irrefl. exact IH.
Qed.

(** On the facade of [DatabaseStorageManager] both calls end normally
    whatever the connectivity, and unless the remote API took both calls
    no stored task has the id afterwards. *)
Lemma facade_deleteTask_twice (w : World) (id : option json) :
  let w1 := exec (deleteTask id) w in
  let w2 := exec (deleteTask id) w1 in
  eval (deleteTask id) w = Normal tt
  /\ eval (deleteTask id) w1 = Normal tt
  /\ (remote_takes w && remote_takes w1 = false ->
      forall t, t ∈ stored_tasks w2 -> same_id id t = false).
Proof.
  intros w1 w2.
  destruct (deleteTask_run id w) as [He1 Ht1].
  destruct (deleteTask_run id w1) as [He2 Ht2]. fold w1 in Ht1. fold w2 in Ht2.
  split; [exact He1|]. split; [exact He2|].
  intros Hr t. rewrite Ht2.
  destruct (remote_takes w1).
  - rewrite Ht1. rewrite andb_true_r in Hr. rewrite Hr. apply deleted_absent.
  - apply deleted_absent.
Qed.


(** With a key that is none the request fails and nothing changes. *)
Lemma StorageManager_deleteTask_no_key id sw d :
  StorageManager.indexed sw = Some d ->
  StorageManager.broken d = None ->
  StorageManager.valid_key id = false ->
  StorageManager.deleteTask id sw =
  (Thrown (RequestError "DataError"), StorageManager.with_db (Some d) sw).
Proof.
  intros H Hb Hk. unfold StorageManager.deleteTask. run_sm. rewrite H.
  unfold StorageManager.tasks_delete, StorageManager.request, StorageManager.new_Promise.
  rewrite Hb, Hk. reflexivity.
Qed.




(** C4: on IndexedDB a failing request escapes.  The promise of the
    request is returned from inside the [try] without being awaited, so
    its rejection is the outcome of [getAllTasks], [getTask], [getSetting]
    and [getStatistics]. *)
Theorem reads_reject_when_indexedDB_fails (sw : StorageManager.World) (d : StorageManager.IDBDatabase) (name : string)
    (id : option json) (key : string) (dflt : json) :
  StorageManager.indexed sw = Some d ->
  StorageManager.broken d = Some name ->
  fst (StorageManager.getAllTasks sw) = Thrown (RequestError name)
  /\ fst (StorageManager.getTask id sw) = Thrown (RequestError name)
  /\ fst (StorageManager.getSetting key dflt sw) = Thrown (RequestError name)
  /\ fst (StorageManager.getStatistics sw) = Thrown (RequestError name).
Proof.
  intros Hd Hb.
  unfold StorageManager.getAllTasks, StorageManager.getTask, StorageManager.getSetting,
    StorageManager.getStatistics. run_sm.
  unfold StorageManager.new_Promise, StorageManager.tasks_getAll, StorageManager.tasks_get,
    StorageManager.settings_get, StorageManager.statistics_getAll, StorageManager.request.
  rewrite Hd, Hb.
  repeat split; reflexivity.
Qed.

(** ** The theorems on sample states *)

Lemma getAllTasks_failure_enqueues_a_read_witness :
  let w := sample_world net_down true Absent in
  let op := {| endpoint := "/tasks"; options := no_options; timestamp := clock w (ticks w) |} in
  pendingOperations (exec getAllTasks w) = pendingOperations w ++ [op]
  /\ PENDING_OPS (localStorage (exec getAllTasks w)) = Stored (pendingOperations w ++ [op])
  /\ is_read op = true.
Proof.
  apply (getAllTasks_failure_enqueues_a_read (sample_world net_down true Absent));
    reflexivity.
Defined.

Lemma saveTask_offline_is_not_queued_witness :
  let w := sample_world net_down false Absent in
  let w' := exec (saveTask sample_task) w in
  written_record sample_task w ∈ stored_tasks w'
  /\ pendingOperations w' = pendingOperations w
  /\ PENDING_OPS (localStorage w') = PENDING_OPS (localStorage w)
  /\ requests w' = requests w.
Proof.
  apply (saveTask_offline_is_not_queued (sample_world net_down false Absent) sample_task).
  reflexivity.
Defined.

Lemma reads_reject_when_indexedDB_fails_witness :
  fst (StorageManager.getAllTasks sample_indexed_manager) = Thrown (RequestError "UnknownError")
  /\ fst (StorageManager.getTask (Some (JNum 7)) sample_indexed_manager)
     = Thrown (RequestError "UnknownError")
  /\ fst (StorageManager.getSetting "theme" JNull sample_indexed_manager)
     = Thrown (RequestError "UnknownError")
  /\ fst (StorageManager.getStatistics sample_indexed_manager)
     = Thrown (RequestError "UnknownError").
Proof.
  apply (reads_reject_when_indexedDB_fails sample_indexed_manager broken_database);
    reflexivity.
Defined.




(** ** Dates and the completion statistics *)

Section CompletionStatistics.
Import JSDate StatisticsManager.

Lemma string_lt_app_same p a b : string_lt (p +:+ a) (p +:+ b) = string_lt a b.
Proof.
  induction p as [|c p IH]; simpl; [reflexivity|].
  rewrite Nat.ltb_irrefl. exact IH.
Qed.

Lemma string_lt_app_lt a : forall b x y,
  String.length a = String.length b ->
  string_lt a b = true -> string_lt (a +:+ x) (b +:+ y) = true.
Proof.
  induction a as [|c a IH]; intros [|d b] x y Hlen H; simpl in *; try discriminate.
  destruct (Nat.ltb _ _); [reflexivity|].
  destruct (Nat.ltb _ _); [discriminate|].
  apply IH; [congruence|exact H].
Qed.

Lemma length_append (a b : string) :
  String.length (a +:+ b) = (String.length a + String.length b)%nat.
Proof. induction a as [|c a IH]; simpl; [reflexivity|]. rewrite IH. reflexivity. Qed.

Lemma pad_length k : forall n, String.length (pad k n) = k.
Proof.
  induction k as [|k IH]; intros n; simpl; [reflexivity|].
  rewrite length_append, IH. simpl. lia.
Qed.

Lemma digit_code d : 0 <= d < 10 -> Ascii.nat_of_ascii (digit d) = (48 + Z.to_nat d)%nat.
Proof.
  intros H. unfold digit. apply Ascii.nat_ascii_embedding. lia.
Qed.

Lemma pad_lt k : forall a b,
  0 <= a < b -> b < 10 ^ Z.of_nat k -> string_lt (pad k a) (pad k b) = true.
Proof.
  induction k as [|k IH]; intros a b Hab Hb.
  - change (10 ^ Z.of_nat 0) with 1 in Hb. lia.
  - rewrite Nat2Z.inj_succ, Z.pow_succ_r in Hb by lia. 
    cbn [pad].
    assert (Ha10 : 0 <= a mod 10 < 10) by (apply Z.mod_pos_bound; lia).
    assert (Hb10 : 0 <= b mod 10 < 10) by (apply Z.mod_pos_bound; lia).
    pose proof (Z.div_mod a 10 ltac:(lia)) as Ea.
    pose proof (Z.div_mod b 10 ltac:(lia)) as Eb.
    destruct (Z.lt_ge_cases (a / 10) (b / 10)) as [Hlt|Hge].
    + apply string_lt_app_lt; [rewrite !pad_length; reflexivity|].
      apply IH; lia.
    + assert (a / 10 = b / 10) as -> by lia.
      rewrite string_lt_app_same. cbn [string_lt].
      rewrite !digit_code by assumption.
      replace (48 + Z.to_nat (a mod 10) <? 48 + Z.to_nat (b mod 10))%nat with true;
        [reflexivity|]. symmetry. apply Nat.ltb_lt. lia.
Qed.

Lemma days_in_month_bounds y m : 28 <= days_in_month y m <= 31.
Proof.
  unfold days_in_month. destruct (m =? 2); [destruct (is_leap y); lia|].
  destruct (_ || _); lia.
Qed.

Lemma next_day_valid c : valid c -> valid (next_day c).
Proof.
  intros (Hm & Hd & Hy). unfold next_day, valid.
  destruct (day c <? _) eqn:E1; [|destruct (month c <? 12) eqn:E2]; cbn [year month day].
  - apply Z.ltb_lt in E1. lia.
  - apply Z.ltb_lt in E2. pose proof (days_in_month_bounds (year c) (month c + 1)). lia.
  - pose proof (days_in_month_bounds (year c + 1) 1). lia.
Qed.

Lemma civil_of_days_valid n : valid (civil_of_days n).
Proof.
  induction n as [|n IH].
  - change (civil_of_days 0) with epoch. unfold valid, epoch.
    change (days_in_month _ _) with 31. cbn [year month day]. lia.
  - unfold civil_of_days in *. cbn [Nat.iter]. apply next_day_valid. exact IH.
Qed.

Lemma pow10_2 : 10 ^ Z.of_nat 2 = 100.
Proof. reflexivity. Qed.

Lemma pow10_4 : 10 ^ Z.of_nat 4 = 10000.
Proof. reflexivity. Qed.

Lemma iso_date_next_day c :
  valid c -> year (next_day c) <= 9999 ->
  string_lt (iso_date c) (iso_date (next_day c)) = true.
Proof.
  intros (Hm & Hd & Hy) Hmax. unfold iso_date.
  pose proof (days_in_month_bounds (year c) (month c)) as Hdim.
  unfold next_day in *.
  destruct (day c <? _) eqn:E1; [|destruct (month c <? 12) eqn:E2];
    cbn [year month day] in *.
  - apply Z.ltb_lt in E1. rewrite !string_lt_app_same.
    apply (pad_lt 2); rewrite ?pow10_2; lia.
  - apply Z.ltb_lt in E2. rewrite !string_lt_app_same.
    apply string_lt_app_lt; [rewrite !pad_length; reflexivity|].
    apply (pad_lt 2); rewrite ?pow10_2; lia.
  - apply string_lt_app_lt; [rewrite !pad_length; reflexivity|].
    apply (pad_lt 4); rewrite ?pow10_4; lia.
Qed.

Lemma no_T_app a b : no_T (a +:+ b) = no_T a && no_T b.
Proof.
  induction a as [|c a IH]; simpl; [reflexivity|].
  rewrite IH, andb_assoc. reflexivity.
Qed.

Lemma digit_not_T n : Ascii.eqb (digit (n mod 10)) "T"%char = false.
Proof.
  assert (H : 0 <= n mod 10 < 10) by (apply Z.mod_pos_bound; lia).
  assert (E : n mod 10 = 0 \/ n mod 10 = 1 \/ n mod 10 = 2 \/ n mod 10 = 3 \/ n mod 10 = 4
          \/ n mod 10 = 5 \/ n mod 10 = 6 \/ n mod 10 = 7 \/ n mod 10 = 8 \/ n mod 10 = 9) by lia.
  repeat destruct E as [E|E]; rewrite E; reflexivity.
Qed.

Lemma no_T_pad k : forall n, no_T (pad k n) = true.
Proof.
  induction k as [|k IH]; intros n; cbn [pad]; [reflexivity|].
  rewrite no_T_app, IH. cbn [no_T]. rewrite digit_not_T. reflexivity.
Qed.

Lemma no_T_iso_date c : no_T (iso_date c) = true.
Proof.
  unfold iso_date. rewrite !no_T_app, !no_T_pad. reflexivity.
Qed.

Lemma split_T_head_app a b :
  no_T a = true -> split_T_head (a +:+ String "T"%char b) = a.
Proof.
  induction a as [|c a IH]; simpl; intros H.
  - reflexivity.
  - apply andb_true_iff in H as [Hc Ha]. apply negb_true_iff in Hc. rewrite Hc, IH; auto.
Qed.

Lemma today_is_iso_date t : split_T_head (toISOString t) = iso_date (utc_date t).
Proof.
  unfold toISOString. apply split_T_head_app. apply no_T_iso_date.
Qed.

Lemma iso_date_length c : String.length (iso_date c) = 10%nat.
Proof. unfold iso_date. rewrite !length_append, !pad_length. reflexivity. Qed.

Lemma iso_date_truthy c : truthy (Some (JStr (iso_date c))) = true.
Proof.
  cbn [truthy]. pose proof (iso_date_length c) as H.
  destruct (iso_date c); [discriminate|reflexivity].
Qed.

Lemma utc_date_next t :
  0 <= t -> utc_date (t + ms_per_day) = next_day (utc_date t).
Proof.
  intros Ht. unfold utc_date.
  replace (t + ms_per_day) with (t + 1 * ms_per_day) by lia.
  rewrite Z.div_add by (unfold ms_per_day; lia).
  assert (0 <= t / ms_per_day) by (apply Z.div_pos; unfold ms_per_day; lia).
  rewrite Z2Nat.inj_add by lia. change (Z.to_nat 1) with 1%nat.
  rewrite Nat.add_1_r. reflexivity.
Qed.

Lemma yesterday_before_today t :
  ms_per_day <= t -> year (utc_date t) <= 9999 ->
  string_lt (iso_date (utc_date (t - ms_per_day))) (iso_date (utc_date t)) = true.
Proof.
  intros Ht Hy.
  assert (E : utc_date t = next_day (utc_date (t - ms_per_day))).
  { rewrite <- utc_date_next by lia. f_equal. lia. }
  rewrite E in *. apply iso_date_next_day; [apply civil_of_days_valid|exact Hy].
Qed.

(** The start of the week period is the instant seven calendar days
    back, when that is a time value. *)
Lemma startDate_week h now :
  startDate h "week" now = TimeClip (week_start h now).
Proof. reflexivity. Qed.

Lemma TimeClip_in_range t : Z.abs t <= max_time -> TimeClip t = Some t.
Proof. intros H. unfold TimeClip. apply Z.leb_le in H. rewrite H. reflexivity. Qed.

Lemma seeded_in_week h now status due task :
  Z.abs (week_start h now) <= max_time ->
  seeded h now status due task ->
  created_since h (startDate h "week" now) task = true.
Proof.
  intros Hr (_ & _ & c & Hc & Hle). unfold created_since.
  rewrite startDate_week, (TimeClip_in_range _ Hr), Hc. apply Z.leb_le. exact Hle.
Qed.

Lemma count_completed h stats today now due task :
  seeded h now "completed" due task ->
  count stats today task =
  {| completed := completed stats + 1; pending := pending stats;
     overdue := overdue stats; total := total stats |}.
Proof. intros (Hs & _). unfold count. rewrite Hs. reflexivity. Qed.

Lemma count_pending_task h stats today now due task :
  seeded h now "pending" due task ->
  count stats today task =
  if string_lt (iso_date (utc_date due)) today
  then {| completed := completed stats; pending := pending stats;
          overdue := overdue stats + 1; total := total stats |}
  else {| completed := completed stats; pending := pending stats + 1;
          overdue := overdue stats; total := total stats |}.
Proof.
  intros (Hs & Hd & _). unfold count. rewrite Hs, Hd, iso_date_truthy.
  cbn [strict_eq before andb]. change (String.eqb "pending" "completed") with false.
  cbv iota. reflexivity.
Qed.

(** C7: three tasks created within the week that ends now (not before
    the instant seven calendar days back in the time zone of the host),
    the first pending and due today, the second pending and due
    yesterday, the third completed and due in a week, the due dates
    written as the UTC date texts the application writes: over the week
    period [getCompletionStats] counts one completed, one pending and one
    overdue task, three in all, on every host. *)
Theorem getCompletionStats_week_scenario
    (h : Host) (now now' : Z) (t1 t2 t3 : obj) :
  ms_per_day <= now' ->
  year (utc_date now') <= 9999 ->
  Z.abs (week_start h now) <= max_time ->
  seeded h now "pending" now' t1 ->
  seeded h now "pending" (now' - ms_per_day) t2 ->
  seeded h now "completed" (now' + 7 * ms_per_day) t3 ->
  getCompletionStats h {| tasks := [t1; t2; t3]; currentPeriod := "week" |} now now'
  = {| completed := 1; pending := 1; overdue := 1; total := 3 |}.
Proof.
  intros Hday Hyear Hr H1 H2 H3.
  unfold getCompletionStats, getTasksForPeriod. cbn [tasks currentPeriod List.filter].
  rewrite (seeded_in_week _ _ _ _ _ Hr H1), (seeded_in_week _ _ _ _ _ Hr H2),
    (seeded_in_week _ _ _ _ _ Hr H3).
  rewrite today_is_iso_date. cbn [fold_left length].
  rewrite (count_pending_task _ _ _ _ _ _ H1), string_lt_irrefl.
  rewrite (count_pending_task _ _ _ _ _ _ H2), (yesterday_before_today _ Hday Hyear).
  rewrite (count_completed _ _ _ _ _ _ H3). reflexivity.
Qed.

Lemma getCompletionStats_week_scenario_witness :
  getCompletionStats utc_host
    {| tasks := [task_today; task_yesterday; task_next_week]; currentPeriod := "week" |}
    week_now week_now
  = {| completed := 1; pending := 1; overdue := 1; total := 3 |}.
Proof.
  apply getCompletionStats_week_scenario.
  - vm_compute. discriminate.
  - vm_compute. discriminate.
  - vm_compute. discriminate.
  - split; [vm_compute; reflexivity|]. split; [vm_compute; reflexivity|].
    eexists. split; [vm_compute; reflexivity | vm_compute; discriminate].
  - split; [vm_compute; reflexivity|]. split; [vm_compute; reflexivity|].
    eexists. split; [vm_compute; reflexivity | vm_compute; discriminate].
  - split; [vm_compute; reflexivity|]. split; [vm_compute; reflexivity|].
    eexists. split; [vm_compute; reflexivity | vm_compute; discriminate].
Defined.

(** On a host in UTC the week starts seven times 24 hours back; across a
    clock change it does not: on 2024-03-13 at 14:00Z, three days after
    the clocks of the host moved forward, the week starts an hour later,
    and a task created in that hour is not in the period. *)
Example week_start_utc now : week_start utc_host now = now - 7 * ms_per_day.
Proof. unfold week_start, UTC, LocalTime. simpl. lia. Qed.

Example week_start_across_clock_change :
  let now := 1710338400000 in
  week_start eastern_host now = now - 7 * ms_per_day + 3600000
  /\ getTasksForPeriod eastern_host
       {| tasks := [ {[ "createdAt" := JStr "2024-03-06T14:30:00.000Z" ]} ];
          currentPeriod := "week" |} now = []
  /\ length (getTasksForPeriod utc_host
               {| tasks := [ {[ "createdAt" := JStr "2024-03-06T14:30:00.000Z" ]} ];
                  currentPeriod := "week" |} now) = 1%nat.
Proof. vm_compute. repeat split; reflexivity. Qed.

Example toISOString_sample :
  JSDate.toISOString 1700000000123 = "2023-11-14T22:13:20.123Z".
Proof. vm_compute. reflexivity. Qed.

Example Date_parse_sample :
  Date_parse utc_host "2023-11-14T22:13:20.123Z" = Some 1700000000123
  /\ Date_parse utc_host "2023-11-14T22:13:20Z" = Some 1700000000000
  /\ Date_parse utc_host "2023-11-14T17:13:20-05:00" = Some 1700000000000
  /\ Date_parse utc_host "2023-11-14T22:13" = Some 1699999980000
  /\ Date_parse eastern_host "2024-03-13T10:00:00" = Some 1710338400000
  /\ Date_parse utc_host "2023-11" = Some 1698796800000
  /\ Date_parse utc_host "14 Nov 2023" = None.
Proof. vm_compute. repeat split; reflexivity. Qed.

Example Date_parse_date_only :
  Date_parse utc_host "2024-02-29" = Some (19782 * ms_per_day)
  /\ iso_date (civil_of_days (Z.to_nat 19782)) = "2024-02-29"
  /\ civil_of_day (-1) = {| year := 1969; month := 12; day := 31 |}.
Proof. vm_compute. repeat split; reflexivity. Qed.

End CompletionStatistics.

(** * Further properties *)

(** ** Further properties of the queue *)

(** With a remote that answers every call, the loop requests the entries
    from index [i] on and nothing else, and leaves the queue as it is. *)
Lemma replay_healthy fuel : forall i w,
  settles_after w 0 ->
  (length (pendingOperations w) - i < fuel)%nat ->
  exists w',
    replay fuel i w = Some w'
    /\ requests w' = requests w ++ (op_request <$> drop i (pendingOperations w))
    /\ pendingOperations w' = pendingOperations w
    /\ localStorage w' = localStorage w
    /\ ticks w' = ticks w
    /\ isOnline w' = isOnline w.
Proof.
  induction fuel as [|fuel IH]; intros i w Hn Hf; [lia|]. simpl.
  destruct (pendingOperations w !! i) as [op|] eqn:Hop.
  - assert (Hs : succeeds (next_fetch w) = true) by (unfold next_fetch; apply Hn; simpl; lia).
    destruct (makeApiRequest_ok (endpoint op) (options op) w Hs) as [j Hm]. rewrite Hm.
    apply lookup_lt_Some in Hop as Hlt.
    destruct (IH (S i) (sent (endpoint op) (options op) w)) as (w' & Hr & Hreq & Hq & Hls & Ht & Ho).
    + intros k Hk. apply (Hn k). simpl in Hk. rewrite length_app in Hk. simpl in Hk. lia.
    + simpl. lia.
    + exists w'. split; [exact Hr|]. rewrite Hreq, Hq, Hls, Ht, Ho. simpl.
      rewrite (drop_S _ _ _ Hop), fmap_cons, <- app_assoc.
      repeat split; reflexivity.
  - exists w. rewrite drop_ge by (apply lookup_ge_None in Hop; lia).
    simpl. rewrite app_nil_r. repeat split; reflexivity.
Qed.

Lemma syncPendingOperations_healthy (w : World) (queue : list PendingOp) :
  loaded_queue w = Normal queue ->
  queue <> [] ->
  settles_after w 0 ->
  exists w',
    syncPendingOperations (S (length queue)) w = Some w'
    /\ requests w' = requests w ++ (op_request <$> queue)
    /\ pendingOperations w' = []
    /\ PENDING_OPS (localStorage w') = Absent
    /\ collections w' = collections w.
Proof.
  intros Hq Hne Hn. unfold syncPendingOperations. rewrite Hq.
  destruct queue as [|op queue]; [congruence|].
  replace (length (op :: queue) =? 0)%nat with false by reflexivity.
  destruct (replay_healthy (S (length (op :: queue))) 0 (with_pendingOperations (op :: queue) w))
    as (w2 & H2 & Hreq & Hpq & Hls & _); [exact Hn | simpl; lia |].
  rewrite H2. eexists. split; [reflexivity|]. simpl.
  rewrite Hreq. simpl. unfold collections. simpl. rewrite Hls. auto.
Qed.

Lemma enqueue_all_run ops : forall w,
  op_request <$> pendingOperations (enqueue_all ops w)
    = (op_request <$> pendingOperations w) ++ (as_request <$> ops)
  /\ requests (enqueue_all ops w) = requests w
  /\ network (enqueue_all ops w) = network w
  /\ collections (enqueue_all ops w) = collections w
  /\ (ops <> [] ->
      PENDING_OPS (localStorage (enqueue_all ops w))
      = Stored (pendingOperations (enqueue_all ops w))).
Proof.
  induction ops as [|[e o] ops IH]; intros w.
  - simpl. rewrite app_nil_r. repeat split; auto. congruence.
  - cbn [enqueue_all]. destruct (IH (exec (addPendingOperation e o) w)) as (Hq & Hr & Hn & Hc & Hs).
    rewrite Hq, Hr, Hn, Hc. unfold exec. rewrite addPendingOperation_run. cbn [snd].
    split; [|split; [|split; [|split]]]; try reflexivity.
    + simpl. rewrite fmap_app, <- app_assoc. reflexivity.
    + intros _. destruct ops as [|eo ops]; [reflexivity|]. apply Hs. discriminate.
Qed.

(** X1. Operations queued one after the other and drained by the [online]
    event, against a remote API that answers every call, are requested in
    the order they were queued, behind what the queue already held, once
    each and nothing else; then the queue is empty in memory, its slot is
    removed and the record collections are as before. *)
Theorem queued_operations_are_replayed_in_order
    (w : World) (ops : list (string * RequestInit)) :
  ops <> [] ->
  settles_after w 0 ->
  exists w',
    on_online (S (length (pendingOperations w) + length ops)) (enqueue_all ops w) = Some w'
    /\ requests w' =
       requests w ++ (op_request <$> pendingOperations w) ++ (as_request <$> ops)
    /\ pendingOperations w' = []
    /\ PENDING_OPS (localStorage w') = Absent
    /\ collections w' = collections w.
Proof.
  intros Hne Hn. destruct (enqueue_all_run ops w) as (Hq & Hr & Hnet & Hc & Hs).
  specialize (Hs Hne). unfold on_online.
  set (w1 := with_isOnline true (enqueue_all ops w)).
  destruct (syncPendingOperations_healthy w1 (pendingOperations (enqueue_all ops w)))
    as (w' & Hsync & Hreq & Hpq & Hslot & Hcol).
  - unfold loaded_queue, w1. simpl. rewrite Hs. reflexivity.
  - intros E. rewrite E in Hq. simpl in Hq. symmetry in Hq.
    apply app_eq_nil in Hq as [_ Hq]. destruct ops; [congruence|discriminate].
  - intros k Hk. unfold w1. simpl. rewrite Hnet. apply Hn. simpl in Hk. rewrite Hr in Hk. exact Hk.
  - exists w'. assert (Hlen : length (pendingOperations (enqueue_all ops w))
                       = (length (pendingOperations w) + length ops)%nat).
    { apply (f_equal length) in Hq. rewrite length_app, !length_fmap in Hq. exact Hq. }
    rewrite Hlen in Hsync. split; [exact Hsync|].
    rewrite Hreq, Hq. unfold w1 at 1. simpl. rewrite Hr.
    repeat split; auto. rewrite Hcol. unfold w1, collections. simpl. exact Hc.
Qed.

Lemma queued_operations_are_replayed_in_order_witness :
  exists w',
    on_online 3
      (enqueue_all [("/tasks", options opA); ("/tasks/7", options opB)]
         (sample_world net_up false Absent)) = Some w'
    /\ requests w' = [op_request opA; op_request opB]
    /\ pendingOperations w' = [].
Proof.
  destruct (queued_operations_are_replayed_in_order
              (sample_world net_up false Absent)
              [("/tasks", options opA); ("/tasks/7", options opB)])
    as (w' & H1 & H2 & H3 & _).
  - discriminate.
  - intros k _. reflexivity.
  - exists w'. split; [exact H1|]. split; [exact H2|exact H3].
Defined.

(** ** What is never queued *)

Lemma preserves_ret {A} (a : A) : preserves (mret a).
Proof. intros w H. exact H. Qed.

Lemma preserves_bind {A B} (m : M A) (f : A -> M B) :
  preserves m -> (forall a, preserves (f a)) -> preserves (m ≫= f).
Proof.
  intros Hm Hf w H. specialize (Hm w H). unfold mbind, M_bind.
  destruct (m w) as [[a|e] w1]; simpl in *; [apply Hf; exact Hm | exact Hm].
Qed.

Lemma preserves_fmap {A B} (g : A -> B) (m : M A) : preserves m -> preserves (g <$> m).
Proof.
  intros Hm w H. specialize (Hm w H). unfold fmap, M_fmap.
  destruct (m w) as [[a|e] w1]; exact Hm.
Qed.

Lemma preserves_try_catch {A} (m : M A) (h : error -> M A) :
  preserves m -> (forall e, preserves (h e)) -> preserves (try_catch m h).
Proof.
  intros Hm Hh w H. specialize (Hm w H). unfold try_catch.
  destruct (m w) as [[a|e] w1]; simpl in *; [exact Hm | apply Hh; exact Hm].
Qed.

Lemma preserves_gets {A} (f : World -> A) : preserves (gets f).
Proof. intros w H. exact H. Qed.

Lemma preserves_lift {A} (c : completion A) : preserves (lift c).
Proof. intros w H. exact H. Qed.

Lemma preserves_throw {A} (e : error) : preserves (@throw A e).
Proof. intros w H. exact H. Qed.

Lemma preserves_getItem {A} (key : LocalStorage -> slot A) : preserves (getItem key).
Proof. intros w H. exact H. Qed.

Lemma preserves_Date_now : preserves Date_now.
Proof. intros w H. exact H. Qed.

Lemma preserves_new_Date_toISOString : preserves new_Date_toISOString.
Proof. apply preserves_bind; [apply preserves_Date_now | intros; apply preserves_ret]. Qed.

Lemma preserves_set_TASKS v : preserves (setItem set_TASKS v).
Proof. intros w H. exact H. Qed.

Lemma preserves_set_SETTINGS v : preserves (setItem set_SETTINGS v).
Proof. intros w H. exact H. Qed.

Lemma preserves_set_STATISTICS v : preserves (setItem set_STATISTICS v).
Proof. intros w H. exact H. Qed.

Lemma preserves_set_EXPENSES v : preserves (setItem set_EXPENSES v).
Proof. intros w H. exact H. Qed.

Lemma preserves_clearLocalStorageData : preserves clearLocalStorageData.
Proof. intros w [H _]. split; [exact H | constructor]. Qed.

Lemma preserves_addPendingOperation e o :
  method o <> Some "GET" -> preserves (addPendingOperation e o).
Proof.
  intros Ho w [Hq _]. rewrite addPendingOperation_run. unfold no_GET_queued, stored_queue.
  simpl. assert (Forall not_GET
    (pendingOperations w ++ [{| endpoint := e; options := o; timestamp := clock w (ticks w) |}])).
  { apply Forall_app. split; [exact Hq|]. constructor; [exact Ho | constructor]. }
  auto.
Qed.

Lemma method_not_GET_true o : method_not_GET o = true -> method o <> Some "GET".
Proof.
  unfold method_not_GET. intros H E. rewrite bool_decide_eq_true_2 in H by exact E. discriminate.
Qed.

Lemma preserves_makeApiRequest e o : preserves (makeApiRequest e o).
Proof.
  intros w H. destruct (succeeds (next_fetch w)) eqn:Hs.
  - destruct (makeApiRequest_ok e o w Hs) as [j ->]. exact H.
  - destruct (makeApiRequest_fail e o w Hs) as [err ->]. cbn [snd].
    destruct (isOnline w && method_not_GET o) eqn:E; [|exact H].
    apply andb_true_iff in E as [_ E].
    apply (preserves_addPendingOperation e o (method_not_GET_true o E) (sent e o w)). exact H.
Qed.

Create HintDb preserves.
#[local] Hint Resolve preserves_ret preserves_gets preserves_lift preserves_throw
  preserves_getItem preserves_Date_now preserves_new_Date_toISOString
  preserves_set_TASKS preserves_set_SETTINGS preserves_set_STATISTICS preserves_set_EXPENSES
  preserves_clearLocalStorageData preserves_makeApiRequest : preserves.

Ltac preserves_step :=
  match goal with
  | |- preserves (_ ≫= _) => apply preserves_bind; [|intros]
  | |- preserves (_ <$> _) => apply preserves_fmap
  | |- preserves (try_catch _ _) => apply preserves_try_catch; [|intros]
  | |- preserves (if ?b then _ else _) => destruct b
  | |- preserves (match ?x with _ => _ end) => destruct x
  | |- preserves (addPendingOperation _ _) =>
      apply preserves_addPendingOperation; simpl; try discriminate
  | |- preserves _ => solve [auto with preserves]
  end.

Ltac preserves_auto := repeat preserves_step.

Lemma preserves_getTasksFromLocalStorage : preserves getTasksFromLocalStorage.
Proof. unfold getTasksFromLocalStorage. preserves_auto. Qed.

Lemma preserves_getSettingsFromLocalStorage : preserves getSettingsFromLocalStorage.
Proof. unfold getSettingsFromLocalStorage. preserves_auto. Qed.

Lemma preserves_getStatisticsFromLocalStorage : preserves getStatisticsFromLocalStorage.
Proof. unfold getStatisticsFromLocalStorage. preserves_auto. Qed.

Lemma preserves_getExpensesFromLocalStorage : preserves getExpensesFromLocalStorage.
Proof. unfold getExpensesFromLocalStorage. preserves_auto. Qed.

#[local] Hint Resolve preserves_getTasksFromLocalStorage
  preserves_getSettingsFromLocalStorage preserves_getStatisticsFromLocalStorage
  preserves_getExpensesFromLocalStorage : preserves.

Lemma preserves_saveTaskToLocalStorage task : preserves (saveTaskToLocalStorage task).
Proof. unfold saveTaskToLocalStorage. preserves_auto. Qed.

Lemma preserves_deleteTaskFromLocalStorage id : preserves (deleteTaskFromLocalStorage id).
Proof. unfold deleteTaskFromLocalStorage. preserves_auto. Qed.

Lemma preserves_setSettingInLocalStorage key value :
  preserves (setSettingInLocalStorage key value).
Proof. unfold setSettingInLocalStorage. preserves_auto. Qed.

Lemma preserves_getSettingFromLocalStorage key d :
  preserves (getSettingFromLocalStorage key d).
Proof. unfold getSettingFromLocalStorage. preserves_auto. Qed.

Lemma preserves_saveStatisticToLocalStorage date type data :
  preserves (saveStatisticToLocalStorage date type data).
Proof. unfold saveStatisticToLocalStorage. preserves_auto. Qed.

Lemma preserves_exportDataFromLocalStorage : preserves exportDataFromLocalStorage.
Proof. unfold exportDataFromLocalStorage. preserves_auto. Qed.

Lemma preserves_importDataToLocalStorage data : preserves (importDataToLocalStorage data).
Proof. unfold importDataToLocalStorage. preserves_auto. Qed.

Lemma preserves_saveExpenseToLocalStorage expense :
  preserves (saveExpenseToLocalStorage expense).
Proof. unfold saveExpenseToLocalStorage. preserves_auto. Qed.

Lemma preserves_deleteExpenseFromLocalStorage id :
  preserves (deleteExpenseFromLocalStorage id).
Proof. unfold deleteExpenseFromLocalStorage. preserves_auto. Qed.

#[local] Hint Resolve preserves_saveTaskToLocalStorage preserves_deleteTaskFromLocalStorage
  preserves_setSettingInLocalStorage preserves_getSettingFromLocalStorage
  preserves_saveStatisticToLocalStorage preserves_exportDataFromLocalStorage
  preserves_importDataToLocalStorage preserves_saveExpenseToLocalStorage
  preserves_deleteExpenseFromLocalStorage : preserves.

Lemma preserves_facade_calls :
  (forall task, preserves (saveTask task))
  /\ preserves getAllTasks
  /\ (forall id, preserves (getTask id))
  /\ (forall id, preserves (deleteTask id))
  /\ (forall key value, preserves (setSetting key value))
  /\ (forall key d, preserves (getSetting key d))
  /\ (forall date type data, preserves (saveStatistic date type data))
  /\ preserves getStatistics
  /\ preserves exportData
  /\ (forall data, preserves (importData data))
  /\ preserves clearAll
  /\ (forall expense, preserves (saveExpense expense))
  /\ (forall id, preserves (deleteExpense id)).
Proof.
  unfold saveTask, getAllTasks, getTask, deleteTask, setSetting, getSetting,
    saveStatistic, getStatistics, exportData, importData, clearAll, saveExpense,
    deleteExpense.
  repeat match goal with |- _ /\ _ => split end; intros; preserves_auto;
    unfold save_method; destruct (truthy _); discriminate.
Qed.

Lemma replay_no_GET fuel : forall i w w',
  no_GET_queued w -> replay fuel i w = Some w' -> no_GET_queued w'.
Proof.
  induction fuel as [|fuel IH]; intros i w w' Hw H; simpl in H; [discriminate|].
  destruct (pendingOperations w !! i) as [op|]; [|congruence].
  pose proof (preserves_makeApiRequest (endpoint op) (options op) w Hw) as H1.
  destruct (makeApiRequest (endpoint op) (options op) w) as [r w1].
  exact (IH _ _ _ H1 H).
Qed.

Lemma loaded_queue_no_GET w queue :
  no_GET_queued w -> loaded_queue w = Normal queue -> Forall not_GET queue.
Proof.
  intros [Hm Hs]. unfold loaded_queue, parse_or, stored_queue in *.
  destruct (PENDING_OPS (localStorage w)) as [|q|s]; simpl.
  - congruence.
  - congruence.
  - destruct (String.eqb s ""); simpl; congruence.
Qed.

Lemma syncPendingOperations_no_GET fuel w w' :
  no_GET_queued w -> syncPendingOperations fuel w = Some w' -> no_GET_queued w'.
Proof.
  intros Hw. unfold syncPendingOperations.
  destruct (loaded_queue w) as [queue|e] eqn:Hq; [|congruence].
  pose proof (loaded_queue_no_GET w queue Hw Hq) as Hqueue.
  assert (H1 : no_GET_queued (with_pendingOperations queue w))
    by (split; [exact Hqueue | exact (proj2 Hw)]).
  destruct (length queue =? 0)%nat; [congruence|].
  destruct (replay fuel 0 (with_pendingOperations queue w)) as [w2|] eqn:Hr; [|discriminate].
  intros E. inversion E; subst w'. split; constructor.
Qed.

Lemma run_call_no_GET fuel c w w' :
  no_GET_queued w -> run_call fuel c w = Some w' -> no_GET_queued w'.
Proof.
  destruct preserves_facade_calls
    as (H1 & H2 & H3 & H4 & H5 & H6 & H7 & H8 & H9 & H10 & H11 & H12 & H13).
  intros Hw. destruct c; simpl; unfold exec;
    try (intros E; inversion E; subst w'; clear E).
  - apply H1, Hw.
  - apply H2, Hw.
  - apply H3, Hw.
  - apply H4, Hw.
  - apply H5, Hw.
  - apply H6, Hw.
  - apply H7, Hw.
  - apply H8, Hw.
  - apply H9, Hw.
  - apply H10, Hw.
  - apply H11, Hw.
  - apply H12, Hw.
  - apply H13, Hw.
  - apply syncPendingOperations_no_GET, Hw.
  - unfold init', checkDatabaseConnection.
    destruct (network w (length (requests w))) as [|status payload].
    + intros E; inversion E; subst w'. exact Hw.
    + destruct (response_ok status).
      * apply syncPendingOperations_no_GET. exact Hw.
      * intros E; inversion E; subst w'. exact Hw.
  - apply syncPendingOperations_no_GET. exact Hw.
  - exact Hw.
Qed.

(** X2. Whatever calls of the facade, flushes and connectivity events
    follow each other, and whatever the remote API answers, no operation
    whose method is the text GET is ever in the queue or in its stored
    copy ([makeApiRequest] guards the only place the facade queues from
    a failure).  An operation with no method at all is not excluded. *)
Theorem no_GET_is_ever_queued (cs : list call) (fuel : nat) (w w' : World) :
  no_GET_queued w ->
  run_calls fuel cs w = Some w' ->
  no_GET_queued w'.
Proof.
  revert w. induction cs as [|c cs IH]; intros w Hw H; simpl in H.
  - inversion H; subst. exact Hw.
  - destruct (run_call fuel c w) as [w1|] eqn:Hc; [|discriminate].
    exact (IH w1 (run_call_no_GET fuel c w w1 Hw Hc) H).
Qed.

Lemma no_GET_is_ever_queued_witness :
  exists w',
    run_calls 5
      [SaveTask sample_task; GetAllTasks; DeleteTask (Some (JNum 7)); GoOffline;
       SaveExpense sample_task; GoOnline]
      (sample_world net_fail_first true Absent) = Some w'
    /\ no_GET_queued w'.
Proof.
  eexists. split; [vm_compute; reflexivity|].
  apply (no_GET_is_ever_queued
           [SaveTask sample_task; GetAllTasks; DeleteTask (Some (JNum 7)); GoOffline;
            SaveExpense sample_task; GoOnline]
           5 (sample_world net_fail_first true Absent)).
  - split; constructor.
  - vm_compute. reflexivity.
Defined.

(** ** How often the remote API is called *)

Lemma silent_ret {A} (a : A) : silent (mret a).
Proof. intros w. split; reflexivity. Qed.

Lemma silent_bind {A B} (m : M A) (f : A -> M B) :
  silent m -> (forall a, silent (f a)) -> silent (m ≫= f).
Proof.
  intros Hm Hf w. specialize (Hm w). unfold mbind, M_bind.
  destruct (m w) as [[a|e] w1]; simpl in *; [|exact Hm].
  destruct (Hf a w1) as [H1 H2]. destruct Hm as [H3 H4]. split; congruence.
Qed.

Lemma silent_fmap {A B} (g : A -> B) (m : M A) : silent m -> silent (g <$> m).
Proof.
  intros Hm w. specialize (Hm w). unfold fmap, M_fmap.
  destruct (m w) as [[a|e] w1]; exact Hm.
Qed.

Lemma silent_try_catch {A} (m : M A) (h : error -> M A) :
  silent m -> (forall e, silent (h e)) -> silent (try_catch m h).
Proof.
  intros Hm Hh w. specialize (Hm w). unfold try_catch.
  destruct (m w) as [[a|e] w1]; simpl in *; [exact Hm|].
  destruct (Hh e w1) as [H1 H2]. destruct Hm as [H3 H4]. split; congruence.
Qed.

Lemma silent_gets {A} (f : World -> A) : silent (gets f).
Proof. intros w. split; reflexivity. Qed.

Lemma silent_lift {A} (c : completion A) : silent (lift c).
Proof. intros w. split; reflexivity. Qed.

Lemma silent_throw {A} (e : error) : silent (@throw A e).
Proof. intros w. split; reflexivity. Qed.

Lemma silent_getItem {A} (key : LocalStorage -> slot A) : silent (getItem key).
Proof. intros w. split; reflexivity. Qed.

Lemma silent_setItem {A} (set : slot A -> LocalStorage -> LocalStorage) v :
  silent (setItem set v).
Proof. intros w. split; reflexivity. Qed.

Lemma silent_Date_now : silent Date_now.
Proof. intros w. split; reflexivity. Qed.

Lemma silent_modify_pending f :
  silent (modify (fun w => with_pendingOperations (f w) w)).
Proof. intros w. split; reflexivity. Qed.

Lemma silent_clearLocalStorageData : silent clearLocalStorageData.
Proof. intros w. split; reflexivity. Qed.

Create HintDb silent.
#[local] Hint Resolve silent_ret silent_gets silent_lift silent_throw silent_getItem
  silent_setItem silent_Date_now silent_modify_pending silent_clearLocalStorageData : silent.

Ltac silent_step :=
  match goal with
  | |- silent (_ ≫= _) => apply silent_bind; [|intros]
  | |- silent (_ <$> _) => apply silent_fmap
  | |- silent (try_catch _ _) => apply silent_try_catch; [|intros]
  | |- silent (if ?b then _ else _) => destruct b
  | |- silent (match ?x with _ => _ end) => destruct x
  | |- silent _ => solve [auto with silent]
  end.

Ltac silent_auto := repeat silent_step.

Lemma silent_new_Date_toISOString : silent new_Date_toISOString.
Proof. unfold new_Date_toISOString. silent_auto. Qed.

Lemma silent_addPendingOperation e o : silent (addPendingOperation e o).
Proof. unfold addPendingOperation. silent_auto. Qed.

Lemma silent_getTasksFromLocalStorage : silent getTasksFromLocalStorage.
Proof. unfold getTasksFromLocalStorage. silent_auto. Qed.

Lemma silent_getSettingsFromLocalStorage : silent getSettingsFromLocalStorage.
Proof. unfold getSettingsFromLocalStorage. silent_auto. Qed.

Lemma silent_getStatisticsFromLocalStorage : silent getStatisticsFromLocalStorage.
Proof. unfold getStatisticsFromLocalStorage. silent_auto. Qed.

Lemma silent_getExpensesFromLocalStorage : silent getExpensesFromLocalStorage.
Proof. unfold getExpensesFromLocalStorage. silent_auto. Qed.

#[local] Hint Resolve silent_new_Date_toISOString silent_addPendingOperation
  silent_getTasksFromLocalStorage silent_getSettingsFromLocalStorage
  silent_getStatisticsFromLocalStorage silent_getExpensesFromLocalStorage : silent.

Lemma silent_saveTaskToLocalStorage task : silent (saveTaskToLocalStorage task).
Proof. unfold saveTaskToLocalStorage. silent_auto. Qed.

Lemma silent_deleteTaskFromLocalStorage id : silent (deleteTaskFromLocalStorage id).
Proof. unfold deleteTaskFromLocalStorage. silent_auto. Qed.

Lemma silent_setSettingInLocalStorage key value : silent (setSettingInLocalStorage key value).
Proof. unfold setSettingInLocalStorage. silent_auto. Qed.

Lemma silent_getSettingFromLocalStorage key d : silent (getSettingFromLocalStorage key d).
Proof. unfold getSettingFromLocalStorage. silent_auto. Qed.

Lemma silent_saveStatisticToLocalStorage date type data :
  silent (saveStatisticToLocalStorage date type data).
Proof. unfold saveStatisticToLocalStorage. silent_auto. Qed.

Lemma silent_exportDataFromLocalStorage : silent exportDataFromLocalStorage.
Proof. unfold exportDataFromLocalStorage. silent_auto. Qed.

Lemma silent_importDataToLocalStorage data : silent (importDataToLocalStorage data).
Proof. unfold importDataToLocalStorage. silent_auto. Qed.

Lemma silent_saveExpenseToLocalStorage expense : silent (saveExpenseToLocalStorage expense).
Proof. unfold saveExpenseToLocalStorage. silent_auto. Qed.

Lemma silent_deleteExpenseFromLocalStorage id : silent (deleteExpenseFromLocalStorage id).
Proof. unfold deleteExpenseFromLocalStorage. silent_auto. Qed.

#[local] Hint Resolve silent_saveTaskToLocalStorage silent_deleteTaskFromLocalStorage
  silent_setSettingInLocalStorage silent_getSettingFromLocalStorage
  silent_saveStatisticToLocalStorage silent_exportDataFromLocalStorage
  silent_importDataToLocalStorage silent_saveExpenseToLocalStorage
  silent_deleteExpenseFromLocalStorage : silent.

Lemma fetches_once_makeApiRequest e o : fetches_once (makeApiRequest e o).
Proof.
  intros w. destruct (makeApiRequest_effect e o w) as (Hreq & _ & Hon & _).
  rewrite Hreq, length_app. simpl. split; [lia|exact Hon].
Qed.

Lemma fetches_once_bind {A B} (m : M A) (f : A -> M B) :
  fetches_once m -> (forall a, silent (f a)) -> fetches_once (m ≫= f).
Proof.
  intros Hm Hf w. specialize (Hm w). unfold mbind, M_bind.
  destruct (m w) as [[a|e] w1]; cbn [fst snd] in *; [|exact Hm].
  destruct (Hf a w1) as [H1 H2]. destruct Hm as [H3 H4]. rewrite H1, H2. auto.
Qed.

Lemma fetches_once_fmap {A B} (g : A -> B) (m : M A) :
  fetches_once m -> fetches_once (g <$> m).
Proof.
  intros Hm w. specialize (Hm w). unfold fmap, M_fmap.
  destruct (m w) as [[a|e] w1]; exact Hm.
Qed.

(** The shape of a method of the facade: online it calls the remote API
    and goes on locally, offline and after a failure it works locally. *)
Lemma facade_shape {A} (remote local : M A) (h : error -> M A) :
  fetches_once remote -> silent local -> (forall err, silent (h err)) ->
  one_fetch_when_online
    (try_catch (online ← gets isOnline; if (online : bool) then remote else local) h).
Proof.
  intros Hr Hl Hh w.
  assert (E : try_catch (online ← gets isOnline;
                         if (online : bool) then remote else local) h w
              = match (if isOnline w then remote w else local w) with
                | (Normal a, w') => (Normal a, w')
                | (Thrown err, w') => h err w'
                end).
  { unfold try_catch, gets. unfold mbind at 1, M_bind at 1.
    destruct (isOnline w); reflexivity. }
  rewrite E. clear E. destruct (isOnline w) eqn:Hon.
  - pose proof (Hr w) as [H1 H2].
    destruct (remote w) as [[a|err] w1]; cbn [fst snd] in *.
    + split; [lia|congruence].
    + destruct (Hh err w1) as [H3 H4]. rewrite H3, H4. split; [lia|congruence].
  - pose proof (Hl w) as [H1 H2].
    destruct (local w) as [[a|err] w1]; cbn [fst snd] in *.
    + rewrite H1. split; [lia|congruence].
    + destruct (Hh err w1) as [H3 H4]. rewrite H3, H4, H1. split; [lia|congruence].
Qed.

(** The same with a local step behind the two branches. *)
Lemma facade_shape_then {A B} (remote local : M A) (rest : M B) (h : error -> M B) :
  fetches_once remote -> silent local -> silent rest -> (forall err, silent (h err)) ->
  one_fetch_when_online
    (try_catch (online ← gets isOnline;
                (if (online : bool) then remote else local);; rest) h).
Proof.
  intros Hr Hl Hrest Hh w.
  assert (E : try_catch (online ← gets isOnline;
                         (if (online : bool) then remote else local);; rest) h w
              = try_catch (online ← gets isOnline;
                           if (online : bool) then remote ≫= (fun _ => rest)
                           else local ≫= (fun _ => rest)) h w).
  { unfold try_catch, gets. cbv [mbind M_bind]. destruct (isOnline w); reflexivity. }
  rewrite E.
  exact (facade_shape (remote ≫= fun _ => rest) (local ≫= fun _ => rest) h
           (fetches_once_bind _ _ Hr (fun _ => Hrest))
           (silent_bind _ _ Hl (fun _ => Hrest)) Hh w).
Qed.

Ltac fetch_step :=
  match goal with
  | |- fetches_once (makeApiRequest _ _) => apply fetches_once_makeApiRequest
  | |- fetches_once (_ ≫= _) => apply fetches_once_bind; [|intros; silent_auto]
  | |- fetches_once (_ <$> _) => apply fetches_once_fmap
  end.

Lemma facade_calls_fetch_once :
  (forall task, one_fetch_when_online (saveTask task))
  /\ one_fetch_when_online getAllTasks
  /\ (forall id, one_fetch_when_online (getTask id))
  /\ (forall id, one_fetch_when_online (deleteTask id))
  /\ (forall key value, one_fetch_when_online (setSetting key value))
  /\ (forall key d, one_fetch_when_online (getSetting key d))
  /\ (forall date type data, one_fetch_when_online (saveStatistic date type data))
  /\ one_fetch_when_online getStatistics
  /\ one_fetch_when_online exportData
  /\ (forall data, one_fetch_when_online (importData data))
  /\ one_fetch_when_online clearAll
  /\ (forall expense, one_fetch_when_online (saveExpense expense))
  /\ (forall id, one_fetch_when_online (deleteExpense id)).
Proof.
  unfold saveTask, getAllTasks, getTask, deleteTask, setSetting, getSetting,
    saveStatistic, getStatistics, exportData, importData, clearAll, saveExpense,
    deleteExpense.
  repeat match goal with |- _ /\ _ => split end; intros.
  all: first [ apply facade_shape | apply facade_shape_then ];
    intros; repeat fetch_step; silent_auto.
Qed.

(** X3. A call of a data method of the facade calls [fetch] exactly once
    when the manager is online and not at all when it is offline: nothing
    is retried within the call and the fallback is local.  The
    connectivity flag is left as it was. *)
Theorem facade_calls_fetch_at_most_once (c : call) (w : World) :
  facade_call c = true ->
  exists w',
    run_call 0 c w = Some w'
    /\ length (requests w') = (length (requests w) + (if isOnline w then 1 else 0))%nat
    /\ isOnline w' = isOnline w.
Proof.
  destruct facade_calls_fetch_once
    as (H1 & H2 & H3 & H4 & H5 & H6 & H7 & H8 & H9 & H10 & H11 & H12 & H13).
  intros Hc. destruct c; try discriminate Hc; simpl; eexists; (split; [reflexivity|]);
    unfold exec.
  - apply H1.
  - apply H2.
  - apply H3.
  - apply H4.
  - apply H5.
  - apply H6.
  - apply H7.
  - apply H8.
  - apply H9.
  - apply H10.
  - apply H11.
  - apply H12.
  - apply H13.
Qed.

Lemma facade_calls_fetch_at_most_once_witness :
  exists w',
    run_call 0 GetAllTasks (sample_world net_down true Absent) = Some w'
    /\ length (requests w') = 1%nat
    /\ isOnline w' = true.
Proof.
  exact (facade_calls_fetch_at_most_once GetAllTasks (sample_world net_down true Absent)
           eq_refl).
Defined.

(** ** The facade never throws *)

Lemma never_throws_ret {A} (a : A) : never_throws (mret a).
Proof. intros w. exists a. reflexivity. Qed.

Lemma never_throws_bind {A B} (m : M A) (f : A -> M B) :
  never_throws m -> (forall a, never_throws (f a)) -> never_throws (m ≫= f).
Proof.
  intros Hm Hf w. destruct (Hm w) as [a Ha]. unfold mbind, M_bind.
  destruct (m w) as [[a'|e] w1]; simpl in *; [apply Hf | discriminate].
Qed.

Lemma never_throws_fmap {A B} (g : A -> B) (m : M A) :
  never_throws m -> never_throws (g <$> m).
Proof.
  intros Hm w. destruct (Hm w) as [a Ha]. unfold fmap, M_fmap.
  destruct (m w) as [[a'|e] w1]; simpl in *; [eauto | discriminate].
Qed.

(** A [try] whose handler cannot throw cannot throw. *)
Lemma never_throws_try_catch {A} (m : M A) (h : error -> M A) :
  (forall e, never_throws (h e)) -> never_throws (try_catch m h).
Proof.
  intros Hh w. unfold try_catch.
  destruct (m w) as [[a|e] w1]; [exists a; reflexivity | apply Hh].
Qed.

Lemma never_throws_gets {A} (f : World -> A) : never_throws (gets f).
Proof. intros w. eexists. reflexivity. Qed.

Lemma never_throws_getItem {A} (key : LocalStorage -> slot A) : never_throws (getItem key).
Proof. intros w. eexists. reflexivity. Qed.

Lemma never_throws_setItem {A} (set : slot A -> LocalStorage -> LocalStorage) v :
  never_throws (setItem set v).
Proof. intros w. eexists. reflexivity. Qed.

Lemma never_throws_Date_now : never_throws Date_now.
Proof. intros w. eexists. reflexivity. Qed.

Lemma never_throws_clearLocalStorageData : never_throws clearLocalStorageData.
Proof. intros w. eexists. reflexivity. Qed.

Create HintDb never_throws.
#[local] Hint Resolve never_throws_ret never_throws_gets never_throws_getItem
  never_throws_setItem never_throws_Date_now never_throws_clearLocalStorageData
  : never_throws.

Ltac never_throws_step :=
  match goal with
  | |- never_throws (try_catch _ _) => apply never_throws_try_catch; intros
  | |- never_throws (_ ≫= _) => apply never_throws_bind; [|intros]
  | |- never_throws (_ <$> _) => apply never_throws_fmap
  | |- never_throws (if ?b then _ else _) => destruct b
  | |- never_throws (match ?x with _ => _ end) => destruct x
  | |- never_throws _ => solve [auto with never_throws]
  end.

Ltac never_throws_auto := repeat never_throws_step.

Lemma never_throws_new_Date_toISOString : never_throws new_Date_toISOString.
Proof. unfold new_Date_toISOString. never_throws_auto. Qed.

Lemma never_throws_getTasksFromLocalStorage : never_throws getTasksFromLocalStorage.
Proof. unfold getTasksFromLocalStorage. never_throws_auto. Qed.

Lemma never_throws_getSettingsFromLocalStorage : never_throws getSettingsFromLocalStorage.
Proof. unfold getSettingsFromLocalStorage. never_throws_auto. Qed.

Lemma never_throws_getStatisticsFromLocalStorage : never_throws getStatisticsFromLocalStorage.
Proof. unfold getStatisticsFromLocalStorage. never_throws_auto. Qed.

Lemma never_throws_getExpensesFromLocalStorage : never_throws getExpensesFromLocalStorage.
Proof. unfold getExpensesFromLocalStorage. never_throws_auto. Qed.

#[local] Hint Resolve never_throws_new_Date_toISOString
  never_throws_getTasksFromLocalStorage never_throws_getSettingsFromLocalStorage
  never_throws_getStatisticsFromLocalStorage never_throws_getExpensesFromLocalStorage
  : never_throws.

Lemma never_throws_local :
  (forall task, never_throws (saveTaskToLocalStorage task))
  /\ (forall id, never_throws (deleteTaskFromLocalStorage id))
  /\ (forall key value, never_throws (setSettingInLocalStorage key value))
  /\ (forall key d, never_throws (getSettingFromLocalStorage key d))
  /\ (forall date type data, never_throws (saveStatisticToLocalStorage date type data))
  /\ never_throws exportDataFromLocalStorage
  /\ (forall data, never_throws (importDataToLocalStorage data))
  /\ (forall expense, never_throws (saveExpenseToLocalStorage expense))
  /\ (forall id, never_throws (deleteExpenseFromLocalStorage id)).
Proof.
  unfold saveTaskToLocalStorage, deleteTaskFromLocalStorage, setSettingInLocalStorage,
    getSettingFromLocalStorage, saveStatisticToLocalStorage, exportDataFromLocalStorage,
    importDataToLocalStorage, saveExpenseToLocalStorage, deleteExpenseFromLocalStorage.
  repeat match goal with |- _ /\ _ => split end; intros; never_throws_auto.
Qed.

(** X4. Whatever the remote API does (no answer, an error status, a body
    that is not JSON or has another shape) and whatever the connectivity
    flag and the queue are, no data method of the facade throws
    (rejects): a failure of the remote path is turned into the result of
    the localStorage path.  This is for the stores of this embedding: a
    slot is absent, holds text [JSON.parse] refuses, or holds a
    collection of the shape the manager writes, and [setItem]
    succeeds. *)
Theorem facade_never_throws :
  (forall task, never_throws (saveTask task))
  /\ never_throws getAllTasks
  /\ (forall id, never_throws (getTask id))
  /\ (forall id, never_throws (deleteTask id))
  /\ (forall key value, never_throws (setSetting key value))
  /\ (forall key d, never_throws (getSetting key d))
  /\ (forall date type data, never_throws (saveStatistic date type data))
  /\ never_throws getStatistics
  /\ never_throws exportData
  /\ (forall data, never_throws (importData data))
  /\ never_throws clearAll
  /\ (forall expense, never_throws (saveExpense expense))
  /\ (forall id, never_throws (deleteExpense id)).
Proof.
  destruct never_throws_local as (H1 & H2 & H3 & H4 & H5 & H6 & H7 & H8 & H9).
  unfold saveTask, getAllTasks, getTask, deleteTask, setSetting, getSetting,
    saveStatistic, getStatistics, exportData, importData, clearAll, saveExpense,
    deleteExpense.
  repeat match goal with |- _ /\ _ => split end; intros;
    apply never_throws_try_catch; intros; never_throws_auto; auto.
Qed.

(** ** Start-up, clearing, and what the local store holds *)

(** X5. [init()] with a health check that fails (network error or a status
    outside 200-299) does one request, GET /health, and touches neither
    the queue nor localStorage, also when the manager is online. *)
Theorem init_without_health_does_not_drain (w : World) (fuel : nat) :
  healthy (next_fetch w) = false ->
  init' fuel w = Some (sent "/health" health_options w).
Proof.
  unfold healthy, next_fetch, init', checkDatabaseConnection, sent. intros H.
  destruct (network w (length (requests w))) as [|status payload]; [reflexivity|].
  rewrite H. reflexivity.
Qed.

Lemma init_without_health_does_not_drain_witness :
  init' 9 (sample_world net_down true (Stored [opA; opB]))
  = Some (sent "/health" health_options (sample_world net_down true (Stored [opA; opB]))).
Proof.
  apply (init_without_health_does_not_drain
           (sample_world net_down true (Stored [opA; opB])) 9).
  reflexivity.
Defined.

(** X6. [init()] with a health check that succeeds drains the stored
    queue in order right behind the health request, whatever the
    connectivity flag says, and leaves the queue empty, its slot removed
    and the record collections untouched. *)
Theorem init_with_health_drains_in_order (w : World) (queue : list PendingOp) :
  healthy (next_fetch w) = true ->
  loaded_queue w = Normal queue ->
  queue <> [] ->
  settles_after w 1 ->
  exists w',
    init' (S (length queue)) w = Some w'
    /\ requests w' =
       requests w ++ {| url := "/health"; init := health_options |} :: (op_request <$> queue)
    /\ pendingOperations w' = []
    /\ PENDING_OPS (localStorage w') = Absent
    /\ collections w' = collections w.
Proof.
  intros Hh Hq Hne Hn.
  assert (E : init' (S (length queue)) w
              = syncPendingOperations (S (length queue)) (sent "/health" health_options w)).
  { unfold healthy, next_fetch, init', checkDatabaseConnection, sent in *.
    destruct (network w (length (requests w))) as [|status payload]; [discriminate|].
    rewrite Hh. reflexivity. }
  rewrite E.
  destruct (syncPendingOperations_healthy (sent "/health" health_options w) queue)
    as (w' & Hs & Hr & Hp & Hslot & Hc).
  - exact Hq.
  - exact Hne.
  - intros k Hk. apply (Hn k). simpl in Hk. rewrite length_app in Hk. simpl in Hk. lia.
  - exists w'. split; [exact Hs|]. rewrite Hr. simpl. rewrite <- app_assoc. auto.
Qed.

Lemma init_with_health_drains_in_order_witness :
  exists w',
    init' 3 (sample_world net_up false (Stored [opA; opB])) = Some w'
    /\ requests w' =
       [{| url := "/health"; init := health_options |}; op_request opA; op_request opB]
    /\ pendingOperations w' = []
    /\ PENDING_OPS (localStorage w') = Absent.
Proof.
  destruct (init_with_health_drains_in_order
              (sample_world net_up false (Stored [opA; opB])) [opA; opB])
    as (w' & H1 & H2 & H3 & H4 & _).
  - reflexivity.
  - reflexivity.
  - discriminate.
  - intros k _. reflexivity.
  - exists w'. auto.
Defined.

(** X7. When the slot of the queue holds text that is not JSON, a drain
    does nothing at all: no request, and the operations held in memory
    and the corrupt slot stay as they are. *)
Theorem corrupt_queue_slot_blocks_the_drain (w : World) (text : string) (fuel : nat) :
  PENDING_OPS (localStorage w) = Corrupt text ->
  text <> "" ->
  syncPendingOperations fuel w = Some w.
Proof.
  intros Hslot Ht. unfold syncPendingOperations, loaded_queue, parse_or. rewrite Hslot.
  simpl. destruct (String.eqb_spec text ""); [contradiction|reflexivity].
Qed.

Lemma corrupt_queue_slot_blocks_the_drain_witness :
  syncPendingOperations 5
    (with_pendingOperations [opA] (sample_world net_up true (Corrupt "[{")))
  = Some (with_pendingOperations [opA] (sample_world net_up true (Corrupt "[{"))).
Proof.
  apply (corrupt_queue_slot_blocks_the_drain _ "[{" 5); [reflexivity|discriminate].
Defined.

(** X8. [clearAll()] removes the four record collections and the stored
    copy of the queue, but not the queue held in memory; online with a
    failing remote API it even adds POST /clear to it. *)
Theorem clearAll_empties_localStorage_not_the_queue (w : World) :
  let w' := exec clearAll w in
  eval clearAll w = Normal tt
  /\ localStorage w' = empty_storage
  /\ pendingOperations w' =
     if isOnline w && negb (succeeds (next_fetch w))
     then pendingOperations w ++
          [{| endpoint := "/clear";
              options := {| method := Some "POST"; headers := None; body := None |};
              timestamp := clock w (ticks w) |}]
     else pendingOperations w.
Proof.
  unfold clearAll, eval, exec. run. destruct (isOnline w) eqn:Hon; simpl.
  - destruct (succeeds (next_fetch w)) eqn:Hs.
    + destruct (makeApiRequest_ok "/clear"
        {| method := Some "POST"; headers := None; body := None |} w Hs) as [j ->].
      simpl. auto.
    + destruct (makeApiRequest_fail "/clear"
        {| method := Some "POST"; headers := None; body := None |} w Hs) as [err ->].
      rewrite Hon. simpl. auto.
  - auto.
Qed.

Lemma setSettingInLocalStorage_run key value w :
  setSettingInLocalStorage key value w =
  (Normal tt,
   with_localStorage
     (set_SETTINGS (Stored (assign (stored_settings w) key value)) (localStorage w)) w).
Proof.
  unfold setSettingInLocalStorage. run. rewrite getSettingsFromLocalStorage_run. reflexivity.
Qed.

Lemma getSettingFromLocalStorage_run key dflt w :
  getSettingFromLocalStorage key dflt w
  = (Normal (member_or (stored_settings w) key dflt), w).
Proof.
  unfold getSettingFromLocalStorage. run. rewrite getSettingsFromLocalStorage_run. reflexivity.
Qed.

Lemma assign_other (o : obj) key value other :
  other <> key -> assign o key value !! other = o !! other.
Proof.
  intros Hne. unfold assign. destruct (_ && _); [reflexivity|].
  apply lookup_insert_ne. congruence.
Qed.

Lemma assign_own (o : obj) key value :
  key <> "__proto__" \/ o !! "__proto__" <> None ->
  assign o key value = <[key := value]> o.
Proof.
  intros H. unfold assign. destruct (String.eqb_spec key "__proto__") as [->|Hk].
  - destruct H as [H|H]; [congruence|].
    rewrite bool_decide_eq_false_2 by exact H. reflexivity.
  - reflexivity.
Qed.

Lemma assign_proto (o : obj) value :
  o !! "__proto__" = None -> assign o "__proto__" value = o.
Proof. intros H. unfold assign. rewrite bool_decide_eq_true_2 by exact H. reflexivity. Qed.

(** Offline, a method of the facade is its local branch. *)
Lemma offline_facade {A} (remote local : M A) (h : error -> M A) w :
  isOnline w = false ->
  (exists a, fst (local w) = Normal a) ->
  try_catch (online ← gets isOnline; if (online : bool) then remote else local) h w
  = local w.
Proof.
  intros Hoff [a Ha]. unfold try_catch, gets. unfold mbind at 1, M_bind at 1.
  rewrite Hoff. destruct (local w) as [[a'|e] w1]; [reflexivity|discriminate].
Qed.

(** X9. Offline, [setSetting] assigns the key on the stored settings
    object and [getSetting] reads it with [settings[key]], so that: for
    every key but [__proto__] (and for [__proto__] when the stored object
    has it as a property of its own) [getSetting] after [setSetting]
    gives the value set; [setSetting] of [__proto__] otherwise leaves the
    stored settings as they were and [getSetting] gives the prototype,
    not the value; the other keys read as before; and a key that is not
    stored reads as the default unless [Object.prototype] has a member of
    that name, which is then what is returned. *)
Theorem offline_setting_round_trip (w : World) (key : string) (value dflt : json) :
  isOnline w = false ->
  let w' := exec (setSetting key value) w in
  (key <> "__proto__" \/ stored_settings w !! "__proto__" <> None ->
     eval (getSetting key dflt) w' = Normal (Data value))
  /\ (key = "__proto__" -> stored_settings w !! "__proto__" = None ->
       stored_settings w' = stored_settings w
       /\ eval (getSetting key dflt) w' = Normal (PrototypeMember "__proto__"))
  /\ (forall other, other <> key ->
        eval (getSetting other dflt) w' = eval (getSetting other dflt) w)
  /\ (stored_settings w !! key = None ->
        eval (getSetting key dflt) w
        = Normal (if inherited key then PrototypeMember key else Data dflt)).
Proof.
  intros Hoff w'.
  assert (Hw' : w' = with_localStorage
            (set_SETTINGS (Stored (assign (stored_settings w) key value)) (localStorage w)) w).
  { unfold w', exec, setSetting. rewrite offline_facade.
    - rewrite setSettingInLocalStorage_run. reflexivity.
    - exact Hoff.
    - rewrite setSettingInLocalStorage_run. eexists. reflexivity. }
  assert (Hget : forall k v, isOnline v = false ->
            eval (getSetting k dflt) v = Normal (member_or (stored_settings v) k dflt)).
  { intros k v Hv. unfold eval, getSetting. rewrite offline_facade.
    - rewrite getSettingFromLocalStorage_run. reflexivity.
    - exact Hv.
    - rewrite getSettingFromLocalStorage_run. eexists. reflexivity. }
  assert (Hoff' : isOnline w' = false) by (rewrite Hw'; exact Hoff).
  assert (Hs : stored_settings w' = assign (stored_settings w) key value)
    by (rewrite Hw'; reflexivity).
  split; [|split; [|split]].
  - intros Hown. rewrite Hget by exact Hoff'. rewrite Hs, (assign_own _ _ _ Hown).
    unfold member_or. rewrite lookup_insert_eq. reflexivity.
  - intros -> Hnone. rewrite Hget by exact Hoff'. rewrite Hs, (assign_proto _ _ Hnone).
    split; [reflexivity|]. unfold member_or. rewrite Hnone. reflexivity.
  - intros other Hne. rewrite !Hget by assumption. unfold member_or.
    rewrite Hs, (assign_other _ _ _ _ Hne). reflexivity.
  - intros Hnone. rewrite Hget by exact Hoff. unfold member_or. rewrite Hnone. reflexivity.
Qed.

Lemma offline_setting_round_trip_witness :
  let w := sample_world net_down false Absent in
  eval (getSetting "theme" JNull) (exec (setSetting "theme" (JStr "dark")) w)
    = Normal (Data (JStr "dark"))
  /\ eval (getSetting "__proto__" JNull) (exec (setSetting "__proto__" (JNum 5)) w)
     = Normal (PrototypeMember "__proto__")
  /\ eval (getSetting "constructor" JNull) w = Normal (PrototypeMember "constructor")
  /\ eval (getSetting "language" (JStr "en")) w = Normal (Data (JStr "en")).
Proof.
  intros w.
  destruct (offline_setting_round_trip w "theme" (JStr "dark") JNull eq_refl)
    as (H1 & _).
  destruct (offline_setting_round_trip w "__proto__" (JNum 5) JNull eq_refl)
    as (_ & H2 & _).
  destruct (offline_setting_round_trip w "constructor" JNull JNull eq_refl)
    as (_ & _ & _ & H3).
  destruct (offline_setting_round_trip w "language" JNull (JStr "en") eq_refl)
    as (_ & _ & _ & H4).
  split; [apply H1; left; discriminate|].
  split; [exact (proj2 (H2 eq_refl eq_refl))|].
  split; [exact (H3 eq_refl) | exact (H4 eq_refl)].
Defined.

(** ** Tasks and expenses in the local store *)

Lemma strict_eq_sym a b : strict_eq a b = strict_eq b a.
Proof.
  destruct a as [[| x | x | x | x | x]|], b as [[| y | y | y | y | y]|]; simpl; try reflexivity.
  - destruct x, y; reflexivity.
  - apply Z.eqb_sym.
  - apply String.eqb_sym.
Qed.

Lemma strict_eq_eq a b : strict_eq a b = true -> a = b.
Proof.
  destruct a as [[| x | x | x | x | x]|], b as [[| y | y | y | y | y]|]; simpl;
    try discriminate; try reflexivity; intros H.
  - destruct x, y; try discriminate; reflexivity.
  - apply Z.eqb_eq in H. congruence.
  - apply String.eqb_eq in H. congruence.
Qed.

Lemma find_first {A} (p : A -> bool) l i x :
  l !! i = Some x -> p x = true ->
  (forall j y, (j < i)%nat -> l !! j = Some y -> p y = false) ->
  find p l = Some x.
Proof.
  revert i. induction l as [|a l IH]; intros i Hx Hp Hfirst; [discriminate|].
  destruct i as [|i]; simpl in *.
  - inversion Hx; subst. rewrite Hp. reflexivity.
  - rewrite (Hfirst 0%nat a) by (simpl; auto; lia).
    apply (IH i Hx Hp). intros j y Hj Hy. apply (Hfirst (S j) y); [lia|exact Hy].
Qed.

(** The written record is the first stored record with the id of a task
    that has one. *)
Lemma find_written_record task record l :
  truthy (task !! "id") = true ->
  same_id (task !! "id") record = true ->
  find (same_id (task !! "id")) (saved_over task record l) = Some record.
Proof.
  intros Hid Hrec. unfold saved_over. rewrite Hid.
  destruct (findIndex (same_id (task !! "id")) l) as [i|] eqn:Hi.
  - destruct (findIndex_Some _ _ _ Hi) as [(x & Hx & _) Hfirst].
    apply (find_first _ _ i).
    + apply list_lookup_insert_eq. eapply lookup_lt_Some; eauto.
    + exact Hrec.
    + intros j y Hj Hy. rewrite list_lookup_insert_ne in Hy by lia. eapply Hfirst; eauto.
  - pose proof (findIndex_None _ _ Hi) as Hnone.
    apply (find_first _ _ (length l)).
    + rewrite lookup_app_r by lia. rewrite Nat.sub_diag. reflexivity.
    + exact Hrec.
    + intros j y Hj Hy. rewrite lookup_app_l in Hy by lia.
      apply Hnone. apply list_elem_of_lookup. eauto.
Qed.

Lemma offline_saveTask_run task w :
  isOnline w = false ->
  saveTask task w = (JObj <$> saveTaskToLocalStorage task) w.
Proof.
  intros Hoff. unfold saveTask. apply offline_facade; [exact Hoff|].
  unfold fmap, M_fmap. rewrite saveTaskToLocalStorage_run. eexists. reflexivity.
Qed.

(** X10. Offline, a task saved with an id (one that [===] finds equal to
    itself) is what [getTask] of that id returns, with the refreshed
    [updatedAt], and is among the tasks of [getAllTasks]; the content of
    the queue plays no part in the read. *)
Theorem offline_saveTask_then_read (w : World) (task : obj) :
  isOnline w = false ->
  strict_eq (task !! "id") (task !! "id") = true ->
  truthy (task !! "id") = true ->
  let w' := exec (saveTask task) w in
  let record := <["updatedAt" := JStr (JSDate.toISOString (clock w (ticks w)))]> task in
  eval (getTask (task !! "id")) w' = Normal (Some (JObj record))
  /\ (exists l, eval getAllTasks w' = Normal (JArr l) /\ JObj record ∈ l)
  /\ forall q, eval (getTask (task !! "id")) (with_pendingOperations q w')
               = Normal (Some (JObj record)).
Proof.
  intros Hoff Hprim Hid w' record.
  assert (Hw' : stored_tasks w' = saved_over task record (stored_tasks w)
                /\ isOnline w' = false).
  { unfold w', exec. rewrite (offline_saveTask_run task w Hoff).
    unfold fmap, M_fmap. rewrite saveTaskToLocalStorage_run. cbn [snd].
    unfold written_record. rewrite Hid. split; [reflexivity|exact Hoff]. }
  destruct Hw' as [Hst Hoff'].
  assert (Hrec : same_id (task !! "id") record = true).
  { unfold same_id, record. rewrite lookup_insert_ne by discriminate. exact Hprim. }
  assert (Hget : forall v, isOnline v = false -> stored_tasks v = stored_tasks w' ->
            eval (getTask (task !! "id")) v = Normal (Some (JObj record))).
  { intros v Hv Hsame. unfold eval, getTask. rewrite offline_facade.
    - run. rewrite getTasksFromLocalStorage_run. cbn [fst]. rewrite Hsame, Hst.
      rewrite (find_written_record task record _ Hid Hrec). reflexivity.
    - exact Hv.
    - run. rewrite getTasksFromLocalStorage_run. eexists. reflexivity. }
  split; [|split].
  - apply Hget; [exact Hoff'|reflexivity].
  - exists (JObj <$> stored_tasks w'). split.
    + unfold eval, getAllTasks. rewrite offline_facade.
      * unfold fmap at 1, M_fmap. rewrite getTasksFromLocalStorage_run. reflexivity.
      * exact Hoff'.
      * unfold fmap at 1, M_fmap. rewrite getTasksFromLocalStorage_run. eexists. reflexivity.
    + rewrite Hst. apply list_elem_of_fmap. exists record. split; [reflexivity|].
      apply saved_over_elem.
  - intros q. apply Hget; [exact Hoff'|reflexivity].
Qed.

Lemma offline_saveTask_then_read_witness :
  let w := sample_world net_down false Absent in
  let task : obj := <["id" := JNum 7]> sample_task in
  eval (getTask (Some (JNum 7))) (exec (saveTask task) w)
  = Normal (Some (JObj (<["updatedAt" := JStr (JSDate.toISOString (clock w (ticks w)))]> task))).
Proof.
  intros w task.
  exact (proj1 (offline_saveTask_then_read w task eq_refl eq_refl eq_refl)).
Defined.

Lemma saveTaskToLocalStorage_new task w :
  truthy (task !! "id") = false ->
  eval (saveTaskToLocalStorage task) w = Normal (written_record task w)
  /\ stored_tasks (exec (saveTaskToLocalStorage task) w)
     = stored_tasks w ++ [written_record task w]
  /\ ticks (exec (saveTaskToLocalStorage task) w) = (3 + ticks w)%nat
  /\ clock (exec (saveTaskToLocalStorage task) w) = clock w
  /\ written_record task w !! "id" = Some (JStr ("temp_" +:+ pretty (clock w (ticks w)))).
Proof.
  intros H. unfold eval, exec. rewrite saveTaskToLocalStorage_run. cbn [fst snd].
  unfold saved_over, written_record. rewrite H. unfold stored_tasks at 1. simpl.
  repeat split; try reflexivity.
  rewrite !lookup_insert_ne by discriminate. apply lookup_insert_eq.
Qed.

(** X11. Two tasks saved without an id while the clock shows the same
    millisecond get the same temporary id: both are stored, one after the
    other, and the ids of the collection are no longer distinct. *)
Theorem temporary_ids_collide_within_a_millisecond (w : World) (t1 t2 : obj) :
  truthy (t1 !! "id") = false ->
  truthy (t2 !! "id") = false ->
  clock w (3 + ticks w) = clock w (ticks w) ->
  let w1 := exec (saveTaskToLocalStorage t1) w in
  let w2 := exec (saveTaskToLocalStorage t2) w1 in
  exists r1 r2,
    eval (saveTaskToLocalStorage t1) w = Normal r1
    /\ eval (saveTaskToLocalStorage t2) w1 = Normal r2
    /\ stored_tasks w2 = stored_tasks w ++ [r1; r2]
    /\ r1 !! "id" = r2 !! "id"
    /\ ~ distinct_ids (stored_tasks w2).
Proof.
  intros H1 H2 Hclock w1 w2.
  destruct (saveTaskToLocalStorage_new t1 w H1) as (E1 & S1 & T1 & C1 & I1).
  destruct (saveTaskToLocalStorage_new t2 w1 H2) as (E2 & S2 & T2 & C2 & I2).
  fold w1 in S1, T1, C1. fold w2 in S2.
  exists (written_record t1 w), (written_record t2 w1).
  assert (Hsame : written_record t1 w !! "id" = written_record t2 w1 !! "id").
  { rewrite I1, I2, C1, T1, Hclock. reflexivity. }
  assert (Hst : stored_tasks w2 = stored_tasks w ++ [written_record t1 w; written_record t2 w1]).
  { rewrite S2, S1, <- app_assoc. reflexivity. }
  split; [exact E1|]. split; [exact E2|]. split; [exact Hst|]. split; [exact Hsame|].
  intros Hd. rewrite Hst in Hd.
  specialize (Hd (length (stored_tasks w)) (S (length (stored_tasks w)))
                (written_record t1 w) (written_record t2 w1)).
  assert (length (stored_tasks w) = S (length (stored_tasks w))); [|lia].
  apply Hd.
  - rewrite lookup_app_r by lia. rewrite Nat.sub_diag. reflexivity.
  - rewrite lookup_app_r by lia. replace (S _ - _)%nat with 1%nat by lia. reflexivity.
  - rewrite <- Hsame, I1. simpl. apply String.eqb_refl.
Qed.

Lemma temporary_ids_collide_within_a_millisecond_witness :
  let w := {| isOnline := false; pendingOperations := []; localStorage := empty_storage;
              network := net_down; requests := []; clock := frozen_clock; ticks := 0 |} in
  exists r1 r2,
    eval (saveTaskToLocalStorage sample_task) w = Normal r1
    /\ eval (saveTaskToLocalStorage sample_task) (exec (saveTaskToLocalStorage sample_task) w)
       = Normal r2
    /\ r1 !! "id" = r2 !! "id".
Proof.
  intros w.
  destruct (temporary_ids_collide_within_a_millisecond w sample_task sample_task
              eq_refl eq_refl eq_refl) as (r1 & r2 & H1 & H2 & _ & H3 & _).
  exists r1, r2. auto.
Defined.

Lemma strict_eq_trans a b c :
  strict_eq a b = true -> strict_eq b c = true -> strict_eq a c = true.
Proof. intros H1 H2. apply strict_eq_eq in H1. subst b. exact H2. Qed.

(** X12. Saving a task that has an id keeps the ids of the stored tasks
    distinct: the record with that id is replaced in place, or the task
    is appended when no record has it. *)
Theorem saving_with_an_id_keeps_ids_distinct (w : World) (task : obj) :
  truthy (task !! "id") = true ->
  distinct_ids (stored_tasks w) ->
  distinct_ids (stored_tasks (exec (saveTaskToLocalStorage task) w)).
Proof.
  intros Hid Hd. unfold exec. rewrite saveTaskToLocalStorage_run. cbn [snd].
  unfold stored_tasks at 1. simpl. unfold saved_over, written_record. rewrite Hid.
  set (record := <["updatedAt" := _]> task).
  assert (Hrid : record !! "id" = task !! "id")
    by (unfold record; apply lookup_insert_ne; discriminate).
  destruct (findIndex (same_id (task !! "id")) (stored_tasks w)) as [i|] eqn:Hi.
  - destruct (findIndex_Some _ _ _ Hi) as [(old & Hold & Hsame) _].
    unfold same_id in Hsame.
    assert (Hlt : (i < length (stored_tasks w))%nat) by (eapply lookup_lt_Some; eauto).
    intros a b x y Ha Hb Heq.
    destruct (decide (a = i)) as [->|Hai], (decide (b = i)) as [->|Hbi]; [reflexivity| | |].
    + rewrite list_lookup_insert_eq in Ha by exact Hlt. inversion Ha; subst x.
      rewrite list_lookup_insert_ne in Hb by congruence.
      rewrite Hrid in Heq. symmetry. apply (Hd b i y old Hb Hold).
      rewrite strict_eq_sym. apply (strict_eq_trans _ _ _ Hsame Heq).
    + rewrite list_lookup_insert_eq in Hb by exact Hlt. inversion Hb; subst y.
      rewrite list_lookup_insert_ne in Ha by congruence.
      rewrite Hrid in Heq. apply (Hd a i x old Ha Hold).
      apply (strict_eq_trans _ _ _ Heq). rewrite strict_eq_sym. exact Hsame.
    + rewrite list_lookup_insert_ne in Ha, Hb by congruence. exact (Hd a b x y Ha Hb Heq).
  - pose proof (findIndex_None _ _ Hi) as Hnone. unfold same_id in Hnone.
    intros a b x y Ha Hb Heq.
    destruct (decide (a < length (stored_tasks w))%nat) as [Hla|Hla],
             (decide (b < length (stored_tasks w))%nat) as [Hlb|Hlb].
    + rewrite lookup_app_l in Ha, Hb by lia. exact (Hd a b x y Ha Hb Heq).
    + rewrite lookup_app_l in Ha by lia. rewrite lookup_app_r in Hb by lia.
      destruct (b - length (stored_tasks w))%nat as [|k] eqn:E; [|destruct k; discriminate].
      inversion Hb; subst y. rewrite Hrid in Heq.
      rewrite (Hnone x) in Heq; [discriminate|]. apply list_elem_of_lookup. eauto.
    + rewrite lookup_app_l in Hb by lia. rewrite lookup_app_r in Ha by lia.
      destruct (a - length (stored_tasks w))%nat as [|k] eqn:E; [|destruct k; discriminate].
      inversion Ha; subst x. rewrite Hrid, strict_eq_sym in Heq.
      rewrite (Hnone y) in Heq; [discriminate|]. apply list_elem_of_lookup. eauto.
    + rewrite lookup_app_r in Ha, Hb by lia.
      destruct (a - length (stored_tasks w))%nat as [|k] eqn:Ea; [|destruct k; discriminate].
      destruct (b - length (stored_tasks w))%nat as [|k] eqn:Eb; [|destruct k; discriminate].
      lia.
Qed.

Lemma saving_with_an_id_keeps_ids_distinct_witness :
  distinct_ids
    (stored_tasks (exec (saveTaskToLocalStorage (<["id" := JNum 7]> sample_task))
                     (sample_world net_down false Absent))).
Proof.
  apply saving_with_an_id_keeps_ids_distinct; [reflexivity|].
  intros i j x y Hi. destruct i; discriminate Hi.
Defined.

Lemma filter_sublist {A} (p : A -> bool) l : sublist (List.filter p l) l.
Proof.
  induction l as [|a l IH]; simpl; [constructor|].
  destruct (p a); [apply sublist_skip | apply sublist_cons]; exact IH.
Qed.

Lemma distinct_ids_tail x l : distinct_ids (x :: l) -> distinct_ids l.
Proof.
  intros H i j a b Ha Hb Heq.
  assert (S i = S j) by (apply (H (S i) (S j) a b); assumption). lia.
Qed.

Lemma distinct_ids_sublist l1 l2 : sublist l1 l2 -> distinct_ids l2 -> distinct_ids l1.
Proof.
  induction 1 as [|x l1 l2 Hsub IH|x l1 l2 Hsub IH]; intros Hd.
  - intros i j a b Ha. destruct i; discriminate Ha.
  - pose proof (IH (distinct_ids_tail _ _ Hd)) as Hd1.
    assert (Hhead : forall k y, l1 !! k = Some y ->
              strict_eq (x !! "id") (y !! "id") = false).
    { intros k y Hy. destruct (strict_eq (x !! "id") (y !! "id")) eqn:E; [|reflexivity].
      assert (Hin : y ∈ l2).
      { eapply elem_of_sublist; [|exact Hsub]. apply list_elem_of_lookup. eauto. }
      apply list_elem_of_lookup in Hin as [k' Hk'].
      assert (0 = S k')%nat by (apply (Hd 0%nat (S k') x y); auto). lia. }
    intros [|i] [|j] a b Ha Hb Heq; simpl in Ha, Hb.
    + reflexivity.
    + inversion Ha; subst a. rewrite (Hhead j b Hb) in Heq. discriminate.
    + inversion Hb; subst b. rewrite strict_eq_sym, (Hhead i a Ha) in Heq. discriminate.
    + f_equal. exact (Hd1 i j a b Ha Hb Heq).
  - apply IH. exact (distinct_ids_tail _ _ Hd).
Qed.

(** X13. [deleteTaskFromLocalStorage] removes exactly the records whose
    id [===] the argument: the others stay, in their order, distinct ids
    stay distinct, and neither the queue nor the remote API is touched. *)
Theorem deleteTaskFromLocalStorage_removes_only_that_id (w : World) (id : option json) :
  let w' := exec (deleteTaskFromLocalStorage id) w in
  (forall t, t ∈ stored_tasks w' <-> t ∈ stored_tasks w /\ same_id id t = false)
  /\ sublist (stored_tasks w') (stored_tasks w)
  /\ (distinct_ids (stored_tasks w) -> distinct_ids (stored_tasks w'))
  /\ pendingOperations w' = pendingOperations w
  /\ requests w' = requests w.
Proof.
  unfold exec. rewrite deleteTaskFromLocalStorage_run. cbn [snd].
  unfold stored_tasks at 1 3 5. simpl.
  split; [|split; [apply filter_sublist|split; [|auto]]].
  - intros t. rewrite !list_elem_of_In, filter_In, negb_true_iff. reflexivity.
  - apply distinct_ids_sublist, filter_sublist.
Qed.

(** X14. Online with a remote API that takes the call, [saveTask] only
    sends the request: localStorage is not written, so a later offline
    read does not show the task. *)
Theorem online_saveTask_is_not_mirrored (w : World) (task : obj) :
  isOnline w = true ->
  succeeds (next_fetch w) = true ->
  let w' := exec (saveTask task) w in
  w' = sent "/tasks" (save_options task) w
  /\ localStorage w' = localStorage w
  /\ pendingOperations w' = pendingOperations w
  /\ eval getAllTasks (on_offline w') = eval getAllTasks (on_offline w).
Proof.
  intros Hon Hs w'.
  assert (Hw' : w' = sent "/tasks" (save_options task) w).
  { unfold w', exec, saveTask, try_catch, gets. unfold mbind at 1, M_bind at 1.
    rewrite Hon. destruct (makeApiRequest_ok "/tasks" (save_options task) w Hs) as [j ->].
    reflexivity. }
  rewrite Hw'. repeat split; try reflexivity.
  unfold eval, getAllTasks. rewrite !offline_facade; try reflexivity.
  - unfold fmap, M_fmap. rewrite !getTasksFromLocalStorage_run. reflexivity.
  - unfold fmap, M_fmap. rewrite getTasksFromLocalStorage_run. eexists. reflexivity.
  - unfold fmap, M_fmap. rewrite getTasksFromLocalStorage_run. eexists. reflexivity.
Qed.

Lemma online_saveTask_is_not_mirrored_witness :
  let w := sample_world net_up true Absent in
  localStorage (exec (saveTask sample_task) w) = localStorage w
  /\ eval getAllTasks (on_offline (exec (saveTask sample_task) w)) = Normal (JArr []).
Proof.
  intros w.
  destruct (online_saveTask_is_not_mirrored w sample_task eq_refl eq_refl)
    as (_ & H1 & _ & H2).
  split; [exact H1|]. rewrite H2. reflexivity.
Defined.

Lemma getExpensesFromLocalStorage_run w :
  getExpensesFromLocalStorage w = (Normal (stored_expenses w), w).
Proof.
  unfold getExpensesFromLocalStorage, stored_expenses, parse_or. run.
  destruct (EXPENSES (localStorage w)) as [|l|s]; simpl; try reflexivity.
  destruct (String.eqb s ""); reflexivity.
Qed.


Lemma deleteExpenseFromLocalStorage_run id w :
  deleteExpenseFromLocalStorage id w =
  (Normal tt,
   with_localStorage
     (set_EXPENSES (Stored (List.filter (fun t => negb (same_id id t)) (stored_expenses w)))
        (localStorage w)) w).
Proof.
  unfold deleteExpenseFromLocalStorage. run. rewrite getExpensesFromLocalStorage_run.
  reflexivity.
Qed.



Lemma deleteExpense_run id w :
  deleteExpense id w =
  deleteExpenseFromLocalStorage id
    (if isOnline w then snd (makeApiRequest ("/expenses/" +:+ to_string id) delete_options w)
     else exec (addPendingOperation ("/expenses/" +:+ to_string id) delete_options) w).
Proof.
  unfold deleteExpense, try_catch, gets, exec. fold delete_options.
  cbv [mbind M_bind mret M_ret]. destruct (isOnline w).
  - destruct (makeApiRequest ("/expenses/" +:+ to_string id) delete_options w)
      as [[j|err] w1]; cbn [snd]; rewrite deleteExpenseFromLocalStorage_run; reflexivity.
  - rewrite addPendingOperation_run. cbn [snd].
    rewrite deleteExpenseFromLocalStorage_run. reflexivity.
Qed.

(** X16. [deleteExpense] always removes the expense from the local
    collection and returns normally; the DELETE is requested when the
    manager is online, and queued when it is offline or the request
    fails. *)
Theorem deleteExpense_always_removes_locally (w : World) (id : option json) :
  let w' := exec (deleteExpense id) w in
  let request := {| url := "/expenses/" +:+ to_string id; init := delete_options |} in
  eval (deleteExpense id) w = Normal tt
  /\ (forall e, e ∈ stored_expenses w' <-> e ∈ stored_expenses w /\ same_id id e = false)
  /\ op_request <$> pendingOperations w' =
     (op_request <$> pendingOperations w) ++ (if remote_takes w then [] else [request])
  /\ requests w' = requests w ++ (if isOnline w then [request] else []).
Proof.
  assert (Hin : forall (l : list obj) e,
            e ∈ List.filter (fun t => negb (same_id id t)) l <-> e ∈ l /\ same_id id e = false).
  { intros l e. rewrite !list_elem_of_In, filter_In, negb_true_iff. reflexivity. }
  unfold remote_takes, eval, exec. rewrite deleteExpense_run.
  rewrite deleteExpenseFromLocalStorage_run. cbn [fst snd].
  destruct (isOnline w) eqn:Hon; cbn [andb].
  - destruct (succeeds (next_fetch w)) eqn:Hs.
    + destruct (makeApiRequest_ok ("/expenses/" +:+ to_string id) delete_options w Hs)
        as [j ->]. unfold stored_expenses at 1. simpl. rewrite app_nil_r.
      split; [reflexivity|]. split; [apply Hin|]. split; reflexivity.
    + destruct (makeApiRequest_fail ("/expenses/" +:+ to_string id) delete_options w Hs)
        as [err ->]. rewrite Hon. cbn [andb snd]. unfold stored_expenses at 1. simpl.
      rewrite fmap_app.
      split; [reflexivity|]. split; [apply Hin|]. split; reflexivity.
  - unfold exec. rewrite addPendingOperation_run. unfold stored_expenses at 1. simpl.
    rewrite fmap_app, app_nil_r.
    split; [reflexivity|]. split; [apply Hin|]. split; reflexivity.
Qed.

(** ** StorageManager on its localStorage fallback *)

Lemma StorageManager_getStatistics_local sw :
  StorageManager.indexed sw = None ->
  StorageManager.getStatistics sw
  = (Normal (records (StorageManager.STATISTICS (StorageManager.localStorage sw))), sw).
Proof.
  intros H. unfold StorageManager.getStatistics. run_sm. rewrite H.
  unfold parse_or.
  destruct (StorageManager.STATISTICS (StorageManager.localStorage sw)) as [|l|s]; simpl;
    try reflexivity.
  destruct (String.eqb s ""); reflexivity.
Qed.

Lemma StorageManager_getTask_local id sw :
  StorageManager.indexed sw = None ->
  StorageManager.getTask id sw
  = (Normal (JObj <$> find (StorageManager.has_key "id" id)
                        (records (StorageManager.TASKS (StorageManager.localStorage sw)))),
     sw).
Proof.
  intros H. unfold StorageManager.getTask. run_sm. rewrite H.
  rewrite (StorageManager_getAllTasks_local sw H). reflexivity.
Qed.

Lemma StorageManager_getSetting_local key dflt sw :
  StorageManager.indexed sw = None ->
  StorageManager.getSetting key dflt sw
  = (Normal (Some (setting_or
                     (StorageManager.SETTINGS (StorageManager.localStorage sw) key) dflt)),
     sw).
Proof.
  intros H. unfold StorageManager.getSetting. run_sm. rewrite H. unfold parse_or.
  destruct (StorageManager.SETTINGS (StorageManager.localStorage sw) key) as [|v|s]; simpl;
    try reflexivity.
  destruct (String.eqb s ""); reflexivity.
Qed.

(** X17. On the localStorage fallback the reads of [StorageManager] never
    throw and change nothing: they give what the slot holds, and the empty
    list, null or the default when the slot is absent or holds text that
    is not JSON. *)
Theorem StorageManager_reads_local_never_throw
    (sw : StorageManager.World) (id : option json) (key : string) (dflt : json) :
  StorageManager.indexed sw = None ->
  let stored := StorageManager.localStorage sw in
  StorageManager.getAllTasks sw = (Normal (records (StorageManager.TASKS stored)), sw)
  /\ StorageManager.getStatistics sw
     = (Normal (records (StorageManager.STATISTICS stored)), sw)
  /\ StorageManager.getSetting key dflt sw
     = (Normal (Some (setting_or (StorageManager.SETTINGS stored key) dflt)), sw)
  /\ (exists r, StorageManager.getTask id sw = (Normal r, sw))
  /\ (forall text, StorageManager.TASKS stored = Corrupt text ->
        fst (StorageManager.getAllTasks sw) = Normal []
        /\ fst (StorageManager.getTask id sw) = Normal None)
  /\ (forall text, StorageManager.SETTINGS stored key = Corrupt text ->
        fst (StorageManager.getSetting key dflt sw) = Normal (Some dflt)).
Proof.
  intros H stored. unfold stored.
  rewrite (StorageManager_getAllTasks_local sw H), (StorageManager_getStatistics_local sw H),
    (StorageManager_getSetting_local key dflt sw H), (StorageManager_getTask_local id sw H).
  split; [reflexivity|]. split; [reflexivity|]. split; [reflexivity|].
  split; [eexists; reflexivity|]. split.
  - intros text E. rewrite E. split; reflexivity.
  - intros text E. rewrite E. reflexivity.
Qed.

Lemma StorageManager_reads_local_never_throw_witness :
  fst (StorageManager.getAllTasks corrupt_local_manager) = Normal []
  /\ fst (StorageManager.getTask (Some (JNum 7)) corrupt_local_manager) = Normal None
  /\ fst (StorageManager.getSetting "theme" (JStr "light") corrupt_local_manager)
     = Normal (Some (JStr "light")).
Proof.
  destruct (StorageManager_reads_local_never_throw corrupt_local_manager
              (Some (JNum 7)) "theme" (JStr "light") eq_refl)
    as (_ & _ & _ & _ & H1 & H2).
  destruct (H1 "[{oops" eq_refl) as [Ha Hb].
  split; [exact Ha|]. split; [exact Hb|]. exact (H2 "{" eq_refl).
Defined.

Lemma StorageManager_saveTask_local task sw :
  StorageManager.indexed sw = None ->
  StorageManager.saveTask task sw =
  (Normal task,
   StorageManager.with_localStorage
     (StorageManager.set_TASKS
        (Stored (StorageManager.put "id" task
                   (records (StorageManager.TASKS (StorageManager.localStorage sw)))))
        (StorageManager.localStorage sw)) sw).
Proof.
  intros H. unfold StorageManager.saveTask. run_sm. rewrite H.
  rewrite (StorageManager_getAllTasks_local sw H). reflexivity.
Qed.

Lemma find_elem {A} (p : A -> bool) l x : find p l = Some x -> x ∈ l.
Proof.
  induction l as [|a l IH]; simpl; intros E; [discriminate E|].
  destruct (p a).
  - inversion E; subst. apply elem_of_cons; auto.
  - apply elem_of_cons; right; auto.
Qed.

Lemma find_put keyPath record l :
  StorageManager.has_key keyPath (record !! keyPath) record = true ->
  find (StorageManager.has_key keyPath (record !! keyPath))
    (StorageManager.put keyPath record l) = Some record.
Proof.
  intros Hrec. unfold StorageManager.put.
  destruct (findIndex (StorageManager.has_key keyPath (record !! keyPath)) l) as [i|] eqn:Hi.
  - destruct (findIndex_Some _ _ _ Hi) as [(x & Hx & _) Hfirst].
    apply (find_first _ _ i).
    + apply list_lookup_insert_eq. eapply lookup_lt_Some; eauto.
    + exact Hrec.
    + intros j y Hj Hy. rewrite list_lookup_insert_ne in Hy by lia. eapply Hfirst; eauto.
  - pose proof (findIndex_None _ _ Hi) as Hnone.
    apply (find_first _ _ (length l)).
    + rewrite lookup_app_r by lia. rewrite Nat.sub_diag. reflexivity.
    + exact Hrec.
    + intros j y Hj Hy. rewrite lookup_app_l in Hy by lia.
      apply Hnone. apply list_elem_of_lookup. eauto.
Qed.

Lemma put_length_replace keyPath record l :
  (exists x, x ∈ l /\ StorageManager.has_key keyPath (record !! keyPath) x = true) ->
  length (StorageManager.put keyPath record l) = length l.
Proof.
  intros (x & Hx & Hk). unfold StorageManager.put.
  destruct (findIndex _ l) as [i|] eqn:Hi; [apply length_insert|].
  rewrite (findIndex_None _ _ Hi x Hx) in Hk. discriminate.
Qed.

(** X18. On the localStorage fallback, [saveTask] returns its argument
    unchanged and [getTask] of its id returns it; saving another task
    with the same id replaces it and keeps the number of stored tasks. *)
Theorem StorageManager_local_saveTask_then_getTask
    (sw : StorageManager.World) (task : obj) :
  StorageManager.indexed sw = None ->
  strict_eq (task !! "id") (task !! "id") = true ->
  let sw' := snd (StorageManager.saveTask task sw) in
  fst (StorageManager.saveTask task sw) = Normal task
  /\ fst (StorageManager.getTask (task !! "id") sw') = Normal (Some (JObj task))
  /\ task ∈ records (StorageManager.TASKS (StorageManager.localStorage sw'))
  /\ forall other,
       strict_eq (other !! "id") (task !! "id") = true ->
       let sw'' := snd (StorageManager.saveTask other sw') in
       fst (StorageManager.getTask (task !! "id") sw'') = Normal (Some (JObj other))
       /\ length (records (StorageManager.TASKS (StorageManager.localStorage sw'')))
          = length (records (StorageManager.TASKS (StorageManager.localStorage sw'))).
Proof.
  intros H Hid sw'. unfold sw'. rewrite (StorageManager_saveTask_local task sw H). cbn [fst snd].
  set (sw1 := StorageManager.with_localStorage _ sw).
  assert (H1 : StorageManager.indexed sw1 = None) by exact H.
  assert (Hfind : find (StorageManager.has_key "id" (task !! "id"))
                    (records (StorageManager.TASKS (StorageManager.localStorage sw1)))
                  = Some task) by (apply find_put; exact Hid).
  assert (Hin : task ∈ records (StorageManager.TASKS (StorageManager.localStorage sw1))).
  { apply find_elem with (p := StorageManager.has_key "id" (task !! "id")). exact Hfind. }
  split; [reflexivity|]. split; [|split; [exact Hin|]].
  - rewrite (StorageManager_getTask_local _ sw1 H1). cbn [fst]. rewrite Hfind. reflexivity.
  - intros other Ho.
    rewrite (StorageManager_saveTask_local other sw1 H1). cbn [fst snd].
    set (sw2 := StorageManager.with_localStorage _ sw1).
    assert (H2 : StorageManager.indexed sw2 = None) by exact H.
    rewrite (StorageManager_getTask_local _ sw2 H2). cbn [fst].
    assert (E : task !! "id" = other !! "id") by (symmetry; apply strict_eq_eq; exact Ho).
    split.
    + rewrite E. unfold sw2. cbn. rewrite find_put; [reflexivity|].
      unfold StorageManager.has_key. rewrite <- E. exact Hid.
    + unfold sw2. cbn. apply put_length_replace. exists task. split; [exact Hin|].
      unfold StorageManager.has_key. rewrite <- E. exact Hid.
Qed.

Lemma StorageManager_local_saveTask_then_getTask_witness :
  let task : obj := {[ "id" := JNum 7; "title" := JStr "Call back" ]} in
  fst (StorageManager.getTask (Some (JNum 7))
         (snd (StorageManager.saveTask task sample_local_manager)))
  = Normal (Some (JObj task)).
Proof.
  intros task.
  exact (proj1 (proj2 (StorageManager_local_saveTask_then_getTask
                         sample_local_manager task eq_refl eq_refl))).
Defined.

(** X19. On the localStorage fallback, [getSetting] after [setSetting] of
    the same key gives the value set, and the other keys read as
    before. *)
Theorem StorageManager_local_setting_round_trip
    (sw : StorageManager.World) (key : string) (value dflt : json) :
  StorageManager.indexed sw = None ->
  let sw' := snd (StorageManager.setSetting key value sw) in
  fst (StorageManager.setSetting key value sw) = Normal value
  /\ fst (StorageManager.getSetting key dflt sw') = Normal (Some value)
  /\ forall other, other <> key ->
       fst (StorageManager.getSetting other dflt sw')
       = fst (StorageManager.getSetting other dflt sw).
Proof.
  intros H sw'.
  assert (E : StorageManager.setSetting key value sw =
            (Normal value,
             StorageManager.with_localStorage
               (StorageManager.set_SETTING key (Stored value) (StorageManager.localStorage sw))
               sw)).
  { unfold StorageManager.setSetting. run_sm. rewrite H. reflexivity. }
  unfold sw'. rewrite E. cbn [fst snd].
  set (sw1 := StorageManager.with_localStorage _ sw).
  assert (H1 : StorageManager.indexed sw1 = None) by exact H.
  split; [reflexivity|]. split.
  - rewrite (StorageManager_getSetting_local key dflt sw1 H1). cbn.
    rewrite String.eqb_refl. reflexivity.
  - intros other Hne.
    rewrite (StorageManager_getSetting_local other dflt sw1 H1),
      (StorageManager_getSetting_local other dflt sw H). cbn.
    destruct (String.eqb_spec other key); [contradiction|reflexivity].
Qed.

Lemma StorageManager_local_setting_round_trip_witness :
  fst (StorageManager.getSetting "theme" JNull
         (snd (StorageManager.setSetting "theme" (JStr "dark") corrupt_local_manager)))
  = Normal (Some (JStr "dark")).
Proof.
  exact (proj1 (proj2 (StorageManager_local_setting_round_trip
                         corrupt_local_manager "theme" (JStr "dark") JNull eq_refl))).
Defined.

(** ** Statistics and import *)

Lemma saveStatisticToLocalStorage_run date type data w :
  saveStatisticToLocalStorage date type data w =
  (Normal tt,
   with_localStorage
     (set_STATISTICS
        (Stored (stored_statistics w ++
                 [<["createdAt" := JStr (JSDate.toISOString (clock w (ticks w)))]>
                    (statistic_json date type data)]))
        (localStorage w))
     (with_ticks (S (ticks w)) w)).
Proof.
  unfold saveStatisticToLocalStorage. unfold mbind at 1, M_bind at 1.
  rewrite getStatisticsFromLocalStorage_run. reflexivity.
Qed.

(** X25. Offline, [saveStatistic] always appends a record, also when one
    of the same date and type is stored: [getStatistics] then returns the
    earlier records followed by the new one, and nothing is queued or
    requested. *)
Theorem offline_saveStatistic_always_appends (w : World) (date type data : json) :
  isOnline w = false ->
  let w' := exec (saveStatistic date type data) w in
  let record := <["createdAt" := JStr (JSDate.toISOString (clock w (ticks w)))]>
                  (statistic_json date type data) in
  eval (saveStatistic date type data) w = Normal tt
  /\ stored_statistics w' = stored_statistics w ++ [record]
  /\ eval getStatistics w' = Normal (records_json (stored_statistics w ++ [record]))
  /\ pendingOperations w' = pendingOperations w
  /\ requests w' = requests w.
Proof.
  intros Hoff.
  assert (E : saveStatistic date type data w = saveStatisticToLocalStorage date type data w).
  { unfold saveStatistic. apply offline_facade; [exact Hoff|].
    rewrite saveStatisticToLocalStorage_run. eexists. reflexivity. }
  unfold eval, exec. rewrite E, saveStatisticToLocalStorage_run. cbn [fst snd].
  split; [reflexivity|]. split; [reflexivity|]. split; [|split; reflexivity].
  unfold getStatistics. rewrite offline_facade.
  - unfold fmap, M_fmap. rewrite getStatisticsFromLocalStorage_run. reflexivity.
  - exact Hoff.
  - unfold fmap, M_fmap. rewrite getStatisticsFromLocalStorage_run. eexists. reflexivity.
Qed.

Lemma offline_saveStatistic_always_appends_witness :
  let w := sample_world net_down false Absent in
  let w1 := exec (saveStatistic (JStr "2023-11-14") (JStr "daily") (JNum 1)) w in
  let w2 := exec (saveStatistic (JStr "2023-11-14") (JStr "daily") (JNum 2)) w1 in
  length (stored_statistics w2) = 2%nat.
Proof.
  intros w w1 w2.
  destruct (offline_saveStatistic_always_appends w
              (JStr "2023-11-14") (JStr "daily") (JNum 1) eq_refl) as (_ & H1 & _).
  destruct (offline_saveStatistic_always_appends w1
              (JStr "2023-11-14") (JStr "daily") (JNum 2) eq_refl) as (_ & H2 & _).
  subst w2 w1. rewrite H2, H1. reflexivity.
Defined.

Lemma importDataToLocalStorage_run data w :
  importDataToLocalStorage data w =
  (Normal tt,
   with_localStorage
     {| TASKS := from_option Stored (TASKS (localStorage w)) (tasks data);
        SETTINGS := from_option Stored (SETTINGS (localStorage w)) (settings data);
        STATISTICS := from_option Stored (STATISTICS (localStorage w)) (statistics data);
        EXPENSES := EXPENSES (localStorage w);
        PENDING_OPS := PENDING_OPS (localStorage w) |} w).
Proof.
  unfold importDataToLocalStorage. run.
  destruct w as [on q [t s st e p] net req clk tk].
  destruct data as [v d [ts|] [ss|] [sts|]]; reflexivity.
Qed.

(** X26. Offline, [exportData] after [importData] gives the tasks,
    settings and statistics of the imported document, each collection the
    document lacks being the one stored before; the expenses and the
    queue are not touched and nothing is requested. *)
Theorem offline_importData_then_exportData (w : World) (data : Document) :
  isOnline w = false ->
  let w' := exec (importData data) w in
  eval exportData w'
    = Normal (LocalExport
        {| version := Some "1.0";
           exportDate := Some (JSDate.toISOString (clock w (ticks w)));
           tasks := Some (default (stored_tasks w) (tasks data));
           settings := Some (default (stored_settings w) (settings data));
           statistics := Some (default (stored_statistics w) (statistics data)) |})
  /\ EXPENSES (localStorage w') = EXPENSES (localStorage w)
  /\ pendingOperations w' = pendingOperations w
  /\ PENDING_OPS (localStorage w') = PENDING_OPS (localStorage w)
  /\ requests w' = requests w.
Proof.
  intros Hoff.
  assert (E : importData data w = importDataToLocalStorage data w).
  { unfold importData. apply offline_facade; [exact Hoff|].
    rewrite importDataToLocalStorage_run. eexists. reflexivity. }
  unfold eval, exec. rewrite E, importDataToLocalStorage_run. cbn [fst snd].
  split; [|repeat split; reflexivity].
  unfold exportData. rewrite offline_facade.
  - unfold fmap, M_fmap. rewrite exportDataFromLocalStorage_run. cbn [fst].
    unfold stored_tasks, stored_settings, stored_statistics. simpl.
    destruct (tasks data), (settings data), (statistics data); reflexivity.
  - exact Hoff.
  - unfold fmap, M_fmap. rewrite exportDataFromLocalStorage_run. eexists. reflexivity.
Qed.

Lemma offline_importData_then_exportData_witness :
  let w := sample_world net_down false Absent in
  let data := {| version := None; exportDate := None; tasks := Some [sample_task];
                 settings := None; statistics := None |} in
  eval exportData (exec (importData data) w)
  = Normal (LocalExport
      {| version := Some "1.0";
         exportDate := Some (JSDate.toISOString (clock w (ticks w)));
         tasks := Some [sample_task]; settings := Some ∅; statistics := Some [] |}).
Proof.
  intros w data.
  exact (proj1 (offline_importData_then_exportData w data eq_refl)).
Defined.

(** ** The statistics of StorageManager *)

Lemma find_upsert {A} (p : A -> bool) record l :
  p record = true ->
  find p (match findIndex p l with
          | Some i => <[i := record]> l
          | None => l ++ [record]
          end) = Some record.
Proof.
  intros Hrec. destruct (findIndex p l) as [i|] eqn:Hi.
  - destruct (findIndex_Some _ _ _ Hi) as [(x & Hx & _) Hfirst].
    apply (find_first _ _ i).
    + apply list_lookup_insert_eq. eapply lookup_lt_Some; eauto.
    + exact Hrec.
    + intros j y Hj Hy. rewrite list_lookup_insert_ne in Hy by lia. eapply Hfirst; eauto.
  - pose proof (findIndex_None _ _ Hi) as Hnone.
    apply (find_first _ _ (length l)).
    + rewrite lookup_app_r by lia. rewrite Nat.sub_diag. reflexivity.
    + exact Hrec.
    + intros j y Hj Hy. rewrite lookup_app_l in Hy by lia.
      apply Hnone. apply list_elem_of_lookup. eauto.
Qed.

Lemma StorageManager_saveStatistic_local date type data sw :
  StorageManager.indexed sw = None ->
  let stat := StorageManager.statistic_record date type data
                (JSDate.toISOString (StorageManager.clock sw (StorageManager.ticks sw))) in
  let stats := records (StorageManager.STATISTICS (StorageManager.localStorage sw)) in
  fst (StorageManager.saveStatistic date type data sw) = Normal stat
  /\ records (StorageManager.STATISTICS
                (StorageManager.localStorage
                   (snd (StorageManager.saveStatistic date type data sw))))
     = match findIndex (StorageManager.same_statistic date type) stats with
       | Some i => <[i := stat]> stats
       | None => stats ++ [stat]
       end
  /\ StorageManager.indexed (snd (StorageManager.saveStatistic date type data sw)) = None.
Proof.
  intros H stat stats.
  unfold StorageManager.saveStatistic, StorageManager.new_Date_toISOString.
  run_sm. cbn. unfold StorageManager.indexed in *. cbn. rewrite H.
  pose proof (StorageManager_getStatistics_local
                (StorageManager.with_ticks (S (StorageManager.ticks sw)) sw) H) as E.
  cbn in E. rewrite E. cbn. auto.
Qed.

Lemma upsert_length {A} (p : A -> bool) record l x :
  x ∈ l -> p x = true ->
  length (match findIndex p l with
          | Some i => <[i := record]> l
          | None => l ++ [record]
          end) = length l.
Proof.
  intros Hx Hp. destruct (findIndex p l) as [i|] eqn:Hi; [apply length_insert|].
  rewrite (findIndex_None _ _ Hi x Hx) in Hp. discriminate.
Qed.

Lemma same_statistic_record date type data now :
  strict_eq (Some date) (Some date) = true ->
  strict_eq (Some type) (Some type) = true ->
  StorageManager.same_statistic date type (StorageManager.statistic_record date type data now)
  = true.
Proof.
  intros Hd Ht. unfold StorageManager.same_statistic, StorageManager.statistic_record.
  rewrite lookup_insert_eq, Hd.
  rewrite lookup_insert_ne by discriminate. rewrite lookup_insert_eq, Ht. reflexivity.
Qed.

(** X27. On the localStorage fallback, [saveStatistic] of [StorageManager]
    keeps one record for a date and type: the record saved is the one
    found for them, and a second save of the same date and type replaces
    it without changing the number of records. *)
Theorem StorageManager_local_saveStatistic_replaces
    (sw : StorageManager.World) (date type data data' : json) :
  StorageManager.indexed sw = None ->
  strict_eq (Some date) (Some date) = true ->
  strict_eq (Some type) (Some type) = true ->
  let stored v := records (StorageManager.STATISTICS (StorageManager.localStorage v)) in
  let sw1 := snd (StorageManager.saveStatistic date type data sw) in
  let sw2 := snd (StorageManager.saveStatistic date type data' sw1) in
  exists stat stat',
    fst (StorageManager.saveStatistic date type data sw) = Normal stat
    /\ stat !! "data" = Some data
    /\ find (StorageManager.same_statistic date type) (stored sw1) = Some stat
    /\ fst (StorageManager.saveStatistic date type data' sw1) = Normal stat'
    /\ stat' !! "data" = Some data'
    /\ find (StorageManager.same_statistic date type) (stored sw2) = Some stat'
    /\ length (stored sw2) = length (stored sw1).
Proof.
  intros H Hd Ht stored sw1 sw2.
  destruct (StorageManager_saveStatistic_local date type data sw H) as (R1 & S1 & I1).
  fold sw1 in S1, I1.
  destruct (StorageManager_saveStatistic_local date type data' sw1 I1) as (R2 & S2 & _).
  fold sw2 in S2.
  eexists _, _. split; [exact R1|]. split.
  { unfold StorageManager.statistic_record. rewrite !lookup_insert_ne by discriminate.
    apply lookup_insert_eq. }
  assert (F1 : find (StorageManager.same_statistic date type) (stored sw1) = Some
             (StorageManager.statistic_record date type data
                (JSDate.toISOString (StorageManager.clock sw (StorageManager.ticks sw))))).
  { unfold stored. rewrite S1. apply find_upsert, same_statistic_record; assumption. }
  split; [exact F1|]. split; [exact R2|]. split.
  { unfold StorageManager.statistic_record. rewrite !lookup_insert_ne by discriminate.
    apply lookup_insert_eq. }
  split.
  - unfold stored. rewrite S2. apply find_upsert, same_statistic_record; assumption.
  - unfold stored at 1. rewrite S2.
    apply (upsert_length _ _ _ _ (find_elem _ _ _ F1)).
    apply same_statistic_record; assumption.
Qed.

Lemma StorageManager_local_saveStatistic_replaces_witness :
  let day := JStr "2023-11-14" in
  let sw1 := snd (StorageManager.saveStatistic day (JStr "daily") (JNum 1)
                    sample_local_manager) in
  let sw2 := snd (StorageManager.saveStatistic day (JStr "daily") (JNum 2) sw1) in
  length (records (StorageManager.STATISTICS (StorageManager.localStorage sw2)))
  = length (records (StorageManager.STATISTICS (StorageManager.localStorage sw1))).
Proof.
  intros day sw1 sw2.
  destruct (StorageManager_local_saveStatistic_replaces sample_local_manager
              day (JStr "daily") (JNum 1) (JNum 2) eq_refl eq_refl eq_refl)
    as (stat & stat' & _ & _ & _ & _ & _ & _ & Hlen).
  exact Hlen.
Defined.

(** ** Further properties of the statistics *)

Section StatisticsFacts.
Import JSDate StatisticsManager.

Lemma count_fold today l : forall s,
  let s' := fold_left (fun stats task => count stats today task) l s in
  completed s' + pending s' + overdue s'
    = completed s + pending s + overdue s + Z.of_nat (length l)
  /\ total s' = total s
  /\ completed s <= completed s' /\ pending s <= pending s' /\ overdue s <= overdue s'.
Proof.
  induction l as [|t l IH]; intros s.
  - simpl. lia.
  - cbn [fold_left length]. destruct (IH (count s today t)) as (H1 & H2 & H3 & H4 & H5).
    cbv zeta. rewrite H1, H2. rewrite Nat2Z.inj_succ.
    unfold count in *.
    destruct (strict_eq _ _); [|destruct (_ && _)]; cbn [completed pending overdue total] in *;
      lia.
Qed.

(** X20. The completed, pending and overdue counts of
    [getCompletionStats] are non-negative and add up to the total, which
    is the number of tasks of the period and at most the number of
    tasks. *)
Theorem completion_stats_partition (h : Host) (sm : StatisticsManager) (now now' : Z) :
  let s := getCompletionStats h sm now now' in
  completed s + pending s + overdue s = total s
  /\ total s = Z.of_nat (length (getTasksForPeriod h sm now))
  /\ 0 <= completed s /\ 0 <= pending s /\ 0 <= overdue s
  /\ total s <= Z.of_nat (length (tasks sm)).
Proof.
  unfold getCompletionStats.
  set (today := split_T_head (toISOString now')).
  set (l := getTasksForPeriod h sm now).
  destruct (count_fold today l
              {| completed := 0; pending := 0; overdue := 0; total := Z.of_nat (length l) |})
    as (H1 & H2 & H3 & H4 & H5).
  cbv zeta in *. cbn [completed pending overdue total] in *.
  assert (Hlen : (length l <= length (tasks sm))%nat).
  { unfold l, getTasksForPeriod. apply filter_length_le. }
  repeat split; lia.
Qed.

Lemma count_comm today s a b :
  count (count s today a) today b = count (count s today b) today a.
Proof.
  unfold count.
  destruct (strict_eq (a !! "status") _), (strict_eq (b !! "status") _);
    [| destruct (_ && _) | destruct (_ && _) | destruct (_ && _); destruct (_ && _)];
    cbn [completed pending overdue total]; f_equal; lia.
Qed.

Lemma count_fold_permutation today l l' :
  l ≡ₚ l' ->
  forall s, fold_left (fun stats task => count stats today task) l s
          = fold_left (fun stats task => count stats today task) l' s.
Proof.
  induction 1 as [|x l l' _ IH|x y l|l l' l'' _ IH1 _ IH2]; intros s; simpl.
  - reflexivity.
  - apply IH.
  - rewrite count_comm. reflexivity.
  - rewrite IH1. apply IH2.
Qed.

Lemma filter_permutation {A} (p : A -> bool) l l' :
  l ≡ₚ l' -> List.filter p l ≡ₚ List.filter p l'.
Proof.
  induction 1 as [|x l l' _ IH|x y l|l l' l'' _ IH1 _ IH2]; simpl.
  - reflexivity.
  - destruct (p x); [constructor|]; exact IH.
  - destruct (p x), (p y); try reflexivity. apply perm_swap.
  - etransitivity; eauto.
Qed.

(** X21. The completion statistics do not depend on the order of the
    tasks. *)
Theorem completion_stats_ignore_the_order
    (h : Host) (sm sm' : StatisticsManager) (now now' : Z) :
  tasks sm ≡ₚ tasks sm' ->
  currentPeriod sm = currentPeriod sm' ->
  getCompletionStats h sm now now' = getCompletionStats h sm' now now'.
Proof.
  intros Hp Hc. unfold getCompletionStats, getTasksForPeriod. rewrite <- Hc.
  pose proof (filter_permutation
                (created_since h (startDate h (currentPeriod sm) now)) _ _ Hp)
    as Hf.
  rewrite (Permutation_length Hf). apply count_fold_permutation. exact Hf.
Qed.

Lemma completion_stats_ignore_the_order_witness :
  getCompletionStats utc_host
    {| tasks := [task_next_week; task_today; task_yesterday]; currentPeriod := "week" |}
    week_now week_now
  = getCompletionStats utc_host
      {| tasks := [task_today; task_yesterday; task_next_week]; currentPeriod := "week" |}
      week_now week_now.
Proof.
  apply completion_stats_ignore_the_order; [|reflexivity].
  cbn [tasks]. apply Permutation_cons_append.
Defined.

(** X22. A task whose [createdAt] is missing, or is a value the [Date]
    constructor of the host reads as the Invalid Date, is in no period,
    not even in the period [all]: with only such tasks the period is
    empty and every count of the completion statistics and of the
    priority distribution is zero. *)
Theorem tasks_without_creation_date_are_not_counted
    (h : Host) (sm : StatisticsManager) (now now' : Z) :
  (forall t, t ∈ tasks sm ->
     t !! "createdAt" = None \/ new_Date h (t !! "createdAt") = None) ->
  getTasksForPeriod h sm now = []
  /\ getCompletionStats h sm now now'
     = {| completed := 0; pending := 0; overdue := 0; total := 0 |}
  /\ getPriorityData h sm now = no_priorities.
Proof.
  intros H.
  assert (E : getTasksForPeriod h sm now = []).
  { unfold getTasksForPeriod. induction (tasks sm) as [|t l IH]; [reflexivity|].
    assert (Ht : new_Date h (t !! "createdAt") = None).
    { destruct (H t) as [Hm|Hi]; [apply elem_of_cons; auto | rewrite Hm; reflexivity | exact Hi]. }
    simpl. unfold created_since at 1. rewrite Ht.
    destruct (startDate h (currentPeriod sm) now);
      apply IH; intros t' Ht'; apply H; apply elem_of_cons; auto. }
  split; [exact E|]. unfold getCompletionStats, getPriorityData. rewrite E. split; reflexivity.
Qed.

Lemma tasks_without_creation_date_are_not_counted_witness :
  getCompletionStats utc_host
    {| tasks := [ {[ "status" := JStr "completed"; "title" := JStr "Old" ]};
                  {[ "status" := JStr "pending"; "createdAt" := JStr "soon" ]} ];
       currentPeriod := "all" |} week_now week_now
  = {| completed := 0; pending := 0; overdue := 0; total := 0 |}.
Proof.
  apply tasks_without_creation_date_are_not_counted.
  intros t Ht. apply elem_of_cons in Ht as [->|Ht].
  - left. reflexivity.
  - apply list_elem_of_singleton in Ht. subst t. right. vm_compute. reflexivity.
Defined.

Lemma count_priorities_known l : forall p,
  forallb known_priority l = true ->
  exists p',
    count_priorities p l = Normal p'
    /\ counted p' = counted p + Z.of_nat (length l)
    /\ counted_completed p'
       = counted_completed p + Z.of_nat (length (List.filter is_completed l)).
Proof.
  induction l as [|t l IH]; intros p H.
  - exists p. simpl. repeat split; lia.
  - cbn [forallb] in H. apply andb_true_iff in H as [Ht Hl].
    cbn [count_priorities]. unfold known_priority in Ht. unfold count_priority.
    cbn [List.filter]. fold (is_completed t).
    destruct (lookup_priority (priority_key t)); try discriminate Ht;
      match goal with |- context [count_priorities ?q l] =>
        destruct (IH q Hl) as (p' & E & H1 & H2) end;
      exists p'; (split; [exact E|]); rewrite H1, H2;
      unfold counted, counted_completed, bump;
      destruct (is_completed t);
      cbn [high medium low active completed_count length]; rewrite ?Nat2Z.inj_succ; lia.
Qed.

(** X23. When every task of the period has the priority high, medium or
    low, or none (counted as medium), the six counters of
    [getPriorityData] add up to the number of tasks of the period and the
    completed counters to the number of completed ones. *)
Theorem priority_counts_cover_the_period
    (h : Host) (sm : StatisticsManager) (now : Z) :
  forallb known_priority (getTasksForPeriod h sm now) = true ->
  counted (getPriorityData h sm now) = Z.of_nat (length (getTasksForPeriod h sm now))
  /\ counted_completed (getPriorityData h sm now)
     = Z.of_nat (length (List.filter is_completed (getTasksForPeriod h sm now))).
Proof.
  intros H. unfold getPriorityData.
  destruct (count_priorities_known _ no_priorities H) as (p' & E & H1 & H2).
  rewrite E. rewrite H1, H2. split; reflexivity.
Qed.

Lemma priority_counts_cover_the_period_witness :
  let sm := {| tasks := [task_today; task_yesterday; task_next_week];
               currentPeriod := "week" |} in
  counted (getPriorityData utc_host sm week_now)
    = Z.of_nat (length (getTasksForPeriod utc_host sm week_now))
  /\ counted_completed (getPriorityData utc_host sm week_now)
     = Z.of_nat (length (List.filter is_completed (getTasksForPeriod utc_host sm week_now))).
Proof.
  intros sm. apply (priority_counts_cover_the_period utc_host sm week_now).
  vm_compute. reflexivity.
Defined.

Lemma count_priorities_unknown l t : forall p,
  t ∈ l -> lookup_priority (priority_key t) = Nothing ->
  count_priorities p l = Thrown TypeError.
Proof.
  induction l as [|a l IH]; intros p Hin Hn.
  - inversion Hin.
  - cbn [count_priorities]. apply elem_of_cons in Hin as [->|Hin].
    + unfold count_priority. rewrite Hn. reflexivity.
    + unfold count_priority at 1.
      destruct (lookup_priority (priority_key a)); try reflexivity; apply IH; assumption.
Qed.

(** X24. One task of the period with a priority that names no counter
    (and no member of [Object.prototype]) makes [getPriorityData] return
    all zeros, whatever the other tasks are. *)
Theorem one_unknown_priority_zeroes_the_counts
    (h : Host) (sm : StatisticsManager) (now : Z) (t : obj) :
  t ∈ getTasksForPeriod h sm now ->
  lookup_priority (priority_key t) = Nothing ->
  getPriorityData h sm now = no_priorities.
Proof.
  intros Hin Hn. unfold getPriorityData.
  rewrite (count_priorities_unknown _ t no_priorities Hin Hn). reflexivity.
Qed.

Lemma one_unknown_priority_zeroes_the_counts_witness :
  let urgent : obj := {[ "priority" := JStr "urgent"; "status" := JStr "pending";
                         "createdAt" := JStr "2023-11-13T09:00:00.000Z" ]} in
  getPriorityData utc_host
    {| tasks := [task_next_week; urgent]; currentPeriod := "all" |} week_now
  = no_priorities.
Proof.
  intros urgent.
  apply (one_unknown_priority_zeroes_the_counts _ _ week_now urgent).
  - assert (E : getTasksForPeriod utc_host
                  {| tasks := [task_next_week; urgent]; currentPeriod := "all" |} week_now
                = [task_next_week; urgent]) by (vm_compute; reflexivity).
    rewrite E. apply elem_of_cons. right. apply elem_of_cons. left. reflexivity.
  - vm_compute. reflexivity.
Defined.

End StatisticsFacts.
